(** * Hybrid Res-UNet (3D contracting path, 2D expanding path)

    A shallow embedding of [hybrid/models/hybrid_res_unet_bp.py].

    The network is a composition of PyTorch layers.  What the Python file
    itself decides is (a) how each layer is configured, (b) in which order
    the layers are applied, (c) which slice of a volume is selected and
    (d) how the list of skip connections is pushed and popped.  A tensor is
    therefore modelled by its shape together with a symbolic term that
    records how it was computed; the floating-point contents of a tensor
    and the values of the parameters are not modelled (so neither is the
    weight initialisation of [utils], which only sets parameter values).
    Every PyTorch call that can raise on a shape is a function into
    [result].

    Conventions of the model of PyTorch:
    - tensors are batched: a 3D layer takes a rank-5 tensor
      (batch, channel, depth, height, width), a 2D layer a rank-4 tensor;
    - [training] is the mode of the module tree ([train()] / [eval()]); it
      matters to shapes only through batch normalisation, which in training
      mode refuses an input with a single value per channel;
    - when a call violates several checks at once, the exception reported
      is the one of the first check in the order of the definition. *)

From Stdlib Require Import ZArith List Lia Bool.
From Stdlib Require Import Floats.
Import ListNotations.
Local Open Scope Z_scope.

(** Python's [//] on ints is [Z.div]; [lia] is told about quotients. *)
Ltac Zify.zify_post_hook ::= Z.to_euclidean_division_equations.

(* ================================================================== *)
(** * Exceptions and the error monad *)
(* ================================================================== *)

(** The Python exceptions a construction or a forward pass can raise. *)
Inductive error : Type :=
| DropoutProbability   (* ValueError: dropout probability has to be between 0 and 1 *)
| ExpectedMoreValues   (* ValueError: Expected more than 1 value per channel when training *)
| WrongRank            (* ValueError / RuntimeError: expected 4D or 5D input *)
| ChannelMismatch      (* RuntimeError: expected input to have c channels *)
| KernelTooLarge       (* RuntimeError: Kernel size can't be greater than actual input size *)
| NonPositiveStride    (* RuntimeError: non-positive stride is not supported *)
| SizeMismatch         (* RuntimeError: sizes of tensors must match *)
| IndexOutOfRange.     (* IndexError: index out of range, pop from empty list *)

Inductive result (A : Type) : Type :=
| Ok (a : A)
| Err (e : error).

Arguments Ok {A} a.
Arguments Err {A} e.

Definition bind {A B : Type} (r : result A) (k : A -> result B) : result B :=
  match r with
  | Ok a => k a
  | Err e => Err e
  end.

Notation "x <- e ;; k" := (bind e (fun x => k))
  (at level 61, e at next level, right associativity).
Notation "' pat <- e ;; k" := (bind e (fun x => match x with pat => k end))
  (at level 61, pat pattern, e at next level, right associativity).

(** [for x in l: s = body(x, s)], stopping at the first exception. *)
Fixpoint for_each {A S : Type} (body : A -> S -> result S) (l : list A) (s : S)
  : result S :=
  match l with
  | [] => Ok s
  | a :: l' => s' <- body a s ;; for_each body l' s'
  end.

(* ================================================================== *)
(** * Python lists *)
(* ================================================================== *)

Definition len {A : Type} (l : list A) : Z := Z.of_nat (length l).

(** [l[i]] with Python's negative indices. *)
Definition getitem {A : Type} (l : list A) (i : Z) : result A :=
  let j := if i <? 0 then i + len l else i in
  if j <? 0 then Err IndexOutOfRange
  else match nth_error l (Z.to_nat j) with
       | Some a => Ok a
       | None => Err IndexOutOfRange
       end.

(** [l.append(a)]: the new element goes to the end. *)
Definition append {A : Type} (l : list A) (a : A) : list A := l ++ [a].

(** [l.pop()]: removes and returns the last element. *)
Definition pop {A : Type} (l : list A) : result (A * list A) :=
  match rev l with
  | [] => Err IndexOutOfRange
  | a :: r => Ok (a, rev r)
  end.

Fixpoint enumerate_from {A : Type} (i : Z) (l : list A) : list (Z * A) :=
  match l with
  | [] => []
  | a :: l' => (i, a) :: enumerate_from (i + 1) l'
  end.

Definition enumerate {A : Type} (l : list A) : list (Z * A) := enumerate_from 0 l.

(** [range(n)] *)
Definition range (n : Z) : list Z := map Z.of_nat (seq 0 (Z.to_nat n)).

(* ================================================================== *)
(** * Layer configurations *)
(* ================================================================== *)

(** An argument that PyTorch accepts as an int or as a tuple. *)
Inductive size3_arg : Type :=
| Int3 (n : Z)
| Tuple3 (t : Z * Z * Z).

Definition _triple (a : size3_arg) : Z * Z * Z :=
  match a with
  | Int3 n => (n, n, n)
  | Tuple3 t => t
  end.

Definition _pair (n : Z) : Z * Z := (n, n).

Record Conv3d : Type := mkConv3d {
  c3_in_channels : Z;
  c3_out_channels : Z;
  c3_kernel_size : Z * Z * Z;
  c3_stride : Z * Z * Z;
  c3_padding : Z * Z * Z;
  c3_bias : bool
}.

Record Conv2d : Type := mkConv2d {
  c2_in_channels : Z;
  c2_out_channels : Z;
  c2_kernel_size : Z * Z;
  c2_stride : Z * Z;
  c2_padding : Z * Z;
  c2_bias : bool
}.

Record ConvTranspose2d : Type := mkConvTranspose2d {
  ct_in_channels : Z;
  ct_out_channels : Z;
  ct_kernel_size : Z * Z;
  ct_stride : Z * Z;
  ct_padding : Z * Z
}.

Record BatchNorm3d : Type := mkBatchNorm3d { bn3_num_features : Z }.
Record BatchNorm2d : Type := mkBatchNorm2d { bn2_num_features : Z }.
Record Dropout3d : Type := mkDropout3d { dp3_p : float }.
Record Dropout2d : Type := mkDropout2d { dp2_p : float }.
Record ReLU : Type := mkReLU { relu_inplace : bool }.

(** A layer, as it appears in an [nn.Sequential] or in the term of a tensor. *)
Inductive layer : Type :=
| LConv3d (c : Conv3d)
| LBatchNorm3d (b : BatchNorm3d)
| LDropout3d (d : Dropout3d)
| LConv2d (c : Conv2d)
| LBatchNorm2d (b : BatchNorm2d)
| LDropout2d (d : Dropout2d)
| LConvTranspose2d (c : ConvTranspose2d)
| LReLU (r : ReLU).

(* ================================================================== *)
(** * Tensors *)
(* ================================================================== *)

(** How a tensor was computed. *)
Inductive expr : Type :=
| EInput (name : nat)
| EApp (l : layer) (e : expr)               (* l(e) *)
| EAdd (e1 e2 : expr)                       (* e1 += e2 *)
| ESelect2 (i : Z) (e : expr)               (* e[:, :, i] *)
| ECat1 (e1 e2 : expr).                     (* torch.cat([e1, e2], 1) *)

Record Tensor : Type := mkTensor {
  shape : list Z;
  term : expr
}.

(** [t.size(d)] *)
Definition size (t : Tensor) (d : nat) : result Z :=
  match nth_error (shape t) d with
  | Some n => Ok n
  | None => Err IndexOutOfRange
  end.

(** [t[:, :, i]]: one slice along the depth axis, which disappears. *)
Definition select2 (t : Tensor) (i : Z) : result Tensor :=
  match shape t with
  | n :: c :: d :: rest =>
      if (- d <=? i) && (i <? d)
      then Ok {| shape := n :: c :: rest; term := ESelect2 i (term t) |}
      else Err IndexOutOfRange
  | _ => Err IndexOutOfRange
  end.

Fixpoint shape_eqb (s1 s2 : list Z) : bool :=
  match s1, s2 with
  | [], [] => true
  | a :: s1', b :: s2' => (a =? b) && shape_eqb s1' s2'
  | _, _ => false
  end.

(** [torch.cat([a, b], 1)]: all dimensions but the channel axis must agree. *)
Definition cat1 (a b : Tensor) : result Tensor :=
  match shape a, shape b with
  | n :: ca :: ra, m :: cb :: rb =>
      if (n =? m) && shape_eqb ra rb
      then Ok {| shape := n :: (ca + cb) :: ra; term := ECat1 (term a) (term b) |}
      else Err SizeMismatch
  | _, _ => Err SizeMismatch
  end.

(** Can a tensor of shape [src] be broadcast to shape [dst]?  Both shapes
    are given last dimension first. *)
Fixpoint broadcastable_rev (src dst : list Z) : bool :=
  match src, dst with
  | [], _ => true
  | _ :: _, [] => false
  | s :: src', d :: dst' => ((s =? d) || (s =? 1)) && broadcastable_rev src' dst'
  end.

(** [out += residual]: in place, so the result has the shape of [out]. *)
Definition iadd (out residual : Tensor) : result Tensor :=
  if broadcastable_rev (rev (shape residual)) (rev (shape out))
  then Ok {| shape := shape out; term := EAdd (term out) (term residual) |}
  else Err SizeMismatch.

(* ================================================================== *)
(** * Shape semantics of the PyTorch layers *)
(* ================================================================== *)

(** Output length of a convolution along one axis (dilation 1). *)
Definition conv_out_size (i k s p : Z) : result Z :=
  if s <=? 0 then Err NonPositiveStride
  else if i + 2 * p <? k then Err KernelTooLarge
  else Ok ((i + 2 * p - k) / s + 1).

(** Output length of a transposed convolution along one axis
    (dilation 1, no output padding). *)
Definition conv_transpose_out_size (i k s p : Z) : Z :=
  (i - 1) * s - 2 * p + (k - 1) + 1.

Definition Conv3d_forward (c : Conv3d) (x : Tensor) : result Tensor :=
  match shape x with
  | [n; ch; d; h; w] =>
      if ch =? c3_in_channels c then
        let '(kd, kh, kw) := c3_kernel_size c in
        let '(sd, sh, sw) := c3_stride c in
        let '(pd, ph, pw) := c3_padding c in
        d' <- conv_out_size d kd sd pd ;;
        h' <- conv_out_size h kh sh ph ;;
        w' <- conv_out_size w kw sw pw ;;
        Ok {| shape := [n; c3_out_channels c; d'; h'; w'];
              term := EApp (LConv3d c) (term x) |}
      else Err ChannelMismatch
  | _ => Err WrongRank
  end.

Definition Conv2d_forward (c : Conv2d) (x : Tensor) : result Tensor :=
  match shape x with
  | [n; ch; h; w] =>
      if ch =? c2_in_channels c then
        let '(kh, kw) := c2_kernel_size c in
        let '(sh, sw) := c2_stride c in
        let '(ph, pw) := c2_padding c in
        h' <- conv_out_size h kh sh ph ;;
        w' <- conv_out_size w kw sw pw ;;
        Ok {| shape := [n; c2_out_channels c; h'; w'];
              term := EApp (LConv2d c) (term x) |}
      else Err ChannelMismatch
  | _ => Err WrongRank
  end.

(** The transposed convolution, on an input of positive height and width
    (PyTorch refuses an input that is empty along these axes; the statements
    about its errors take [h] and [w] positive). *)
Definition ConvTranspose2d_forward (c : ConvTranspose2d) (x : Tensor)
  : result Tensor :=
  match shape x with
  | [n; ch; h; w] =>
      if ch =? ct_in_channels c then
        let '(kh, kw) := ct_kernel_size c in
        let '(sh, sw) := ct_stride c in
        let '(ph, pw) := ct_padding c in
        Ok {| shape := [n; ct_out_channels c;
                        conv_transpose_out_size h kh sh ph;
                        conv_transpose_out_size w kw sw pw];
              term := EApp (LConvTranspose2d c) (term x) |}
      else Err ChannelMismatch
  | _ => Err WrongRank
  end.

(** Batch normalisation keeps the shape.  In training mode it refuses an
    input that has a single value per channel. *)
Definition BatchNorm3d_forward (training : bool) (b : BatchNorm3d) (x : Tensor)
  : result Tensor :=
  match shape x with
  | [n; ch; d; h; w] =>
      if training && (n * (d * (h * w)) =? 1) then Err ExpectedMoreValues
      else if ch =? bn3_num_features b
      then Ok {| shape := shape x; term := EApp (LBatchNorm3d b) (term x) |}
      else Err ChannelMismatch
  | _ => Err WrongRank
  end.

Definition BatchNorm2d_forward (training : bool) (b : BatchNorm2d) (x : Tensor)
  : result Tensor :=
  match shape x with
  | [n; ch; h; w] =>
      if training && (n * (h * w) =? 1) then Err ExpectedMoreValues
      else if ch =? bn2_num_features b
      then Ok {| shape := shape x; term := EApp (LBatchNorm2d b) (term x) |}
      else Err ChannelMismatch
  | _ => Err WrongRank
  end.

Definition ReLU_forward (r : ReLU) (x : Tensor) : result Tensor :=
  Ok {| shape := shape x; term := EApp (LReLU r) (term x) |}.

Definition Dropout3d_forward (d : Dropout3d) (x : Tensor) : result Tensor :=
  Ok {| shape := shape x; term := EApp (LDropout3d d) (term x) |}.

Definition Dropout2d_forward (d : Dropout2d) (x : Tensor) : result Tensor :=
  Ok {| shape := shape x; term := EApp (LDropout2d d) (term x) |}.

(** [nn.Dropout3d(p=p)] and [nn.Dropout2d(p=p)] check [p < 0 or p > 1]. *)
Definition valid_p (p : float) : bool :=
  negb (PrimFloat.ltb p 0%float || PrimFloat.ltb 1%float p).

Definition Dropout3d_init (p : float) : result Dropout3d :=
  if valid_p p then Ok {| dp3_p := p |} else Err DropoutProbability.

Definition Dropout2d_init (p : float) : result Dropout2d :=
  if valid_p p then Ok {| dp2_p := p |} else Err DropoutProbability.

Definition layer_forward (training : bool) (l : layer) (x : Tensor)
  : result Tensor :=
  match l with
  | LConv3d c => Conv3d_forward c x
  | LBatchNorm3d b => BatchNorm3d_forward training b x
  | LDropout3d d => Dropout3d_forward d x
  | LConv2d c => Conv2d_forward c x
  | LBatchNorm2d b => BatchNorm2d_forward training b x
  | LDropout2d d => Dropout2d_forward d x
  | LConvTranspose2d c => ConvTranspose2d_forward c x
  | LReLU r => ReLU_forward r x
  end.

(** [nn.Sequential]: the layers are applied in order. *)
Definition Sequential : Type := list layer.

Definition Sequential_forward (training : bool) (s : Sequential) (x : Tensor)
  : result Tensor :=
  for_each (layer_forward training) s x.

(* ================================================================== *)
(** * 3D residual block *)
(* ================================================================== *)

(** [conv_333(in_channels, out_channels, stride, padding)]: the stride is
    an int, the padding an int or a (depth, height, width) tuple. *)
Definition conv_333 (in_channels out_channels stride : Z) (padding : size3_arg)
  : Conv3d :=
  {| c3_in_channels := in_channels;
     c3_out_channels := out_channels;
     c3_kernel_size := _triple (Int3 3);
     c3_stride := _triple (Int3 stride);
     c3_padding := _triple padding;
     c3_bias := true |}.

Record ResBlock3D : Type := mkResBlock3D {
  rb3_downsample : option Sequential;
  rb3_bn1 : BatchNorm3d;
  rb3_conv1 : Conv3d;
  rb3_bn2 : BatchNorm3d;
  rb3_conv2 : Conv3d;
  rb3_relu : ReLU;
  rb3_dp : Dropout3d
}.

(** [padding = 1 if stride == 1 else (0, 1, 1)] *)
Definition ResBlock3D_padding (stride : Z) : size3_arg :=
  if stride =? 1 then Int3 1 else Tuple3 (0, 1, 1).

(** [ResBlock3D.__init__(in_channels, out_channels, stride, p, downsample)] *)
Definition ResBlock3D_init (in_channels out_channels stride : Z) (p : float)
    (downsample : option Sequential) : result ResBlock3D :=
  let padding := ResBlock3D_padding stride in
  dp <- Dropout3d_init p ;;
  let downsample' :=
    if negb (stride =? 1) || negb (in_channels =? out_channels)
    then Some [ LConv3d {| c3_in_channels := in_channels;
                           c3_out_channels := out_channels;
                           c3_kernel_size := _triple (Int3 3);
                           c3_stride := _triple (Int3 stride);
                           c3_padding := _triple padding;
                           c3_bias := false |};
                LBatchNorm3d {| bn3_num_features := out_channels |} ]
    else downsample in
  Ok {| rb3_downsample := downsample';
        rb3_bn1 := {| bn3_num_features := in_channels |};
        rb3_conv1 := conv_333 in_channels out_channels stride padding;
        rb3_bn2 := {| bn3_num_features := out_channels |};
        rb3_conv2 := conv_333 out_channels out_channels 1 (Int3 1);
        rb3_relu := {| relu_inplace := true |};
        rb3_dp := dp |}.

(** The residual branch of [forward]: everything up to [out += residual]. *)
Definition ResBlock3D_main (training : bool) (self : ResBlock3D) (x : Tensor)
  : result Tensor :=
  out <- BatchNorm3d_forward training (rb3_bn1 self) x ;;
  out <- ReLU_forward (rb3_relu self) out ;;
  out <- Conv3d_forward (rb3_conv1 self) out ;;
  out <- BatchNorm3d_forward training (rb3_bn2 self) out ;;
  out <- ReLU_forward (rb3_relu self) out ;;
  out <- Conv3d_forward (rb3_conv2 self) out ;;
  Dropout3d_forward (rb3_dp self) out.

(** The shortcut branch: [residual], through [downsample] when there is one. *)
Definition ResBlock3D_shortcut (training : bool) (self : ResBlock3D) (x : Tensor)
  : result Tensor :=
  match rb3_downsample self with
  | Some downsample => Sequential_forward training downsample x
  | None => Ok x
  end.

(** [ResBlock3D.forward(x)] *)
Definition ResBlock3D_forward (training : bool) (self : ResBlock3D) (x : Tensor)
  : result Tensor :=
  let residual := x in
  out <- ResBlock3D_main training self x ;;
  residual <- ResBlock3D_shortcut training self residual ;;
  iadd out residual.

(* ================================================================== *)
(** * 2D residual block *)
(* ================================================================== *)

(** [conv_33(in_channels, out_channels, stride)] *)
Definition conv_33 (in_channels out_channels stride : Z) : Conv2d :=
  {| c2_in_channels := in_channels;
     c2_out_channels := out_channels;
     c2_kernel_size := _pair 3;
     c2_stride := _pair stride;
     c2_padding := _pair 1;
     c2_bias := false |}.

Record ResBlock2D : Type := mkResBlock2D {
  rb2_downsample : option Sequential;
  rb2_bn1 : BatchNorm2d;
  rb2_conv1 : Conv2d;
  rb2_bn2 : BatchNorm2d;
  rb2_conv2 : Conv2d;
  rb2_relu : ReLU;
  rb2_dp : Dropout2d
}.

(** [ResBlock2D.__init__(in_channels, out_channels, stride, p, downsample)] *)
Definition ResBlock2D_init (in_channels out_channels stride : Z) (p : float)
    (downsample : option Sequential) : result ResBlock2D :=
  dp <- Dropout2d_init p ;;
  let downsample' :=
    if negb (stride =? 1) || negb (in_channels =? out_channels)
    then Some [ LConv2d {| c2_in_channels := in_channels;
                           c2_out_channels := out_channels;
                           c2_kernel_size := _pair 1;
                           c2_stride := _pair stride;
                           c2_padding := _pair 0;
                           c2_bias := false |};
                LBatchNorm2d {| bn2_num_features := out_channels |} ]
    else downsample in
  Ok {| rb2_downsample := downsample';
        rb2_bn1 := {| bn2_num_features := in_channels |};
        rb2_conv1 := conv_33 in_channels out_channels stride;
        rb2_bn2 := {| bn2_num_features := out_channels |};
        rb2_conv2 := conv_33 out_channels out_channels 1;
        rb2_relu := {| relu_inplace := true |};
        rb2_dp := dp |}.

Definition ResBlock2D_main (training : bool) (self : ResBlock2D) (x : Tensor)
  : result Tensor :=
  out <- BatchNorm2d_forward training (rb2_bn1 self) x ;;
  out <- ReLU_forward (rb2_relu self) out ;;
  out <- Conv2d_forward (rb2_conv1 self) out ;;
  out <- Dropout2d_forward (rb2_dp self) out ;;
  out <- BatchNorm2d_forward training (rb2_bn2 self) out ;;
  out <- ReLU_forward (rb2_relu self) out ;;
  out <- Conv2d_forward (rb2_conv2 self) out ;;
  Dropout2d_forward (rb2_dp self) out.

Definition ResBlock2D_shortcut (training : bool) (self : ResBlock2D) (x : Tensor)
  : result Tensor :=
  match rb2_downsample self with
  | Some downsample => Sequential_forward training downsample x
  | None => Ok x
  end.

(** [ResBlock2D.forward(x)] *)
Definition ResBlock2D_forward (training : bool) (self : ResBlock2D) (x : Tensor)
  : result Tensor :=
  let residual := x in
  out <- ResBlock2D_main training self x ;;
  residual <- ResBlock2D_shortcut training self residual ;;
  iadd out residual.

(* ================================================================== *)
(** * Up-convolution and skip fusion *)
(* ================================================================== *)

Record UpConv : Type := mkUpConv { transconv : ConvTranspose2d }.

(** [UpConv.__init__(in_channels, out_channels)] *)
Definition UpConv_init (in_channels out_channels : Z) : UpConv :=
  {| transconv := {| ct_in_channels := in_channels;
                     ct_out_channels := out_channels;
                     ct_kernel_size := _pair 2;
                     ct_stride := _pair 2;
                     ct_padding := _pair 0 |} |}.

(** [UpConv.forward(skip, x)]: [skip] is a volume, [x] a slice. *)
Definition UpConv_forward (self : UpConv) (skip x : Tensor) : result Tensor :=
  d <- size skip 2 ;;
  let central_inx := d / 2 in
  skip_slice <- select2 skip central_inx ;;
  out <- ConvTranspose2d_forward (transconv self) x ;;
  cat1 skip_slice out.

(* ================================================================== *)
(** * Network assembly *)
(* ================================================================== *)

Record ResUNet : Type := mkResUNet {
  down_blocks : list Z;
  up_blocks : list Z;
  conv1 : Conv3d;
  BlocksDown : list ResBlock3D;
  bottleneck : ResBlock3D;
  BlocksUp : list ResBlock2D;
  TransUpBlocks : list UpConv;
  fl : Conv2d;
  relu : ReLU
}.

Definition default {A : Type} (o : option A) (d : A) : A :=
  match o with Some a => a | None => d end.

(** [ResUNet.__init__]; an argument that is [None] takes the default of the
    signature. *)
Definition ResUNet_init (in_channels out_channels : option Z)
    (down_blocks up_blocks : option (list Z)) (bottleneck : option Z)
    (p : option float) : result ResUNet :=
  let in_channels := default in_channels 1 in
  let out_channels := default out_channels 5 in
  let down_blocks := default down_blocks [32; 64; 128; 256] in
  let up_blocks := default up_blocks [256; 128; 64; 32] in
  let bottleneck := default bottleneck 512 in
  let p := default p 0.5%float in
  c <- getitem down_blocks 0 ;;
  let conv1 := {| c3_in_channels := in_channels;
                  c3_out_channels := c;
                  c3_kernel_size := _triple (Int3 3);
                  c3_stride := _triple (Int3 1);
                  c3_padding := _triple (Int3 1);
                  c3_bias := true |} in
  (* contract path *)
  BlocksDown <-
    for_each (fun '(b_inx, down_block) BlocksDown =>
                output_channel <- getitem down_blocks b_inx ;;
                if b_inx =? 0 then
                  input_channel <- getitem down_blocks 0 ;;
                  b <- ResBlock3D_init input_channel output_channel 1 p None ;;
                  Ok (append BlocksDown b)
                else
                  input_channel <- getitem down_blocks (b_inx - 1) ;;
                  b <- ResBlock3D_init input_channel output_channel 2 p None ;;
                  Ok (append BlocksDown b))
             (enumerate down_blocks) [] ;;
  (* bottleneck block *)
  c <- getitem down_blocks (-1) ;;
  bottleneck' <- ResBlock3D_init c bottleneck 2 p None ;;
  (* expansive path *)
  ' (BlocksUp, TransUpBlocks) <-
    for_each (fun '(b_inx, up_block) '(BlocksUp, TransUpBlocks) =>
                input_channel <- (if b_inx =? 0 then Ok bottleneck
                                  else getitem up_blocks (b_inx - 1)) ;;
                output_channel <- getitem up_blocks b_inx ;;
                let TransUpBlocks :=
                  append TransUpBlocks (UpConv_init input_channel output_channel) in
                b <- ResBlock2D_init input_channel output_channel 1 p None ;;
                Ok (append BlocksUp b, TransUpBlocks))
             (enumerate up_blocks) ([], []) ;;
  (* final convolution layer *)
  c <- getitem up_blocks (-1) ;;
  let fl := {| c2_in_channels := c;
               c2_out_channels := out_channels;
               c2_kernel_size := _pair 1;
               c2_stride := _pair 1;
               c2_padding := _pair 0;
               c2_bias := true |} in
  (* [_initialize_weights_3d(self)] and [_initialize_weights_2d(self)] set
     parameter values only *)
  Ok {| down_blocks := down_blocks;
        up_blocks := up_blocks;
        conv1 := conv1;
        BlocksDown := BlocksDown;
        bottleneck := bottleneck';
        BlocksUp := BlocksUp;
        TransUpBlocks := TransUpBlocks;
        fl := fl;
        relu := {| relu_inplace := true |} |}.

(** The first loop of [forward]: every block's output is appended to
    [skip_connections]. *)
Definition contract (training : bool) (self : ResUNet)
    (st : Tensor * list Tensor) : result (Tensor * list Tensor) :=
  for_each (fun down_block '(out, skip_connections) =>
              out <- ResBlock3D_forward training down_block out ;;
              Ok (out, append skip_connections out))
           (BlocksDown self) st.

(** The body of the second loop of [forward]. *)
Definition expand_stage (training : bool) (self : ResUNet) (b_inx : Z)
    (st : Tensor * list Tensor) : result (Tensor * list Tensor) :=
  let '(out, skip_connections) := st in
  ' (skip, skip_connections) <- pop skip_connections ;;
  out <- (if b_inx =? 0 then
            n_slices <- size out 2 ;;
            up <- getitem (TransUpBlocks self) b_inx ;;
            x <- select2 out (n_slices / 2) ;;
            UpConv_forward up skip x
          else
            up <- getitem (TransUpBlocks self) b_inx ;;
            UpConv_forward up skip out) ;;
  block <- getitem (BlocksUp self) b_inx ;;
  out <- ResBlock2D_forward training block out ;;
  Ok (out, skip_connections).

Definition expand (training : bool) (self : ResUNet)
    (st : Tensor * list Tensor) : result (Tensor * list Tensor) :=
  for_each (expand_stage training self) (range (len (up_blocks self))) st.

(** [ResUNet.forward(x)], returning [output] together with the local list
    [skip_connections] as it is when the function returns. *)
Definition forward_locals (training : bool) (self : ResUNet) (x : Tensor)
  : result (Tensor * list Tensor) :=
  out <- Conv3d_forward (conv1 self) x ;;
  let skip_connections := [] in
  ' (out, skip_connections) <- contract training self (out, skip_connections) ;;
  out <- ResBlock3D_forward training (bottleneck self) out ;;
  ' (out, skip_connections) <- expand training self (out, skip_connections) ;;
  output <- Conv2d_forward (fl self) out ;;
  Ok (output, skip_connections).

(** [ResUNet.forward(x)] *)
Definition forward (training : bool) (self : ResUNet) (x : Tensor)
  : result Tensor :=
  ' (output, _) <- forward_locals training self x ;;
  Ok output.

(* ================================================================== *)
(** * Size presets *)
(* ================================================================== *)

(** [ResUNet28(in_channels, out_channels, p=0.0)] *)
Definition ResUNet28 (in_channels out_channels : Z) (p : option float)
  : result ResUNet :=
  ResUNet_init (Some in_channels) (Some out_channels)
               (Some [32; 64; 128; 256; 512]) (Some [512; 256; 128; 64; 32])
               (Some 1024) (Some (default p 0%float)).

(** [ResUNet23(in_channels, out_channels, p=0.0)] *)
Definition ResUNet23 (in_channels out_channels : Z) (p : option float)
  : result ResUNet :=
  ResUNet_init (Some in_channels) (Some out_channels)
               (Some [32; 64; 128; 256]) (Some [256; 128; 64; 32])
               (Some 512) (Some (default p 0%float)).

(** [ResUNet18(in_channels, out_channels, p=0.0)] *)
Definition ResUNet18 (in_channels out_channels : Z) (p : option float)
  : result ResUNet :=
  ResUNet_init (Some in_channels) (Some out_channels)
               (Some [32; 64; 128]) (Some [128; 64; 32])
               (Some 256) (Some (default p 0%float)).

(** The script at the end of the file: [ResUNet18(1, 2, p=0.0)] applied to
    a tensor of shape (6, 1, 15, 96, 96). *)
Definition main_x : Tensor := {| shape := [6; 1; 15; 96; 96]; term := EInput 0 |}.

Definition main (training : bool) : result Tensor :=
  unet <- ResUNet18 1 2 (Some 0%float) ;;
  forward training unet main_x.

Definition shape_of (r : result Tensor) : result (list Z) :=
  t <- r ;; Ok (shape t).

(* ================================================================== *)
(** * Notions used in the statements *)
(* ================================================================== *)

(** The term of a tensor after the layers of [ls] were applied to it, first
    layer first. *)
Definition apply_layers (ls : list layer) (e : expr) : expr :=
  fold_left (fun e l => EApp l e) ls e.

(** The layers on the residual branch of a 3D block, in the order in which
    [forward] applies them. *)
Definition ResBlock3D_layers (self : ResBlock3D) : list layer :=
  [ LBatchNorm3d (rb3_bn1 self); LReLU (rb3_relu self); LConv3d (rb3_conv1 self);
    LBatchNorm3d (rb3_bn2 self); LReLU (rb3_relu self); LConv3d (rb3_conv2 self);
    LDropout3d (rb3_dp self) ].

(** The same for a 2D block. *)
Definition ResBlock2D_layers (self : ResBlock2D) : list layer :=
  [ LBatchNorm2d (rb2_bn1 self); LReLU (rb2_relu self); LConv2d (rb2_conv1 self);
    LDropout2d (rb2_dp self);
    LBatchNorm2d (rb2_bn2 self); LReLU (rb2_relu self); LConv2d (rb2_conv2 self);
    LDropout2d (rb2_dp self) ].

Definition is_dropout (l : layer) : bool :=
  match l with
  | LDropout3d _ | LDropout2d _ => true
  | _ => false
  end.

(** Depth padding of the first convolution of a 3D block. *)
Definition depth_padding (stride : Z) : Z := if stride =? 1 then 1 else 0.

(** The term of the shortcut branch. *)
Definition shortcut_term (downsample : option Sequential) (e : expr) : expr :=
  match downsample with
  | Some ls => apply_layers ls e
  | None => e
  end.

(** Number of dropout layers applied in the computation of a tensor. *)
Fixpoint dropout_count (e : expr) : nat :=
  match e with
  | EInput _ => 0
  | EApp l e' => (if is_dropout l then 1 else 0) + dropout_count e'
  | EAdd e1 e2 => dropout_count e1 + dropout_count e2
  | ESelect2 _ e' => dropout_count e'
  | ECat1 e1 e2 => dropout_count e1 + dropout_count e2
  end.

(** The three presets. *)
Definition is_preset (self : ResUNet) : Prop :=
  exists (in_channels out_channels : Z) (p : float),
    ResUNet18 in_channels out_channels (Some p) = Ok self
    \/ ResUNet23 in_channels out_channels (Some p) = Ok self
    \/ ResUNet28 in_channels out_channels (Some p) = Ok self.

(** Along one axis, the output of index [j] of a convolution of kernel size
    [k], stride [s] and padding [p] is computed from the inputs of index
    [j * s - p] to [j * s - p + k - 1]; for an odd [k] this window is
    centred on the input of index [j * s - p + (k - 1) / 2]. *)
Definition conv_window (k s p j : Z) : Z * Z := (j * s - p, j * s - p + k - 1).

Definition conv_centre (k s p j : Z) : Z := j * s - p + (k - 1) / 2.

(** Depth of the output of a 3D convolution on an input of depth [d]. *)
Definition Conv3d_depth (c : Conv3d) (d : Z) : result Z :=
  conv_out_size d (fst (fst (c3_kernel_size c))) (fst (fst (c3_stride c)))
                (fst (fst (c3_padding c))).

(** The input slice on which the output slice [j] of a 3D convolution is
    centred. *)
Definition Conv3d_depth_centre (c : Conv3d) (j : Z) : Z :=
  conv_centre (fst (fst (c3_kernel_size c))) (fst (fst (c3_stride c)))
              (fst (fst (c3_padding c))) j.

(** The same for a 3D residual block: its two convolutions in sequence (the
    other layers work slice by slice). *)
Definition ResBlock3D_depth (self : ResBlock3D) (d : Z) : result Z :=
  d1 <- Conv3d_depth (rb3_conv1 self) d ;;
  Conv3d_depth (rb3_conv2 self) d1.

Definition ResBlock3D_depth_centre (self : ResBlock3D) (j : Z) : Z :=
  Conv3d_depth_centre (rb3_conv1 self) (Conv3d_depth_centre (rb3_conv2 self) j).

(** A volume of depth [d] goes through [blocks]; the slice of index
    [depth // 2] of the result is centred on the slice of the volume whose
    index is returned. *)
Fixpoint central_origin (blocks : list ResBlock3D) (d : Z) : result Z :=
  match blocks with
  | [] => Ok (d / 2)
  | b :: rest =>
      d' <- ResBlock3D_depth b d ;;
      j <- central_origin rest d' ;;
      Ok (ResBlock3D_depth_centre b j)
  end.

(** The depth of the volume and of every feature map after it is odd. *)
Fixpoint depths_odd (blocks : list ResBlock3D) (d : Z) : Prop :=
  d mod 2 = 1
  /\ match blocks with
     | [] => True
     | b :: rest => exists d', ResBlock3D_depth b d = Ok d' /\ depths_odd rest d'
     end.

(** A block as the network builds them: stride 1 or 2, no [downsample]
    argument. *)
Definition network_block (b : ResBlock3D) : Prop :=
  exists (i o s : Z) (p : float),
    (s = 1 \/ s = 2) /\ ResBlock3D_init i o s p None = Ok b.

(** The presets by name, with their number [N] of contracting stages. *)
Inductive preset : Type := small | medium | large.

Definition stages (pr : preset) : Z :=
  match pr with small => 3 | medium => 4 | large => 5 end.

Definition preset_network (pr : preset) (in_channels out_channels : Z)
    (p : option float) : result ResUNet :=
  match pr with
  | small => ResUNet18 in_channels out_channels p
  | medium => ResUNet23 in_channels out_channels p
  | large => ResUNet28 in_channels out_channels p
  end.

(** The first convolution and the contracting loop of [forward]. *)
Definition contracting_path (training : bool) (self : ResUNet) (x : Tensor)
  : result (Tensor * list Tensor) :=
  out <- Conv3d_forward (conv1 self) x ;;
  contract training self (out, []).

(** A skip volume and a bottleneck slice of the small preset. *)
Definition skip_example : Tensor := {| shape := [6; 128; 3; 24; 24]; term := EInput 1 |}.

Definition slice_example : Tensor := {| shape := [6; 256; 12; 12]; term := EInput 2 |}.

Definition x3_example : Tensor := {| shape := [2; 32; 15; 8; 8]; term := EInput 0 |}.

Definition x2_example : Tensor := {| shape := [2; 32; 8; 8]; term := EInput 0 |}.

(** Modules a caller may hand to the constructors as [downsample]: a
    projection of stride 2 from 32 to 32 channels, 3D and 2D. *)
Definition supplied_downsample3 : Sequential :=
  [ LConv3d (mkConv3d 32 32 (3, 3, 3) (2, 2, 2) (0, 1, 1) false);
    LBatchNorm3d (mkBatchNorm3d 32) ].

Definition supplied_downsample2 : Sequential :=
  [ LConv2d (mkConv2d 32 32 (1, 1) (2, 2) (0, 0) false);
    LBatchNorm2d (mkBatchNorm2d 32) ].

(** Three blocks of stride 2, as in the small preset after its first block. *)
Definition stride2_blocks : list ResBlock3D :=
  match ResBlock3D_init 32 64 2 0%float None,
        ResBlock3D_init 64 128 2 0%float None,
        ResBlock3D_init 128 256 2 0%float None with
  | Ok b1, Ok b2, Ok b3 => [b1; b2; b3]
  | _, _, _ => []
  end.

Definition volume_15 : Tensor := {| shape := [2; 1; 15; 64; 64]; term := EInput 0 |}.

Definition volume_31 : Tensor := {| shape := [2; 1; 31; 64; 64]; term := EInput 0 |}.

(** [chain prev [a; b; c] = [(prev, a); (a, b); (b, c)]]: the (input, output)
    channel counts of successive stages. *)
Fixpoint chain (prev : Z) (l : list Z) : list (Z * Z) :=
  match l with
  | [] => []
  | x :: r => (prev, x) :: chain x r
  end.

(** (input channels, output channels, stride) of the contracting blocks. *)
Definition down_specs (l : list Z) : list (Z * Z * Z) :=
  match l with
  | [] => []
  | d0 :: r => (d0, d0, 1) :: map (fun io => (fst io, snd io, 2)) (chain d0 r)
  end.

(** [[f(a) for a in l]], stopping at the first exception. *)
Fixpoint map_result {A B : Type} (f : A -> result B) (l : list A) : result (list B) :=
  match l with
  | [] => Ok []
  | a :: l' => b <- f a ;; bs <- map_result f l' ;; Ok (b :: bs)
  end.

(** The body of the first loop of [ResUNet.__init__]. *)
Definition down_body (down_blocks : list Z) (p : float)
  : Z * Z -> list ResBlock3D -> result (list ResBlock3D) :=
  fun '(b_inx, down_block) BlocksDown =>
    output_channel <- getitem down_blocks b_inx ;;
    if b_inx =? 0 then
      input_channel <- getitem down_blocks 0 ;;
      b <- ResBlock3D_init input_channel output_channel 1 p None ;;
      Ok (append BlocksDown b)
    else
      input_channel <- getitem down_blocks (b_inx - 1) ;;
      b <- ResBlock3D_init input_channel output_channel 2 p None ;;
      Ok (append BlocksDown b).

(** The body of the second loop of [ResUNet.__init__]. *)
Definition up_body (up_blocks : list Z) (bottleneck : Z) (p : float)
  : Z * Z -> list ResBlock2D * list UpConv -> result (list ResBlock2D * list UpConv) :=
  fun '(b_inx, up_block) '(BlocksUp, TransUpBlocks) =>
    input_channel <- (if b_inx =? 0 then Ok bottleneck
                      else getitem up_blocks (b_inx - 1)) ;;
    output_channel <- getitem up_blocks b_inx ;;
    let TransUpBlocks :=
      append TransUpBlocks (UpConv_init input_channel output_channel) in
    b <- ResBlock2D_init input_channel output_channel 1 p None ;;
    Ok (append BlocksUp b, TransUpBlocks).

(** [t.size(0)] and [t.size(1)], 0 where the tensor has no such axis. *)
Definition batch_size (t : Tensor) : Z := nth 0 (shape t) 0.

Definition channels (t : Tensor) : Z := nth 1 (shape t) 0.

(** Two volumes for a block of stride 2: one too thin for its kernel, one of
    odd depth, height and width. *)
Definition thin_volume : Tensor := {| shape := [2; 32; 2; 5; 7]; term := EInput 0 |}.

Definition odd_volume : Tensor := {| shape := [2; 32; 7; 5; 7]; term := EInput 0 |}.

(** The body of the first loop of [ResUNet.forward]. *)
Definition contract_body (training : bool)
  : ResBlock3D -> Tensor * list Tensor -> result (Tensor * list Tensor) :=
  fun down_block '(out, skip_connections) =>
    out <- ResBlock3D_forward training down_block out ;;
    Ok (out, append skip_connections out).

(** Depth and height (or width) after [k] blocks of stride 2. *)
Definition halved_depth (d : Z) (k : nat) : Z := (d + 1) / 2 ^ Z.of_nat k - 1.

Definition halved_size (h : Z) (k : nat) : Z :=
  (h + 2 ^ Z.of_nat k - 1) / 2 ^ Z.of_nat k.

(** Height and width: the last two axes of a tensor. *)
Definition spatial (t : Tensor) : list Z := skipn (length (shape t) - 2) (shape t).

(* ================================================================== *)
(** * Basic facts *)
(* ================================================================== *)

Example main_shape : forall training, shape_of (main training) = Ok [6; 2; 96; 96].
Proof. intros []; vm_compute; reflexivity. Qed.

Lemma bind_Ok {A B : Type} (r : result A) (k : A -> result B) (b : B) :
  bind r k = Ok b -> exists a, r = Ok a /\ k a = Ok b.
Proof. destruct r as [a|e]; cbn; [eauto | discriminate]. Qed.

(** Inversion of a successful run: splits binds and conditionals. *)
Ltac inv_ok :=
  repeat match goal with
  | H : Ok _ = Ok _ |- _ => injection H as H
  | H : Err _ = Ok _ |- _ => discriminate H
  | H : bind ?r _ = Ok _ |- _ =>
      let a := fresh "t" in
      let E := fresh "E" in
      destruct (bind_Ok _ _ H) as (a & E & ?); clear H
  | H : (if ?c then _ else _) = Ok _ |- _ =>
      let C := fresh "C" in destruct c eqn:C; [| try discriminate H]
  end.

Lemma shape_eqb_refl (s : list Z) : shape_eqb s s = true.
Proof. induction s as [|a s IH]; cbn; [reflexivity|]. now rewrite Z.eqb_refl. Qed.

Lemma shape_eqb_eq (s1 s2 : list Z) : shape_eqb s1 s2 = true -> s1 = s2.
Proof.
  revert s2; induction s1 as [|a s1 IH]; intros [|b s2]; cbn; try discriminate; auto.
  intros H; apply andb_prop in H as [Hab H]. apply Z.eqb_eq in Hab.
  f_equal; auto.
Qed.

Lemma broadcastable_rev_refl (s : list Z) : broadcastable_rev s s = true.
Proof. induction s as [|a s IH]; cbn; [reflexivity|]. now rewrite Z.eqb_refl. Qed.

Lemma iadd_same_shape (out residual : Tensor) :
  shape residual = shape out ->
  iadd out residual = Ok {| shape := shape out; term := EAdd (term out) (term residual) |}.
Proof. intros E. unfold iadd. now rewrite E, broadcastable_rev_refl. Qed.

Lemma pop_append {A : Type} (l : list A) (a : A) : pop (append l a) = Ok (a, l).
Proof. unfold pop, append. rewrite rev_app_distr. cbn. now rewrite rev_involutive. Qed.

Lemma pop_Ok {A : Type} (l l' : list A) (a : A) :
  pop l = Ok (a, l') -> l = append l' a.
Proof.
  unfold pop, append. destruct (rev l) as [|b r] eqn:E; [discriminate|].
  intros H; injection H as -> <-.
  rewrite <- (rev_involutive l), E. reflexivity.
Qed.

(* ================================================================== *)
(** * Size presets *)
(* ================================================================== *)

(** C10.  For every [in_channels], [out_channels] and [p], the factory
    [ResUNet23(in_channels, out_channels, p)] builds what the constructor
    [ResUNet(in_channels, out_channels, p=p)] builds when the channel
    schedule is left at the defaults of the signature; when [p] is accepted
    the network has [down_blocks = [32, 64, 128, 256]],
    [up_blocks = [256, 128, 64, 32]] and a bottleneck of 512 channels, and
    when it is not, both raise the same error. *)
Theorem ResUNet23_is_default_ResUNet (in_channels out_channels : Z) (p : float) :
  ResUNet23 in_channels out_channels (Some p)
  = ResUNet_init (Some in_channels) (Some out_channels) None None None (Some p)
  /\ match ResUNet_init (Some in_channels) (Some out_channels) None None None (Some p) with
     | Ok net =>
         down_blocks net = [32; 64; 128; 256]
         /\ up_blocks net = [256; 128; 64; 32]
         /\ c3_out_channels (rb3_conv2 (bottleneck net)) = 512
     | Err e => e = DropoutProbability /\ valid_p p = false
     end.
Proof.
  split; [reflexivity|].
  unfold ResUNet_init, ResBlock3D_init, ResBlock2D_init, Dropout3d_init,
    Dropout2d_init.
  cbn [default].
  destruct (valid_p p); vm_compute; auto.
Qed.

(* ================================================================== *)
(** * Layers: when they succeed and what they return *)
(* ================================================================== *)

Lemma conv_out_size_Ok (i k s p j : Z) :
  conv_out_size i k s p = Ok j <->
  0 < s /\ k <= i + 2 * p /\ j = (i + 2 * p - k) / s + 1.
Proof.
  unfold conv_out_size.
  destruct (s <=? 0) eqn:Hs; [apply Z.leb_le in Hs | apply Z.leb_gt in Hs].
  - split; [discriminate | lia].
  - destruct (i + 2 * p <? k) eqn:Hk; [apply Z.ltb_lt in Hk | apply Z.ltb_ge in Hk].
    + split; [discriminate | lia].
    + split.
      * intros H; injection H as <-. repeat split; lia.
      * intros (_ & _ & ->). reflexivity.
Qed.

Lemma conv_out_size_pos (i k s p j : Z) : conv_out_size i k s p = Ok j -> 1 <= j.
Proof.
  intros H; apply conv_out_size_Ok in H as (Hs & Hk & ->).
  assert (0 <= (i + 2 * p - k) / s) by (apply Z.div_pos; lia). lia.
Qed.

(** A 3x3 convolution of stride 1 and padding 1 keeps every length. *)
Lemma conv_out_size_same (i : Z) : 1 <= i -> conv_out_size i 3 1 1 = Ok i.
Proof.
  intros Hi. apply conv_out_size_Ok. repeat split; lia.
Qed.

Lemma Conv3d_forward_Ok (c : Conv3d) (x y : Tensor) :
  Conv3d_forward c x = Ok y <->
  exists n d h w d' h' w',
    shape x = [n; c3_in_channels c; d; h; w]
    /\ conv_out_size d (fst (fst (c3_kernel_size c))) (fst (fst (c3_stride c)))
                     (fst (fst (c3_padding c))) = Ok d'
    /\ conv_out_size h (snd (fst (c3_kernel_size c))) (snd (fst (c3_stride c)))
                     (snd (fst (c3_padding c))) = Ok h'
    /\ conv_out_size w (snd (c3_kernel_size c)) (snd (c3_stride c))
                     (snd (c3_padding c)) = Ok w'
    /\ y = {| shape := [n; c3_out_channels c; d'; h'; w'];
              term := EApp (LConv3d c) (term x) |}.
Proof.
  unfold Conv3d_forward.
  destruct c as [ci co [[kd kh] kw] [[sd sh] sw] [[pd ph] pw] b]; cbn [c3_in_channels
    c3_out_channels c3_kernel_size c3_stride c3_padding fst snd].
  split.
  - destruct (shape x) as [|n [|ch [|d [|h [|w [|? ?]]]]]]; try discriminate.
    intros H. destruct (ch =? ci) eqn:C; [|discriminate].
    apply Z.eqb_eq in C. subst ch.
    apply bind_Ok in H as (d' & Hd & H).
    apply bind_Ok in H as (h' & Hh & H).
    apply bind_Ok in H as (w' & Hw & H).
    injection H as <-.
    exists n, d, h, w, d', h', w'. auto 10.
  - intros (n & d & h & w & d' & h' & w' & -> & -> & -> & -> & ->).
    rewrite Z.eqb_refl. reflexivity.
Qed.

Lemma Conv2d_forward_Ok (c : Conv2d) (x y : Tensor) :
  Conv2d_forward c x = Ok y <->
  exists n h w h' w',
    shape x = [n; c2_in_channels c; h; w]
    /\ conv_out_size h (fst (c2_kernel_size c)) (fst (c2_stride c))
                     (fst (c2_padding c)) = Ok h'
    /\ conv_out_size w (snd (c2_kernel_size c)) (snd (c2_stride c))
                     (snd (c2_padding c)) = Ok w'
    /\ y = {| shape := [n; c2_out_channels c; h'; w'];
              term := EApp (LConv2d c) (term x) |}.
Proof.
  unfold Conv2d_forward.
  destruct c as [ci co [kh kw] [sh sw] [ph pw] b]; cbn [c2_in_channels
    c2_out_channels c2_kernel_size c2_stride c2_padding fst snd].
  split.
  - destruct (shape x) as [|n [|ch [|h [|w [|? ?]]]]]; try discriminate.
    intros H. destruct (ch =? ci) eqn:C; [|discriminate].
    apply Z.eqb_eq in C. subst ch.
    apply bind_Ok in H as (h' & Hh & H).
    apply bind_Ok in H as (w' & Hw & H).
    injection H as <-.
    exists n, h, w, h', w'. auto 10.
  - intros (n & h & w & h' & w' & -> & -> & -> & ->).
    rewrite Z.eqb_refl. reflexivity.
Qed.

Lemma BatchNorm3d_forward_Ok (training : bool) (b : BatchNorm3d) (x y : Tensor) :
  BatchNorm3d_forward training b x = Ok y <->
  exists n d h w,
    shape x = [n; bn3_num_features b; d; h; w]
    /\ training && (n * (d * (h * w)) =? 1) = false
    /\ y = {| shape := shape x; term := EApp (LBatchNorm3d b) (term x) |}.
Proof.
  unfold BatchNorm3d_forward. split.
  - destruct (shape x) as [|n [|ch [|d [|h [|w [|? ?]]]]]]; try discriminate.
    intros H.
    destruct (training && (n * (d * (h * w)) =? 1)) eqn:T; [discriminate|].
    inv_ok. apply Z.eqb_eq in C. subst ch y.
    exists n, d, h, w. auto.
  - intros (n & d & h & w & E & T & ->). rewrite E, T, Z.eqb_refl. reflexivity.
Qed.

Lemma BatchNorm2d_forward_Ok (training : bool) (b : BatchNorm2d) (x y : Tensor) :
  BatchNorm2d_forward training b x = Ok y <->
  exists n h w,
    shape x = [n; bn2_num_features b; h; w]
    /\ training && (n * (h * w) =? 1) = false
    /\ y = {| shape := shape x; term := EApp (LBatchNorm2d b) (term x) |}.
Proof.
  unfold BatchNorm2d_forward. split.
  - destruct (shape x) as [|n [|ch [|h [|w [|? ?]]]]]; try discriminate.
    intros H.
    destruct (training && (n * (h * w) =? 1)) eqn:T; [discriminate|].
    inv_ok. apply Z.eqb_eq in C. subst ch y.
    exists n, h, w. auto.
  - intros (n & h & w & E & T & ->). rewrite E, T, Z.eqb_refl. reflexivity.
Qed.

Lemma ConvTranspose2d_forward_Ok (c : ConvTranspose2d) (x y : Tensor) :
  ConvTranspose2d_forward c x = Ok y <->
  exists n h w,
    shape x = [n; ct_in_channels c; h; w]
    /\ y = {| shape := [n; ct_out_channels c;
                        conv_transpose_out_size h (fst (ct_kernel_size c))
                          (fst (ct_stride c)) (fst (ct_padding c));
                        conv_transpose_out_size w (snd (ct_kernel_size c))
                          (snd (ct_stride c)) (snd (ct_padding c))];
              term := EApp (LConvTranspose2d c) (term x) |}.
Proof.
  unfold ConvTranspose2d_forward.
  destruct c as [ci co [kh kw] [sh sw] [ph pw]]; cbn [ct_in_channels
    ct_out_channels ct_kernel_size ct_stride ct_padding fst snd].
  split.
  - destruct (shape x) as [|n [|ch [|h [|w [|? ?]]]]]; try discriminate.
    intros H. inv_ok. apply Z.eqb_eq in C. subst ch y.
    exists n, h, w. auto.
  - intros (n & h & w & -> & ->). rewrite Z.eqb_refl. reflexivity.
Qed.

(* ================================================================== *)
(** * Residual blocks *)
(* ================================================================== *)

Lemma ResBlock3D_padding_triple (stride : Z) :
  _triple (ResBlock3D_padding stride) = (depth_padding stride, 1, 1).
Proof. unfold ResBlock3D_padding, depth_padding. now destruct (stride =? 1). Qed.

Lemma ResBlock3D_init_Ok (i o s : Z) (p : float) (ds : option Sequential)
    (blk : ResBlock3D) :
  ResBlock3D_init i o s p ds = Ok blk <->
  valid_p p = true
  /\ blk = {| rb3_downsample :=
                if negb (s =? 1) || negb (i =? o)
                then Some [ LConv3d (mkConv3d i o (3, 3, 3) (s, s, s)
                                              (depth_padding s, 1, 1) false);
                            LBatchNorm3d (mkBatchNorm3d o) ]
                else ds;
              rb3_bn1 := mkBatchNorm3d i;
              rb3_conv1 := mkConv3d i o (3, 3, 3) (s, s, s) (depth_padding s, 1, 1) true;
              rb3_bn2 := mkBatchNorm3d o;
              rb3_conv2 := mkConv3d o o (3, 3, 3) (1, 1, 1) (1, 1, 1) true;
              rb3_relu := mkReLU true;
              rb3_dp := mkDropout3d p |}.
Proof.
  unfold ResBlock3D_init, Dropout3d_init, conv_333.
  rewrite ResBlock3D_padding_triple. cbn [_triple].
  destruct (valid_p p); cbn [bind]; split.
  - intros H; injection H as <-. auto.
  - intros (_ & ->). reflexivity.
  - discriminate.
  - intros (H & _); discriminate.
Qed.

Lemma ResBlock2D_init_Ok (i o s : Z) (p : float) (ds : option Sequential)
    (blk : ResBlock2D) :
  ResBlock2D_init i o s p ds = Ok blk <->
  valid_p p = true
  /\ blk = {| rb2_downsample :=
                if negb (s =? 1) || negb (i =? o)
                then Some [ LConv2d (mkConv2d i o (1, 1) (s, s) (0, 0) false);
                            LBatchNorm2d (mkBatchNorm2d o) ]
                else ds;
              rb2_bn1 := mkBatchNorm2d i;
              rb2_conv1 := mkConv2d i o (3, 3) (s, s) (1, 1) false;
              rb2_bn2 := mkBatchNorm2d o;
              rb2_conv2 := mkConv2d o o (3, 3) (1, 1) (1, 1) false;
              rb2_relu := mkReLU true;
              rb2_dp := mkDropout2d p |}.
Proof.
  unfold ResBlock2D_init, Dropout2d_init, conv_33, _pair.
  destruct (valid_p p); cbn [bind]; split.
  - intros H; injection H as <-. auto.
  - intros (_ & ->). reflexivity.
  - discriminate.
  - intros (H & _); discriminate.
Qed.

(** Projections of explicit layer configurations and tensors. *)
Ltac simpl_cfg :=
  cbn [fst snd shape term
       c3_in_channels c3_out_channels c3_kernel_size c3_stride c3_padding
       c2_in_channels c2_out_channels c2_kernel_size c2_stride c2_padding
       ct_in_channels ct_out_channels ct_kernel_size ct_stride ct_padding
       bn3_num_features bn2_num_features] in *.

(** When the residual branch of a 3D block returns, and what. *)
Lemma ResBlock3D_main_Ok (training : bool) (i o s : Z) (p : float)
    (ds : option Sequential) (blk : ResBlock3D) (x m : Tensor) :
  ResBlock3D_init i o s p ds = Ok blk ->
  ResBlock3D_main training blk x = Ok m <->
  exists n d h w d1 h1 w1,
    shape x = [n; i; d; h; w]
    /\ training && (n * (d * (h * w)) =? 1) = false
    /\ conv_out_size d 3 s (depth_padding s) = Ok d1
    /\ conv_out_size h 3 s 1 = Ok h1
    /\ conv_out_size w 3 s 1 = Ok w1
    /\ training && (n * (d1 * (h1 * w1)) =? 1) = false
    /\ m = {| shape := [n; o; d1; h1; w1];
              term := apply_layers (ResBlock3D_layers blk) (term x) |}.
Proof.
  intros Hinit. apply ResBlock3D_init_Ok in Hinit as (Hp & ->).
  unfold ResBlock3D_main, ReLU_forward, Dropout3d_forward.
  cbn [rb3_bn1 rb3_conv1 rb3_bn2 rb3_conv2 rb3_relu rb3_dp].
  split.
  - intros H.
    apply bind_Ok in H as (t1 & H1 & H). cbn [bind] in H.
    apply bind_Ok in H as (t3 & H3 & H).
    apply bind_Ok in H as (t4 & H4 & H). cbn [bind] in H.
    apply bind_Ok in H as (t6 & H6 & H).
    apply BatchNorm3d_forward_Ok in H1 as (n & d & h & w & Ex & T1 & ->).
    apply Conv3d_forward_Ok in H3
      as (n' & d' & h' & w' & d1 & h1 & w1 & E3 & Hd & Hh & Hw & ->).
    simpl_cfg. rewrite Ex in E3. injection E3 as <- <- <- <-.
    apply BatchNorm3d_forward_Ok in H4 as (n4 & d4 & h4 & w4 & E4 & T4 & ->).
    simpl_cfg. injection E4 as <- <- <- <-.
    apply Conv3d_forward_Ok in H6
      as (n6 & d6 & h6 & w6 & d2 & h2 & w2 & E6 & Hd2 & Hh2 & Hw2 & ->).
    simpl_cfg. injection E6 as <- <- <- <-.
    rewrite conv_out_size_same in Hd2, Hh2, Hw2
      by eauto using conv_out_size_pos.
    injection Hd2 as <-. injection Hh2 as <-. injection Hw2 as <-.
    injection H as <-.
    exists n, d, h, w, d1, h1, w1. auto 10.
  - intros (n & d & h & w & d1 & h1 & w1 & Ex & T1 & Hd & Hh & Hw & T2 & ->).
    rewrite (proj2 (BatchNorm3d_forward_Ok training (mkBatchNorm3d i) x _))
      by (exists n, d, h, w; eauto).
    cbn [bind].
    erewrite (proj2 (Conv3d_forward_Ok _ _ _)); cycle 1.
    { exists n, d, h, w, d1, h1, w1. simpl_cfg. rewrite Ex. eauto 10. }
    cbn [bind].
    erewrite (proj2 (BatchNorm3d_forward_Ok training (mkBatchNorm3d o) _ _)); cycle 1.
    { exists n, d1, h1, w1. simpl_cfg. eauto. }
    cbn [bind].
    erewrite (proj2 (Conv3d_forward_Ok _ _ _)); cycle 1.
    { exists n, d1, h1, w1, d1, h1, w1. simpl_cfg.
      rewrite !conv_out_size_same by eauto using conv_out_size_pos. eauto 10. }
    reflexivity.
Qed.

Lemma conv_out_size_same_inv (i j : Z) : conv_out_size i 3 1 1 = Ok j -> j = i.
Proof.
  intros H. assert (1 <= i) by (apply conv_out_size_Ok in H; lia).
  rewrite conv_out_size_same in H by assumption. now injection H.
Qed.

(** On an input on which the first convolution and the second normalisation
    of a 3D block go through, the shortcut goes through as well, and its
    result has the shape of the residual branch. *)
Lemma ResBlock3D_shortcut_Ok (training : bool) (i o s : Z) (p : float)
    (blk : ResBlock3D) (x : Tensor) (n d h w d1 h1 w1 : Z) :
  ResBlock3D_init i o s p None = Ok blk ->
  shape x = [n; i; d; h; w] ->
  conv_out_size d 3 s (depth_padding s) = Ok d1 ->
  conv_out_size h 3 s 1 = Ok h1 ->
  conv_out_size w 3 s 1 = Ok w1 ->
  training && (n * (d1 * (h1 * w1)) =? 1) = false ->
  ResBlock3D_shortcut training blk x
  = Ok {| shape := [n; o; d1; h1; w1];
          term := shortcut_term (rb3_downsample blk) (term x) |}.
Proof.
  intros Hinit Ex Hd Hh Hw T. apply ResBlock3D_init_Ok in Hinit as (Hp & ->).
  unfold ResBlock3D_shortcut. cbn [rb3_downsample].
  destruct (negb (s =? 1) || negb (i =? o)) eqn:C.
  - unfold Sequential_forward. cbn [for_each layer_forward].
    erewrite (proj2 (Conv3d_forward_Ok _ _ _)); cycle 1.
    { exists n, d, h, w, d1, h1, w1. simpl_cfg. eauto 10. }
    cbn [bind].
    erewrite (proj2 (BatchNorm3d_forward_Ok training _ _ _)); cycle 1.
    { exists n, d1, h1, w1. simpl_cfg. eauto. }
    reflexivity.
  - apply orb_false_elim in C as (Cs & Ci).
    apply negb_false_iff, Z.eqb_eq in Cs, Ci. subst s o.
    unfold depth_padding in Hd. cbn in Hd.
    apply conv_out_size_same_inv in Hd, Hh, Hw. subst d1 h1 w1.
    cbn [shortcut_term]. rewrite <- Ex. now destruct x.
Qed.

(** When a 3D block returns, and what. *)
Lemma ResBlock3D_forward_Ok (training : bool) (i o s : Z) (p : float)
    (blk : ResBlock3D) (x y : Tensor) :
  ResBlock3D_init i o s p None = Ok blk ->
  ResBlock3D_forward training blk x = Ok y <->
  exists n d h w d1 h1 w1,
    shape x = [n; i; d; h; w]
    /\ training && (n * (d * (h * w)) =? 1) = false
    /\ conv_out_size d 3 s (depth_padding s) = Ok d1
    /\ conv_out_size h 3 s 1 = Ok h1
    /\ conv_out_size w 3 s 1 = Ok w1
    /\ training && (n * (d1 * (h1 * w1)) =? 1) = false
    /\ y = {| shape := [n; o; d1; h1; w1];
              term := EAdd (apply_layers (ResBlock3D_layers blk) (term x))
                           (shortcut_term (rb3_downsample blk) (term x)) |}.
Proof.
  intros Hinit. unfold ResBlock3D_forward. split.
  - intros H. apply bind_Ok in H as (m & Hm & H).
    apply (ResBlock3D_main_Ok training _ _ _ _ _ _ x m Hinit) in Hm
      as (n & d & h & w & d1 & h1 & w1 & Ex & T1 & Hd & Hh & Hw & T2 & ->).
    rewrite (ResBlock3D_shortcut_Ok _ _ _ _ _ _ _ _ _ _ _ _ _ _ Hinit Ex Hd Hh Hw T2) in H.
    cbn [bind] in H. rewrite iadd_same_shape in H by reflexivity.
    injection H as <-. exists n, d, h, w, d1, h1, w1. auto 10.
  - intros (n & d & h & w & d1 & h1 & w1 & Ex & T1 & Hd & Hh & Hw & T2 & ->).
    rewrite (proj2 (ResBlock3D_main_Ok training _ _ _ _ _ _ x _ Hinit))
      by (exists n, d, h, w, d1, h1, w1; eauto 10).
    cbn [bind].
    rewrite (ResBlock3D_shortcut_Ok _ _ _ _ _ _ _ _ _ _ _ _ _ _ Hinit Ex Hd Hh Hw T2).
    cbn [bind]. now rewrite iadd_same_shape.
Qed.

(** A 1x1 convolution without padding and a 3x3 convolution with padding 1
    produce the same length at equal stride. *)
Lemma conv_out_size_1_0_3_1 (i s : Z) : conv_out_size i 1 s 0 = conv_out_size i 3 s 1.
Proof.
  unfold conv_out_size.
  replace (i + 2 * 0 - 1) with (i + 2 * 1 - 3) by lia.
  replace (i + 2 * 0 <? 1) with (i + 2 * 1 <? 3); [reflexivity|].
  destruct (i + 2 * 1 <? 3) eqn:E; symmetry;
    [apply Z.ltb_lt in E; apply Z.ltb_lt | apply Z.ltb_ge in E; apply Z.ltb_ge]; lia.
Qed.

(** When the residual branch of a 2D block returns, and what. *)
Lemma ResBlock2D_main_Ok (training : bool) (i o s : Z) (p : float)
    (ds : option Sequential) (blk : ResBlock2D) (x m : Tensor) :
  ResBlock2D_init i o s p ds = Ok blk ->
  ResBlock2D_main training blk x = Ok m <->
  exists n h w h1 w1,
    shape x = [n; i; h; w]
    /\ training && (n * (h * w) =? 1) = false
    /\ conv_out_size h 3 s 1 = Ok h1
    /\ conv_out_size w 3 s 1 = Ok w1
    /\ training && (n * (h1 * w1) =? 1) = false
    /\ m = {| shape := [n; o; h1; w1];
              term := apply_layers (ResBlock2D_layers blk) (term x) |}.
Proof.
  intros Hinit. apply ResBlock2D_init_Ok in Hinit as (Hp & ->).
  unfold ResBlock2D_main, ReLU_forward, Dropout2d_forward.
  cbn [rb2_bn1 rb2_conv1 rb2_bn2 rb2_conv2 rb2_relu rb2_dp].
  split.
  - intros H.
    apply bind_Ok in H as (t1 & H1 & H). cbn [bind] in H.
    apply bind_Ok in H as (t3 & H3 & H). cbn [bind] in H.
    apply bind_Ok in H as (t5 & H5 & H). cbn [bind] in H.
    apply bind_Ok in H as (t7 & H7 & H).
    apply BatchNorm2d_forward_Ok in H1 as (n & h & w & Ex & T1 & ->).
    apply Conv2d_forward_Ok in H3 as (n' & h' & w' & h1 & w1 & E3 & Hh & Hw & ->).
    simpl_cfg. rewrite Ex in E3. injection E3 as <- <- <-.
    apply BatchNorm2d_forward_Ok in H5 as (n5 & h5 & w5 & E5 & T5 & ->).
    simpl_cfg. injection E5 as <- <- <-.
    apply Conv2d_forward_Ok in H7 as (n7 & h7 & w7 & h2 & w2 & E7 & Hh2 & Hw2 & ->).
    simpl_cfg. injection E7 as <- <- <-.
    apply conv_out_size_same_inv in Hh2, Hw2. subst h2 w2.
    injection H as <-.
    exists n, h, w, h1, w1. auto 10.
  - intros (n & h & w & h1 & w1 & Ex & T1 & Hh & Hw & T2 & ->).
    rewrite (proj2 (BatchNorm2d_forward_Ok training (mkBatchNorm2d i) x _))
      by (exists n, h, w; eauto).
    cbn [bind].
    erewrite (proj2 (Conv2d_forward_Ok _ _ _)); cycle 1.
    { exists n, h, w, h1, w1. simpl_cfg. rewrite Ex. eauto 10. }
    cbn [bind].
    erewrite (proj2 (BatchNorm2d_forward_Ok training (mkBatchNorm2d o) _ _)); cycle 1.
    { exists n, h1, w1. simpl_cfg. eauto. }
    cbn [bind].
    erewrite (proj2 (Conv2d_forward_Ok _ _ _)); cycle 1.
    { exists n, h1, w1, h1, w1. simpl_cfg.
      rewrite !conv_out_size_same by eauto using conv_out_size_pos. eauto 10. }
    reflexivity.
Qed.

Lemma ResBlock2D_shortcut_Ok (training : bool) (i o s : Z) (p : float)
    (blk : ResBlock2D) (x : Tensor) (n h w h1 w1 : Z) :
  ResBlock2D_init i o s p None = Ok blk ->
  shape x = [n; i; h; w] ->
  conv_out_size h 3 s 1 = Ok h1 ->
  conv_out_size w 3 s 1 = Ok w1 ->
  training && (n * (h1 * w1) =? 1) = false ->
  ResBlock2D_shortcut training blk x
  = Ok {| shape := [n; o; h1; w1];
          term := shortcut_term (rb2_downsample blk) (term x) |}.
Proof.
  intros Hinit Ex Hh Hw T. apply ResBlock2D_init_Ok in Hinit as (Hp & ->).
  unfold ResBlock2D_shortcut. cbn [rb2_downsample].
  destruct (negb (s =? 1) || negb (i =? o)) eqn:C.
  - unfold Sequential_forward. cbn [for_each layer_forward].
    erewrite (proj2 (Conv2d_forward_Ok _ _ _)); cycle 1.
    { exists n, h, w, h1, w1. simpl_cfg.
      rewrite !conv_out_size_1_0_3_1. eauto 10. }
    cbn [bind].
    erewrite (proj2 (BatchNorm2d_forward_Ok training _ _ _)); cycle 1.
    { exists n, h1, w1. simpl_cfg. eauto. }
    reflexivity.
  - apply orb_false_elim in C as (Cs & Ci).
    apply negb_false_iff, Z.eqb_eq in Cs, Ci. subst s o.
    apply conv_out_size_same_inv in Hh, Hw. subst h1 w1.
    cbn [shortcut_term]. rewrite <- Ex. now destruct x.
Qed.

(** When a 2D block returns, and what. *)
Lemma ResBlock2D_forward_Ok (training : bool) (i o s : Z) (p : float)
    (blk : ResBlock2D) (x y : Tensor) :
  ResBlock2D_init i o s p None = Ok blk ->
  ResBlock2D_forward training blk x = Ok y <->
  exists n h w h1 w1,
    shape x = [n; i; h; w]
    /\ training && (n * (h * w) =? 1) = false
    /\ conv_out_size h 3 s 1 = Ok h1
    /\ conv_out_size w 3 s 1 = Ok w1
    /\ training && (n * (h1 * w1) =? 1) = false
    /\ y = {| shape := [n; o; h1; w1];
              term := EAdd (apply_layers (ResBlock2D_layers blk) (term x))
                           (shortcut_term (rb2_downsample blk) (term x)) |}.
Proof.
  intros Hinit. unfold ResBlock2D_forward. split.
  - intros H. apply bind_Ok in H as (m & Hm & H).
    apply (ResBlock2D_main_Ok training _ _ _ _ _ _ x m Hinit) in Hm
      as (n & h & w & h1 & w1 & Ex & T1 & Hh & Hw & T2 & ->).
    rewrite (ResBlock2D_shortcut_Ok _ _ _ _ _ _ _ _ _ _ _ _ Hinit Ex Hh Hw T2) in H.
    cbn [bind] in H. rewrite iadd_same_shape in H by reflexivity.
    injection H as <-. exists n, h, w, h1, w1. auto 10.
  - intros (n & h & w & h1 & w1 & Ex & T1 & Hh & Hw & T2 & ->).
    rewrite (proj2 (ResBlock2D_main_Ok training _ _ _ _ _ _ x _ Hinit))
      by (exists n, h, w, h1, w1; eauto 10).
    cbn [bind].
    rewrite (ResBlock2D_shortcut_Ok _ _ _ _ _ _ _ _ _ _ _ _ Hinit Ex Hh Hw T2).
    cbn [bind]. now rewrite iadd_same_shape.
Qed.

Lemma shortcut_is_identity_iff (s i o : Z) :
  negb (s =? 1) || negb (i =? o) = false <-> s = 1 /\ i = o.
Proof.
  rewrite orb_false_iff, !negb_false_iff, !Z.eqb_eq. reflexivity.
Qed.

(** Whatever is passed as [downsample], the constructor replaces it when
    the stride is not 1 or the channel counts differ. *)
Lemma ResBlock3D_init_replaces_downsample (i o s : Z) (p : float)
    (ds : option Sequential) :
  ~ (s = 1 /\ i = o) -> ResBlock3D_init i o s p ds = ResBlock3D_init i o s p None.
Proof.
  intros N. rewrite <- shortcut_is_identity_iff in N. unfold ResBlock3D_init.
  destruct (negb (s =? 1) || negb (i =? o)); [reflexivity | now contradiction N].
Qed.

Lemma ResBlock2D_init_replaces_downsample (i o s : Z) (p : float)
    (ds : option Sequential) :
  ~ (s = 1 /\ i = o) -> ResBlock2D_init i o s p ds = ResBlock2D_init i o s p None.
Proof.
  intros N. rewrite <- shortcut_is_identity_iff in N. unfold ResBlock2D_init.
  destruct (negb (s =? 1) || negb (i =? o)); [reflexivity | now contradiction N].
Qed.

(** A block built with [downsample], when no module is passed at stride 1
    with equal channel counts, is the block built without the argument. *)
Lemma ResBlock3D_init_without_downsample (i o s : Z) (p : float)
    (ds : option Sequential) (blk : ResBlock3D) :
  ResBlock3D_init i o s p ds = Ok blk ->
  (s = 1 /\ i = o -> ds = None) ->
  ResBlock3D_init i o s p None = Ok blk.
Proof.
  intros H K. destruct (Z.eq_dec s 1) as [Es|Es]; [destruct (Z.eq_dec i o) as [Eio|Eio]|].
  - now rewrite (K (conj Es Eio)) in H.
  - rewrite <- (ResBlock3D_init_replaces_downsample i o s p ds); [exact H | tauto].
  - rewrite <- (ResBlock3D_init_replaces_downsample i o s p ds); [exact H | tauto].
Qed.

Lemma ResBlock2D_init_without_downsample (i o s : Z) (p : float)
    (ds : option Sequential) (blk : ResBlock2D) :
  ResBlock2D_init i o s p ds = Ok blk ->
  (s = 1 /\ i = o -> ds = None) ->
  ResBlock2D_init i o s p None = Ok blk.
Proof.
  intros H K. destruct (Z.eq_dec s 1) as [Es|Es]; [destruct (Z.eq_dec i o) as [Eio|Eio]|].
  - now rewrite (K (conj Es Eio)) in H.
  - rewrite <- (ResBlock2D_init_replaces_downsample i o s p ds); [exact H | tauto].
  - rewrite <- (ResBlock2D_init_replaces_downsample i o s p ds); [exact H | tauto].
Qed.

(** C6.  Take a residual block whose constructor is not handed a
    [downsample] module at stride 1 with equal channel counts: a block built
    from (in_channels, out_channels, stride, p), as every block of the
    network is, or one built with a module that the constructor replaces
    because the stride is not 1 or the channel counts differ.  It has no
    [downsample] module exactly when
    [stride == 1 and in_channels == out_channels], and then the shortcut is
    the input itself; otherwise [downsample] is a convolution with the stride
    of the first convolution followed by a normalisation.  In both cases,
    whenever the residual branch returns a tensor, the shortcut returns a
    tensor of the same shape and the addition goes through; [forward] raises
    only what the residual branch raises.  This holds for the 3D and for the
    2D block. *)
Theorem shortcut_matches_residual_branch (training : bool) (i o s : Z) (p : float)
    (ds3 ds2 : option Sequential)
    (blk3 : ResBlock3D) (blk2 : ResBlock2D) (x3 x2 : Tensor) :
  ResBlock3D_init i o s p ds3 = Ok blk3 ->
  ResBlock2D_init i o s p ds2 = Ok blk2 ->
  (s = 1 /\ i = o -> ds3 = None) ->
  (s = 1 /\ i = o -> ds2 = None) ->
  ((rb3_downsample blk3 = None <-> s = 1 /\ i = o)
   /\ (rb3_downsample blk3 = None -> ResBlock3D_shortcut training blk3 x3 = Ok x3)
   /\ (~ (s = 1 /\ i = o) ->
       rb3_downsample blk3
       = Some [ LConv3d (mkConv3d i o (3, 3, 3) (s, s, s) (depth_padding s, 1, 1) false);
                LBatchNorm3d (mkBatchNorm3d o) ]
       /\ c3_stride (rb3_conv1 blk3) = (s, s, s))
   /\ match ResBlock3D_main training blk3 x3 with
      | Ok m =>
          exists r, ResBlock3D_shortcut training blk3 x3 = Ok r
                    /\ shape r = shape m
                    /\ ResBlock3D_forward training blk3 x3
                       = Ok {| shape := shape m; term := EAdd (term m) (term r) |}
      | Err e => ResBlock3D_forward training blk3 x3 = Err e
      end)
  /\
  ((rb2_downsample blk2 = None <-> s = 1 /\ i = o)
   /\ (rb2_downsample blk2 = None -> ResBlock2D_shortcut training blk2 x2 = Ok x2)
   /\ (~ (s = 1 /\ i = o) ->
       rb2_downsample blk2
       = Some [ LConv2d (mkConv2d i o (1, 1) (s, s) (0, 0) false);
                LBatchNorm2d (mkBatchNorm2d o) ]
       /\ c2_stride (rb2_conv1 blk2) = (s, s))
   /\ match ResBlock2D_main training blk2 x2 with
      | Ok m =>
          exists r, ResBlock2D_shortcut training blk2 x2 = Ok r
                    /\ shape r = shape m
                    /\ ResBlock2D_forward training blk2 x2
                       = Ok {| shape := shape m; term := EAdd (term m) (term r) |}
      | Err e => ResBlock2D_forward training blk2 x2 = Err e
      end).
Proof.
  intros H3 H2 K3 K2.
  apply ResBlock3D_init_without_downsample in H3; [|exact K3].
  apply ResBlock2D_init_without_downsample in H2; [|exact K2].
  split.
  - assert (Hds : rb3_downsample blk3
                  = if negb (s =? 1) || negb (i =? o)
                    then Some [ LConv3d (mkConv3d i o (3, 3, 3) (s, s, s)
                                                  (depth_padding s, 1, 1) false);
                                LBatchNorm3d (mkBatchNorm3d o) ]
                    else None)
      by (apply ResBlock3D_init_Ok in H3 as (_ & ->); reflexivity).
    split; [|split; [|split]].
    + rewrite Hds, <- shortcut_is_identity_iff.
      destruct (negb (s =? 1) || negb (i =? o)); split; congruence.
    + unfold ResBlock3D_shortcut. now intros ->.
    + intros N. rewrite <- shortcut_is_identity_iff in N. rewrite Hds.
      destruct (negb (s =? 1) || negb (i =? o)); [|congruence].
      split; [reflexivity|].
      apply ResBlock3D_init_Ok in H3 as (_ & ->). reflexivity.
    + destruct (ResBlock3D_main training blk3 x3) as [m|e] eqn:Hm.
      * pose proof Hm as Hm'.
        apply (ResBlock3D_main_Ok training _ _ _ _ _ _ x3 m H3) in Hm'
          as (n & d & h & w & d1 & h1 & w1 & Ex & T1 & Hd & Hh & Hw & T2 & ->).
        pose proof (ResBlock3D_shortcut_Ok _ _ _ _ _ _ _ _ _ _ _ _ _ _
                      H3 Ex Hd Hh Hw T2) as Hr.
        eexists. split; [exact Hr|]. split; [reflexivity|].
        unfold ResBlock3D_forward. rewrite Hm. cbn [bind]. rewrite Hr.
        cbn [bind]. now rewrite iadd_same_shape.
      * unfold ResBlock3D_forward. now rewrite Hm.
  - assert (Hds : rb2_downsample blk2
                  = if negb (s =? 1) || negb (i =? o)
                    then Some [ LConv2d (mkConv2d i o (1, 1) (s, s) (0, 0) false);
                                LBatchNorm2d (mkBatchNorm2d o) ]
                    else None)
      by (apply ResBlock2D_init_Ok in H2 as (_ & ->); reflexivity).
    split; [|split; [|split]].
    + rewrite Hds, <- shortcut_is_identity_iff.
      destruct (negb (s =? 1) || negb (i =? o)); split; congruence.
    + unfold ResBlock2D_shortcut. now intros ->.
    + intros N. rewrite <- shortcut_is_identity_iff in N. rewrite Hds.
      destruct (negb (s =? 1) || negb (i =? o)); [|congruence].
      split; [reflexivity|].
      apply ResBlock2D_init_Ok in H2 as (_ & ->). reflexivity.
    + destruct (ResBlock2D_main training blk2 x2) as [m|e] eqn:Hm.
      * pose proof Hm as Hm'.
        apply (ResBlock2D_main_Ok training _ _ _ _ _ _ x2 m H2) in Hm'
          as (n & h & w & h1 & w1 & Ex & T1 & Hh & Hw & T2 & ->).
        pose proof (ResBlock2D_shortcut_Ok _ _ _ _ _ _ _ _ _ _ _ _
                      H2 Ex Hh Hw T2) as Hr.
        eexists. split; [exact Hr|]. split; [reflexivity|].
        unfold ResBlock2D_forward. rewrite Hm. cbn [bind]. rewrite Hr.
        cbn [bind]. now rewrite iadd_same_shape.
      * unfold ResBlock2D_forward. now rewrite Hm.
Qed.

Lemma shortcut_matches_residual_branch_witness :
  exists blk3 blk2,
    ResBlock3D_init 32 64 2 0%float (Some supplied_downsample3) = Ok blk3
    /\ ResBlock2D_init 32 64 2 0%float None = Ok blk2
    /\ (exists m r, ResBlock3D_main true blk3 x3_example = Ok m
                    /\ ResBlock3D_shortcut true blk3 x3_example = Ok r
                    /\ shape r = shape m)
    /\ (exists m r, ResBlock2D_main true blk2 x2_example = Ok m
                    /\ ResBlock2D_shortcut true blk2 x2_example = Ok r
                    /\ shape r = shape m).
Proof.
  eexists. eexists. split; [reflexivity|]. split; [reflexivity|].
  destruct (shortcut_matches_residual_branch true 32 64 2 0%float
              (Some supplied_downsample3) None _ _
              x3_example x2_example eq_refl eq_refl)
    as ((_ & _ & _ & H3) & (_ & _ & _ & H2)).
  - intros [E _]. discriminate E.
  - intros _. reflexivity.
  - split.
    + destruct (ResBlock3D_main _ _ _) as [m|e] eqn:Hm in H3; [|discriminate Hm].
      destruct H3 as (r & Hr & Hs & _). exists m, r. auto.
    + destruct (ResBlock2D_main _ _ _) as [m|e] eqn:Hm in H2; [|discriminate Hm].
      destruct H2 as (r & Hr & Hs & _). exists m, r. auto.
Defined.

(** Counterexample to C6 as stated: a block of stride 1 with equal channel
    counts keeps the module it is handed as [downsample], so its shortcut is
    not the identity; with a projection of stride 2 the shortcut is half the
    size of the residual branch and the addition raises.  The same in 3D and
    in 2D. *)
Lemma kept_downsample_breaks_addition :
  exists blk3 blk2,
    ResBlock3D_init 32 32 1 0%float (Some supplied_downsample3) = Ok blk3
    /\ ResBlock2D_init 32 32 1 0%float (Some supplied_downsample2) = Ok blk2
    /\ (rb3_downsample blk3 = Some supplied_downsample3
        /\ shape_of (ResBlock3D_main true blk3 x3_example) = Ok [2; 32; 15; 8; 8]
        /\ shape_of (ResBlock3D_shortcut true blk3 x3_example) = Ok [2; 32; 7; 4; 4]
        /\ ResBlock3D_forward true blk3 x3_example = Err SizeMismatch
        /\ ResBlock3D_forward false blk3 x3_example = Err SizeMismatch)
    /\ (rb2_downsample blk2 = Some supplied_downsample2
        /\ shape_of (ResBlock2D_main true blk2 x2_example) = Ok [2; 32; 8; 8]
        /\ shape_of (ResBlock2D_shortcut true blk2 x2_example) = Ok [2; 32; 4; 4]
        /\ ResBlock2D_forward true blk2 x2_example = Err SizeMismatch
        /\ ResBlock2D_forward false blk2 x2_example = Err SizeMismatch).
Proof.
  eexists. eexists. split; [reflexivity|]. split; [reflexivity|].
  split; repeat split; vm_compute; reflexivity.
Qed.

(** C8.  The tensor a residual block returns is the sum of the shortcut and
    of the input taken through, in this order: normalisation, activation,
    first convolution (which carries the stride), in the 2D block a
    dropout, normalisation, activation, second convolution (stride 1),
    dropout.  On a network input the 3D block thus applies one dropout and
    the 2D block two. *)
Theorem residual_block_order (training : bool) (i o s : Z) (p : float)
    (blk3 : ResBlock3D) (blk2 : ResBlock2D) :
  ResBlock3D_init i o s p None = Ok blk3 ->
  ResBlock2D_init i o s p None = Ok blk2 ->
  (forall x y, ResBlock3D_forward training blk3 x = Ok y ->
     term y
     = EAdd (apply_layers
               [ LBatchNorm3d (mkBatchNorm3d i);
                 LReLU (mkReLU true);
                 LConv3d (mkConv3d i o (3, 3, 3) (s, s, s) (depth_padding s, 1, 1) true);
                 LBatchNorm3d (mkBatchNorm3d o);
                 LReLU (mkReLU true);
                 LConv3d (mkConv3d o o (3, 3, 3) (1, 1, 1) (1, 1, 1) true);
                 LDropout3d (mkDropout3d p) ]
               (term x))
            (shortcut_term (rb3_downsample blk3) (term x))
     /\ (forall k, term x = EInput k -> dropout_count (term y) = 1%nat))
  /\
  (forall x y, ResBlock2D_forward training blk2 x = Ok y ->
     term y
     = EAdd (apply_layers
               [ LBatchNorm2d (mkBatchNorm2d i);
                 LReLU (mkReLU true);
                 LConv2d (mkConv2d i o (3, 3) (s, s) (1, 1) false);
                 LDropout2d (mkDropout2d p);
                 LBatchNorm2d (mkBatchNorm2d o);
                 LReLU (mkReLU true);
                 LConv2d (mkConv2d o o (3, 3) (1, 1) (1, 1) false);
                 LDropout2d (mkDropout2d p) ]
               (term x))
            (shortcut_term (rb2_downsample blk2) (term x))
     /\ (forall k, term x = EInput k -> dropout_count (term y) = 2%nat)).
Proof.
  intros H3 H2. split.
  - intros x y Hy.
    apply (ResBlock3D_forward_Ok training _ _ _ _ _ x y H3) in Hy
      as (n & d & h & w & d1 & h1 & w1 & _ & _ & _ & _ & _ & _ & ->).
    apply ResBlock3D_init_Ok in H3 as (_ & ->).
    split; [reflexivity|].
    intros k Hk. cbn [term rb3_downsample]. rewrite Hk.
    destruct (negb (s =? 1) || negb (i =? o)); reflexivity.
  - intros x y Hy.
    apply (ResBlock2D_forward_Ok training _ _ _ _ _ x y H2) in Hy
      as (n & h & w & h1 & w1 & _ & _ & _ & _ & _ & ->).
    apply ResBlock2D_init_Ok in H2 as (_ & ->).
    split; [reflexivity|].
    intros k Hk. cbn [term rb2_downsample]. rewrite Hk.
    destruct (negb (s =? 1) || negb (i =? o)); reflexivity.
Qed.

Lemma residual_block_order_witness :
  exists blk3 blk2 y3 y2,
    ResBlock3D_init 32 64 2 0%float None = Ok blk3
    /\ ResBlock2D_init 32 64 2 0%float None = Ok blk2
    /\ ResBlock3D_forward true blk3 x3_example = Ok y3
    /\ ResBlock2D_forward true blk2 x2_example = Ok y2
    /\ dropout_count (term y3) = 1%nat
    /\ dropout_count (term y2) = 2%nat.
Proof.
  eexists. eexists. eexists. eexists.
  split; [reflexivity|]. split; [reflexivity|].
  split; [reflexivity|]. split; [reflexivity|].
  destruct (residual_block_order true 32 64 2 0%float _ _ eq_refl eq_refl)
    as (H3 & H2).
  split.
  - exact (proj2 (H3 x3_example _ eq_refl) 0%nat eq_refl).
  - exact (proj2 (H2 x2_example _ eq_refl) 0%nat eq_refl).
Defined.

(* ================================================================== *)
(** * Up-convolution and skip fusion *)
(* ================================================================== *)

Lemma select2_Ok (t y : Tensor) (i : Z) :
  select2 t i = Ok y <->
  exists n c d rest,
    shape t = n :: c :: d :: rest
    /\ - d <= i < d
    /\ y = {| shape := n :: c :: rest; term := ESelect2 i (term t) |}.
Proof.
  unfold select2. split.
  - destruct (shape t) as [|n [|c [|d rest]]]; try discriminate.
    destruct ((- d <=? i) && (i <? d)) eqn:C; [|discriminate].
    apply andb_prop in C as (C1 & C2). apply Z.leb_le in C1. apply Z.ltb_lt in C2.
    intros H; injection H as <-. exists n, c, d, rest. auto.
  - intros (n & c & d & rest & -> & (C1 & C2) & ->).
    apply Z.leb_le in C1. apply Z.ltb_lt in C2. now rewrite C1, C2.
Qed.

Lemma cat1_Ok (a b y : Tensor) :
  cat1 a b = Ok y <->
  exists n ca cb rest,
    shape a = n :: ca :: rest
    /\ shape b = n :: cb :: rest
    /\ y = {| shape := n :: (ca + cb) :: rest; term := ECat1 (term a) (term b) |}.
Proof.
  unfold cat1. split.
  - destruct (shape a) as [|n [|ca ra]]; try discriminate;
      destruct (shape b) as [|m [|cb rb]]; try discriminate.
    destruct ((n =? m) && shape_eqb ra rb) eqn:C; [|discriminate].
    apply andb_prop in C as (C1 & C2).
    apply Z.eqb_eq in C1. apply shape_eqb_eq in C2. subst m rb.
    intros H; injection H as <-. exists n, ca, cb, ra. auto.
  - intros (n & ca & cb & rest & -> & -> & ->).
    now rewrite Z.eqb_refl, shape_eqb_refl.
Qed.

(** When the fusion returns, and what. *)
Lemma UpConv_forward_Ok (self : UpConv) (skip x y : Tensor) :
  UpConv_forward self skip x = Ok y <->
  exists n cs d h w,
    shape skip
    = [n; cs; d;
       conv_transpose_out_size h (fst (ct_kernel_size (transconv self)))
         (fst (ct_stride (transconv self))) (fst (ct_padding (transconv self)));
       conv_transpose_out_size w (snd (ct_kernel_size (transconv self)))
         (snd (ct_stride (transconv self))) (snd (ct_padding (transconv self)))]
    /\ 0 < d
    /\ shape x = [n; ct_in_channels (transconv self); h; w]
    /\ y = {| shape := [n; cs + ct_out_channels (transconv self);
                        conv_transpose_out_size h (fst (ct_kernel_size (transconv self)))
                          (fst (ct_stride (transconv self)))
                          (fst (ct_padding (transconv self)));
                        conv_transpose_out_size w (snd (ct_kernel_size (transconv self)))
                          (snd (ct_stride (transconv self)))
                          (snd (ct_padding (transconv self)))];
              term := ECat1 (ESelect2 (d / 2) (term skip))
                            (EApp (LConvTranspose2d (transconv self)) (term x)) |}.
Proof.
  unfold UpConv_forward, size. split.
  - intros H. apply bind_Ok in H as (d & Hd & H).
    apply bind_Ok in H as (sl & Hsl & H).
    apply bind_Ok in H as (u & Hu & H).
    apply select2_Ok in Hsl as (n & cs & d' & rest & Es & Hi & ->).
    rewrite Es in Hd. cbn in Hd. injection Hd as ->.
    apply ConvTranspose2d_forward_Ok in Hu as (n' & h & w & Ex & ->).
    apply cat1_Ok in H as (n'' & ca & cb & rest' & Ea & Eb & ->).
    simpl_cfg. injection Ea as <- <- <-. injection Eb as <- <- <-.
    exists n', cs, d, h, w. repeat split; auto. lia.
  - intros (n & cs & d & h & w & Es & Hd & Ex & ->).
    rewrite Es. cbn [nth_error bind].
    erewrite (proj2 (select2_Ok skip _ (d / 2))); cycle 1.
    { exists n, cs, d. eexists. rewrite Es.
      split; [reflexivity|]. split; [lia|reflexivity]. }
    cbn [bind].
    rewrite (proj2 (ConvTranspose2d_forward_Ok (transconv self) x _))
      by (exists n, h, w; auto).
    cbn [bind]. apply cat1_Ok. eexists _, _, _, _. simpl_cfg. eauto.
Qed.

(** C7.  The fusion built by [UpConv(in_channels, out_channels)] holds a
    transposed convolution of kernel size 2 and stride 2.  Given a skip
    volume (n, cs, d, 2h, 2w) and a 2D input (n, in_channels, h, w), the
    transposed convolution takes the input to (n, out_channels, 2h, 2w),
    and the fusion returns the concatenation along the channel axis of the
    central skip slice, first, and of the upsampled tensor; it has
    cs + out_channels channels. *)
Theorem UpConv_fuses_skip_slice_first (in_channels out_channels : Z)
    (skip x : Tensor) (n cs d h w : Z) :
  shape skip = [n; cs; d; 2 * h; 2 * w] ->
  shape x = [n; in_channels; h; w] ->
  1 <= n -> 1 <= cs -> 1 <= d -> 1 <= h -> 1 <= w ->
  transconv (UpConv_init in_channels out_channels)
  = mkConvTranspose2d in_channels out_channels (2, 2) (2, 2) (0, 0)
  /\ ConvTranspose2d_forward (transconv (UpConv_init in_channels out_channels)) x
     = Ok {| shape := [n; out_channels; 2 * h; 2 * w];
             term := EApp (LConvTranspose2d
                             (transconv (UpConv_init in_channels out_channels)))
                          (term x) |}
  /\ UpConv_forward (UpConv_init in_channels out_channels) skip x
     = Ok {| shape := [n; cs + out_channels; 2 * h; 2 * w];
             term := ECat1 (ESelect2 (d / 2) (term skip))
                           (EApp (LConvTranspose2d
                                    (transconv (UpConv_init in_channels out_channels)))
                                 (term x)) |}.
Proof.
  intros Es Ex _ _ Hd _ _.
  assert (D : forall a, conv_transpose_out_size a 2 2 0 = 2 * a)
    by (intros a; unfold conv_transpose_out_size; lia).
  split; [reflexivity|]. split.
  - apply ConvTranspose2d_forward_Ok. exists n, h, w.
    cbn [UpConv_init transconv _pair]. simpl_cfg. now rewrite !D.
  - apply UpConv_forward_Ok. exists n, cs, d, h, w.
    cbn [UpConv_init transconv _pair]. simpl_cfg. rewrite !D.
    split; [exact Es|]. split; [lia|]. split; [exact Ex | reflexivity].
Qed.

Lemma UpConv_fuses_skip_slice_first_witness :
  UpConv_forward (UpConv_init 256 128) skip_example slice_example
  = Ok {| shape := [6; 256; 24; 24];
          term := ECat1 (ESelect2 1 (EInput 1))
                        (EApp (LConvTranspose2d
                                 (mkConvTranspose2d 256 128 (2, 2) (2, 2) (0, 0)))
                              (EInput 2)) |}.
Proof.
  apply (UpConv_fuses_skip_slice_first 256 128 skip_example slice_example
           6 128 3 12 12); try reflexivity; lia.
Defined.

(** C4.  Whatever the depth [d] of the skip volume, odd or even, the fusion
    takes the slice of index [d // 2] of it; and the first expanding stage
    hands to the fusion the slice of index [n // 2] of the bottleneck output,
    [n] being its depth. *)
Theorem central_slice_index :
  (forall (self : UpConv) (skip x y : Tensor),
     UpConv_forward self skip x = Ok y ->
     exists d skip_slice,
       size skip 2 = Ok d
       /\ select2 skip (d / 2) = Ok skip_slice
       /\ term skip_slice = ESelect2 (d / 2) (term skip)
       /\ term y = ECat1 (term skip_slice)
                         (EApp (LConvTranspose2d (transconv self)) (term x)))
  /\
  (forall (training : bool) (self : ResUNet) (out out' : Tensor)
          (skip_connections skip_connections' : list Tensor),
     expand_stage training self 0 (out, skip_connections)
     = Ok (out', skip_connections') ->
     exists skip n x up fused block,
       pop skip_connections = Ok (skip, skip_connections')
       /\ size out 2 = Ok n
       /\ select2 out (n / 2) = Ok x
       /\ term x = ESelect2 (n / 2) (term out)
       /\ getitem (TransUpBlocks self) 0 = Ok up
       /\ UpConv_forward up skip x = Ok fused
       /\ getitem (BlocksUp self) 0 = Ok block
       /\ ResBlock2D_forward training block fused = Ok out').
Proof.
  split.
  - intros self skip x y H.
    pose proof H as H'. apply UpConv_forward_Ok in H'
      as (n & cs & d & h & w & Es & Hd & Ex & ->).
    exists d. eexists. split; [|split; [|split]].
    + unfold size. now rewrite Es.
    + apply select2_Ok. exists n, cs, d. eexists.
      split; [exact Es|]. split; [lia|reflexivity].
    + reflexivity.
    + reflexivity.
  - intros training self out out' sk sk' H. unfold expand_stage in H.
    apply bind_Ok in H as ((skip & rest) & Hpop & H).
    apply bind_Ok in H as (fused & Hf & H).
    apply bind_Ok in H as (block & Hb & H).
    apply bind_Ok in H as (o' & Ho & H).
    injection H as -> ->.
    cbn [Z.eqb] in Hf.
    apply bind_Ok in Hf as (n & Hn & Hf).
    apply bind_Ok in Hf as (up & Hup & Hf).
    apply bind_Ok in Hf as (x & Hx & Hf).
    exists skip, n, x, up, fused, block.
    repeat (split; [assumption|]).
    split; [|auto].
    apply select2_Ok in Hx as (? & ? & ? & ? & _ & _ & ->). reflexivity.
Qed.

Lemma central_slice_index_witness :
  exists y,
    UpConv_forward (UpConv_init 256 128)
      {| shape := [6; 128; 4; 24; 24]; term := EInput 1 |}
      {| shape := [6; 256; 12; 12]; term := EInput 2 |} = Ok y
    /\ exists e, term y = ECat1 (ESelect2 2 (EInput 1)) e.
Proof.
  eexists. split; [reflexivity|].
  destruct (proj1 central_slice_index (UpConv_init 256 128)
              {| shape := [6; 128; 4; 24; 24]; term := EInput 1 |}
              {| shape := [6; 256; 12; 12]; term := EInput 2 |} _ eq_refl)
    as (d & sl & Hd & Hsl & Ht & Hy).
  injection Hd as <-. eexists. reflexivity.
Defined.

(* ================================================================== *)
(** * The list of skip connections *)
(* ================================================================== *)

Lemma length_range (n : nat) : length (range (Z.of_nat n)) = n.
Proof. unfold range. now rewrite length_map, length_seq, Nat2Z.id. Qed.

(** The contracting loop appends one tensor per block. *)
Lemma contract_pushes (training : bool) (self : ResUNet) (st st' : Tensor * list Tensor) :
  contract training self st = Ok st' ->
  length (snd st') = (length (snd st) + length (BlocksDown self))%nat.
Proof.
  unfold contract. generalize (BlocksDown self) as blocks.
  intros blocks; revert st.
  induction blocks as [|b blocks IH]; intros [out skips] H.
  - injection H as <-. cbn. lia.
  - cbn [for_each] in H. apply bind_Ok in H as (st1 & H1 & H).
    apply bind_Ok in H1 as (out1 & _ & H1). injection H1 as <-.
    apply IH in H. rewrite H. unfold append. cbn [snd length].
    rewrite length_app. cbn. lia.
Qed.

(** An expanding stage pops the tensor that was pushed last. *)
Lemma expand_stage_pops (training : bool) (self : ResUNet) (b_inx : Z)
    (out out' : Tensor) (skips skips' : list Tensor) :
  expand_stage training self b_inx (out, skips) = Ok (out', skips') ->
  exists skip, pop skips = Ok (skip, skips') /\ skips = skips' ++ [skip].
Proof.
  unfold expand_stage. intros H.
  apply bind_Ok in H as ((skip & rest) & Hpop & H).
  apply bind_Ok in H as (fused & _ & H).
  apply bind_Ok in H as (block & _ & H).
  apply bind_Ok in H as (o' & _ & H).
  injection H as _ <-. exists skip. split; [assumption|].
  now apply pop_Ok in Hpop.
Qed.

(** The expanding loop pops one tensor per entry of [up_blocks]. *)
Lemma expand_pops (training : bool) (self : ResUNet) (st st' : Tensor * list Tensor) :
  expand training self st = Ok st' ->
  length (snd st) = (length (snd st') + length (up_blocks self))%nat.
Proof.
  unfold expand, len. rewrite <- (length_range (length (up_blocks self))) at 2.
  generalize (range (Z.of_nat (length (up_blocks self)))) as stages.
  intros stages; revert st.
  induction stages as [|b stages IH]; intros [out skips] H.
  - injection H as <-. cbn. lia.
  - cbn [for_each] in H. apply bind_Ok in H as ([out1 skips1] & H1 & H).
    apply expand_stage_pops in H1 as (skip & _ & ->).
    apply IH in H. cbn [snd] in *. rewrite length_app, H. cbn. lia.
Qed.

(** What the constructor of a preset builds. *)
Ltac preset_inv H :=
  unfold ResUNet18, ResUNet23, ResUNet28, ResUNet_init, ResBlock3D_init,
    ResBlock2D_init, Dropout3d_init, Dropout2d_init in H;
  cbn [default] in H;
  match type of H with
  | context [valid_p ?p] =>
      let V := fresh "Hvalid" in
      destruct (valid_p p) eqn:V in H;
      vm_compute in H; [injection H as <- | discriminate H]
  end.

Lemma preset_stages (self : ResUNet) :
  is_preset self ->
  length (BlocksDown self) = length (down_blocks self)
  /\ length (BlocksUp self) = length (up_blocks self)
  /\ length (TransUpBlocks self) = length (up_blocks self)
  /\ length (down_blocks self) = length (up_blocks self).
Proof.
  intros (i & o & p & [H | [H | H]]); preset_inv H; cbn; auto.
Qed.

(** C5.  The contracting loop appends exactly one tensor to
    [skip_connections] per block, and every expanding stage pops exactly one,
    the one appended last.  In a preset there are as many expanding as
    contracting stages, so when [forward] returns, the list holds one tensor
    per contracting stage after the first loop and is empty at the end. *)
Theorem skip_stack_drained (training : bool) (self : ResUNet) (x output : Tensor)
    (skip_connections : list Tensor) :
  is_preset self ->
  forward_locals training self x = Ok (output, skip_connections) ->
  (forall st st', contract training self st = Ok st' ->
                  length (snd st') = (length (snd st) + length (BlocksDown self))%nat)
  /\ (forall b_inx out out' skips skips',
        expand_stage training self b_inx (out, skips) = Ok (out', skips') ->
        exists skip, pop skips = Ok (skip, skips') /\ skips = skips' ++ [skip])
  /\ length (BlocksDown self) = length (up_blocks self)
  /\ (exists out0 out1 skips1 out2 out3,
        Conv3d_forward (conv1 self) x = Ok out0
        /\ contract training self (out0, []) = Ok (out1, skips1)
        /\ length skips1 = length (BlocksDown self)
        /\ ResBlock3D_forward training (bottleneck self) out1 = Ok out2
        /\ expand training self (out2, skips1) = Ok (out3, skip_connections))
  /\ skip_connections = [].
Proof.
  intros Hpre H.
  destruct (preset_stages self Hpre) as (Hdown & _ & _ & Hlen).
  split; [intros st st'; apply contract_pushes|].
  split; [intros b_inx out out' skips skips'; apply expand_stage_pops|].
  split; [congruence|].
  unfold forward_locals in H.
  apply bind_Ok in H as (out0 & H0 & H).
  apply bind_Ok in H as ([out1 skips1] & H1 & H).
  apply bind_Ok in H as (out2 & H2 & H).
  apply bind_Ok in H as ([out3 skips3] & H3 & H).
  apply bind_Ok in H as (o & _ & H). injection H as _ ->.
  pose proof (contract_pushes _ _ _ _ H1) as L1.
  pose proof (expand_pops _ _ _ _ H3) as L3.
  cbn [snd length] in L1, L3.
  split.
  - exists out0, out1, skips1, out2, out3. auto 10.
  - destruct skip_connections as [|t l]; [reflexivity|].
    cbn [length] in L3. lia.
Qed.

Lemma skip_stack_drained_witness :
  exists self output,
    ResUNet18 1 2 (Some 0%float) = Ok self
    /\ forward_locals true self main_x = Ok (output, []).
Proof.
  destruct (ResUNet18 1 2 (Some 0%float)) as [self|e] eqn:Hself;
    [|vm_compute in Hself; discriminate Hself].
  assert (Hpre : is_preset self) by (exists 1, 2, 0%float; left; exact Hself).
  destruct (forward_locals true self main_x) as [[o s]|e] eqn:E.
  - exists self, o. split; [reflexivity|].
    destruct (skip_stack_drained true self main_x o s Hpre E) as (_ & _ & _ & _ & ->).
    exact E.
  - vm_compute in Hself. injection Hself as <-.
    vm_compute in E. discriminate E.
Defined.

(* ================================================================== *)
(** * The central slice through the contracting path *)
(* ================================================================== *)

(** [ResBlock3D_depth] is the depth that [forward] produces. *)
Lemma ResBlock3D_forward_depth (training : bool) (i o s : Z) (p : float)
    (blk : ResBlock3D) (x y : Tensor) (n c d h w : Z) :
  ResBlock3D_init i o s p None = Ok blk ->
  shape x = [n; c; d; h; w] ->
  ResBlock3D_forward training blk x = Ok y ->
  exists d', ResBlock3D_depth blk d = Ok d' /\ nth_error (shape y) 2 = Some d'.
Proof.
  intros Hinit Ex Hy.
  apply (ResBlock3D_forward_Ok training _ _ _ _ _ x y Hinit) in Hy
    as (n' & d0 & h' & w' & d1 & h1 & w1 & Ex' & _ & Hd & _ & _ & _ & ->).
  rewrite Ex in Ex'. injection Ex' as <- -> <- <- <-.
  apply ResBlock3D_init_Ok in Hinit as (_ & ->).
  exists d1. split; [|reflexivity].
  unfold ResBlock3D_depth, Conv3d_depth. cbn [rb3_conv1 rb3_conv2]. simpl_cfg.
  rewrite Hd. cbn [bind]. apply conv_out_size_same.
  now apply conv_out_size_pos in Hd.
Qed.

Lemma network_block_depth (b : ResBlock3D) (d d' : Z) :
  network_block b ->
  ResBlock3D_depth b d = Ok d' <->
  exists s, c3_stride (rb3_conv1 b) = (s, s, s)
            /\ ((s = 1 /\ 1 <= d /\ d' = d) \/ (s = 2 /\ 3 <= d /\ d' = (d - 1) / 2)).
Proof.
  intros (i & o & s & p & Hs & Hinit).
  apply ResBlock3D_init_Ok in Hinit as (_ & ->).
  unfold ResBlock3D_depth, Conv3d_depth. cbn [rb3_conv1 rb3_conv2]. simpl_cfg.
  split.
  - intros H. apply bind_Ok in H as (d1 & H1 & H2).
    apply conv_out_size_same_inv in H2. subst d1.
    apply conv_out_size_Ok in H1 as (_ & Hk & ->).
    exists s. split; [reflexivity|].
    destruct Hs as [-> | ->]; cbn in *; [left | right]; lia.
  - intros (s' & E & H). injection E as <-.
    destruct H as [(-> & Hd & ->) | (-> & Hd & ->)];
      [change (depth_padding 1) with 1 | change (depth_padding 2) with 0].
    + rewrite conv_out_size_same by lia. cbn [bind]. apply conv_out_size_same. lia.
    + rewrite (proj2 (conv_out_size_Ok d 3 2 0 ((d - 1) / 2)))
        by (repeat split; lia).
      cbn [bind]. apply conv_out_size_same. lia.
Qed.

Lemma network_block_centre (b : ResBlock3D) (j : Z) :
  network_block b ->
  exists s, c3_stride (rb3_conv1 b) = (s, s, s)
            /\ ((s = 1 /\ ResBlock3D_depth_centre b j = j)
                \/ (s = 2 /\ ResBlock3D_depth_centre b j = 2 * j + 1)).
Proof.
  intros (i & o & s & p & Hs & Hinit).
  apply ResBlock3D_init_Ok in Hinit as (_ & ->).
  exists s. split; [reflexivity|].
  unfold ResBlock3D_depth_centre, Conv3d_depth_centre, conv_centre.
  cbn [rb3_conv1 rb3_conv2]. simpl_cfg.
  destruct Hs as [-> | ->];
    [change (depth_padding 1) with 1; left | change (depth_padding 2) with 0; right];
    split; lia.
Qed.

Lemma central_origin_of_odd_depths (blocks : list ResBlock3D) (D : Z) :
  Forall network_block blocks ->
  depths_odd blocks D -> central_origin blocks D = Ok (D / 2).
Proof.
  intros Hb; revert D.
  induction Hb as [|b rest Hnb _ IH]; intros D.
  - reflexivity.
  - cbn [depths_odd central_origin]. intros (Hodd & d' & Hd' & Hrest).
    rewrite Hd'. cbn [bind]. rewrite (IH _ Hrest). cbn [bind]. f_equal.
    assert (Hodd' : d' mod 2 = 1) by (destruct rest; apply Hrest).
    apply (network_block_depth b D d' Hnb) in Hd' as (s & Es & Hd').
    destruct (network_block_centre b (d' / 2) Hnb) as (s' & Es' & Hc).
    rewrite Es in Es'. injection Es' as <-.
    destruct Hd' as [(-> & ? & ->) | (-> & ? & ->)];
      destruct Hc as [(? & ->) | (? & ->)]; lia.
Qed.

Lemma odd_depths_of_central_origin (blocks : list ResBlock3D) (D : Z) :
  Forall network_block blocks ->
  D mod 2 = 1 -> central_origin blocks D = Ok (D / 2) -> depths_odd blocks D.
Proof.
  intros Hb; revert D.
  induction Hb as [|b rest Hnb _ IH]; intros D Hodd.
  - intros _. split; [assumption | exact I].
  - cbn [depths_odd central_origin]. intros H.
    apply bind_Ok in H as (d' & Hd' & H).
    apply bind_Ok in H as (j & Hj & H). injection H as H.
    split; [assumption|]. exists d'. split; [assumption|].
    apply (network_block_depth b D d' Hnb) in Hd' as (s & Es & Hd').
    destruct (network_block_centre b j Hnb) as (s' & Es' & Hc).
    rewrite Es in Es'. injection Es' as <-.
    assert (d' mod 2 = 1 /\ j = d' / 2) as (Hodd' & ->)
      by (destruct Hd' as [(-> & ? & ->) | (-> & ? & ->)];
          destruct Hc as [(? & Hc) | (? & Hc)]; rewrite Hc in H; lia).
    now apply IH.
Qed.

(** C3, as the code has it.  The first convolution of a 3D block pads height
    and width by 1, and depth by 1 when the stride is 1 and by 0 otherwise.
    Let a volume of depth [D] go through blocks of stride 1 or 2.  When [D]
    and the depth of every feature map on the way are odd, the slice of
    index [depth // 2] of the last feature map is centred on the slice of
    index [D // 2] of the volume; and for an odd [D] it is centred there
    only in this case. *)
Theorem central_slice_stays_central (blocks : list ResBlock3D) (D : Z) :
  Forall network_block blocks ->
  (forall i o s p blk,
     ResBlock3D_init i o s p None = Ok blk ->
     c3_padding (rb3_conv1 blk) = (if s =? 1 then 1 else 0, 1, 1))
  /\ (depths_odd blocks D -> central_origin blocks D = Ok (D / 2))
  /\ (D mod 2 = 1 -> central_origin blocks D = Ok (D / 2) -> depths_odd blocks D).
Proof.
  intros Hb. split; [|split].
  - intros i o s p blk Hinit. apply ResBlock3D_init_Ok in Hinit as (_ & ->).
    reflexivity.
  - now apply central_origin_of_odd_depths.
  - now apply odd_depths_of_central_origin.
Qed.

Lemma stride2_blocks_network : Forall network_block stride2_blocks.
Proof.
  repeat constructor.
  - exists 32, 64, 2, 0%float. split; [now right | reflexivity].
  - exists 64, 128, 2, 0%float. split; [now right | reflexivity].
  - exists 128, 256, 2, 0%float. split; [now right | reflexivity].
Defined.

Lemma central_slice_stays_central_witness :
  depths_odd stride2_blocks 15 /\ central_origin stride2_blocks 15 = Ok 7.
Proof.
  assert (H : depths_odd stride2_blocks 15).
  { split; [reflexivity|]. exists 7. split; [reflexivity|].
    split; [reflexivity|]. exists 3. split; [reflexivity|].
    split; [reflexivity|]. exists 1. split; [reflexivity|].
    split; [reflexivity | exact I]. }
  split; [exact H|].
  exact (proj1 (proj2 (central_slice_stays_central stride2_blocks 15
                         stride2_blocks_network)) H).
Defined.

(** Counterexample to C3 as stated, for the odd depth 5: one block of stride 2 leaves a
    feature map of depth 2, whose slice of index 2 // 2 = 1 is computed from
    the slices 2 to 4 of the volume and is centred on slice 3, while the
    central slice of the volume is slice 5 // 2 = 2. *)
Lemma central_slice_off_centre :
  exists blk,
    ResBlock3D_init 32 64 2 0%float None = Ok blk
    /\ 5 mod 2 = 1
    /\ ResBlock3D_depth blk 5 = Ok 2
    /\ central_origin [blk] 5 = Ok 3
    /\ conv_window 3 2 (depth_padding 2) (2 / 2) = (2, 4)
    /\ 3 <> 5 / 2.
Proof.
  eexists. split; [reflexivity|].
  repeat split; try reflexivity. discriminate.
Qed.

(* ================================================================== *)
(** * Shapes through the stages of the network *)
(* ================================================================== *)

(** The check of batch normalisation in training mode passes. *)
Lemma bn_check3 (training : bool) (n a b c : Z) :
  1 <= n -> 1 <= a -> 1 <= b -> 1 <= c ->
  (training = true -> 1 < n * (a * (b * c))) ->
  training && (n * (a * (b * c)) =? 1) = false.
Proof.
  intros Hn Ha Hb Hc H. destruct training; [|reflexivity].
  cbn. apply Z.eqb_neq. specialize (H eq_refl). lia.
Qed.

Lemma bn_check2 (training : bool) (n b c : Z) :
  1 <= n -> 1 <= b -> 1 <= c ->
  (training = true -> 1 < n * (b * c)) ->
  training && (n * (b * c) =? 1) = false.
Proof.
  intros Hn Hb Hc H. destruct training; [|reflexivity].
  cbn. apply Z.eqb_neq. specialize (H eq_refl). lia.
Qed.

Lemma product_gt_1 (n a b c : Z) :
  1 <= n -> 1 <= a -> 1 <= b -> 1 <= c ->
  (1 < n \/ 1 < a \/ 1 < b \/ 1 < c) -> 1 < n * (a * (b * c)).
Proof. intros Hn Ha Hb Hc H. nia. Qed.

(** A 3D block of stride 1 that keeps the channel count keeps the shape. *)
Lemma ResBlock3D_stage_stride1 (training : bool) (c : Z) (p : float)
    (blk : ResBlock3D) (x : Tensor) (n d h w : Z) :
  ResBlock3D_init c c 1 p None = Ok blk ->
  shape x = [n; c; d; h; w] ->
  1 <= n -> 1 <= d -> 1 <= h -> 1 <= w ->
  (training = true -> 1 < n * (d * (h * w))) ->
  exists y, ResBlock3D_forward training blk x = Ok y /\ shape y = [n; c; d; h; w].
Proof.
  intros Hinit Ex Hn Hd Hh Hw Hbn. eexists. split.
  - apply (ResBlock3D_forward_Ok training _ _ _ _ _ x _ Hinit).
    exists n, d, h, w, d, h, w. change (depth_padding 1) with 1.
    rewrite !conv_out_size_same by assumption.
    repeat split; auto using bn_check3.
  - reflexivity.
Qed.

(** A 3D block of stride 2 halves depth (without padding), height and
    width. *)
Lemma ResBlock3D_stage_stride2 (training : bool) (i o : Z) (p : float)
    (blk : ResBlock3D) (x : Tensor) (n d h w : Z) :
  ResBlock3D_init i o 2 p None = Ok blk ->
  shape x = [n; i; d; 2 * h; 2 * w] ->
  1 <= n -> 3 <= d -> 1 <= h -> 1 <= w ->
  (training = true -> 1 < n * ((d - 1) / 2 * (h * w))) ->
  exists y, ResBlock3D_forward training blk x = Ok y
            /\ shape y = [n; o; (d - 1) / 2; h; w].
Proof.
  intros Hinit Ex Hn Hd Hh Hw Hbn. eexists. split.
  - apply (ResBlock3D_forward_Ok training _ _ _ _ _ x _ Hinit).
    exists n, d, (2 * h), (2 * w), ((d - 1) / 2), h, w.
    change (depth_padding 2) with 0.
    split; [assumption|].
    split; [apply bn_check3; try lia; intros _; apply product_gt_1; lia|].
    split; [apply conv_out_size_Ok; repeat split; lia|].
    split; [apply conv_out_size_Ok; repeat split; lia|].
    split; [apply conv_out_size_Ok; repeat split; lia|].
    split; [apply bn_check3; try lia; assumption | reflexivity].
  - reflexivity.
Qed.

(** A 2D block of stride 1 keeps height and width. *)
Lemma ResBlock2D_stage (training : bool) (i o : Z) (p : float)
    (blk : ResBlock2D) (x : Tensor) (n h w : Z) :
  ResBlock2D_init i o 1 p None = Ok blk ->
  shape x = [n; i; h; w] ->
  1 <= n -> 2 <= h -> 2 <= w ->
  exists y, ResBlock2D_forward training blk x = Ok y /\ shape y = [n; o; h; w].
Proof.
  intros Hinit Ex Hn Hh Hw. eexists. split.
  - apply (ResBlock2D_forward_Ok training _ _ _ _ _ x _ Hinit).
    exists n, h, w, h, w.
    rewrite !conv_out_size_same by lia.
    assert (training && (n * (h * w) =? 1) = false)
      by (apply bn_check2; try lia; intros _; nia).
    repeat split; auto.
  - reflexivity.
Qed.

(** The fusion doubles height and width and adds the channels of the skip. *)
Lemma UpConv_stage (i o : Z) (skip x : Tensor) (n cs d h w : Z) :
  shape skip = [n; cs; d; 2 * h; 2 * w] ->
  1 <= d ->
  shape x = [n; i; h; w] ->
  exists y, UpConv_forward (UpConv_init i o) skip x = Ok y
            /\ shape y = [n; cs + o; 2 * h; 2 * w].
Proof.
  intros Es Hd Ex.
  assert (D : forall a, conv_transpose_out_size a 2 2 0 = 2 * a)
    by (intros a; unfold conv_transpose_out_size; lia).
  eexists. split.
  - apply UpConv_forward_Ok. exists n, cs, d, h, w.
    cbn [UpConv_init transconv _pair]. simpl_cfg. rewrite !D.
    split; [exact Es|]. split; [lia|]. split; [exact Ex | reflexivity].
  - reflexivity.
Qed.

(** The first expanding stage: the bottleneck output is sliced, fused with
    the skip popped from the list and taken through a 2D block. *)
Lemma expand_stage_first (training : bool) (self : ResUNet) (out skip : Tensor)
    (rest : list Tensor) (blk : ResBlock2D) (p : float)
    (ci o n cs dN d h w : Z) :
  shape out = [n; ci; dN; h; w] ->
  shape skip = [n; cs; d; 2 * h; 2 * w] ->
  getitem (TransUpBlocks self) 0 = Ok (UpConv_init ci o) ->
  getitem (BlocksUp self) 0 = Ok blk ->
  ResBlock2D_init ci o 1 p None = Ok blk ->
  cs + o = ci ->
  1 <= n -> 1 <= dN -> 1 <= d -> 1 <= h -> 1 <= w ->
  exists out',
    expand_stage training self 0 (out, append rest skip) = Ok (out', rest)
    /\ shape out' = [n; o; 2 * h; 2 * w].
Proof.
  intros Eo Es Hup Hblk Hinit Hc Hn HdN Hd Hh Hw.
  unfold expand_stage. rewrite pop_append. cbn [bind Z.eqb].
  unfold size at 1. rewrite Eo. cbn [nth_error bind]. rewrite Hup. cbn [bind].
  assert (Hsel : select2 out (dN / 2)
                 = Ok {| shape := [n; ci; h; w];
                         term := ESelect2 (dN / 2) (term out) |}).
  { apply select2_Ok. exists n, ci, dN, [h; w].
    split; [exact Eo|]. split; [lia | reflexivity]. }
  rewrite Hsel. cbn [bind].
  destruct (UpConv_stage ci o skip
              {| shape := [n; ci; h; w]; term := ESelect2 (dN / 2) (term out) |}
              n cs d h w Es Hd eq_refl) as (fused & -> & Ef).
  cbn [bind]. rewrite Hblk. cbn [bind]. rewrite Hc in Ef.
  destruct (ResBlock2D_stage training ci o p blk fused n (2 * h) (2 * w)
              Hinit Ef Hn ltac:(lia) ltac:(lia)) as (out' & -> & Eo').
  cbn [bind]. eauto.
Qed.

(** A later expanding stage: the output of the previous stage is fused with
    the skip popped from the list and taken through a 2D block. *)
Lemma expand_stage_next (training : bool) (self : ResUNet) (b_inx : Z)
    (out skip : Tensor) (rest : list Tensor) (blk : ResBlock2D) (p : float)
    (ci o n cs d h w : Z) :
  shape out = [n; ci; h; w] ->
  shape skip = [n; cs; d; 2 * h; 2 * w] ->
  (b_inx =? 0) = false ->
  getitem (TransUpBlocks self) b_inx = Ok (UpConv_init ci o) ->
  getitem (BlocksUp self) b_inx = Ok blk ->
  ResBlock2D_init ci o 1 p None = Ok blk ->
  cs + o = ci ->
  1 <= n -> 1 <= d -> 1 <= h -> 1 <= w ->
  exists out',
    expand_stage training self b_inx (out, append rest skip) = Ok (out', rest)
    /\ shape out' = [n; o; 2 * h; 2 * w].
Proof.
  intros Eo Es Hb Hup Hblk Hinit Hc Hn Hd Hh Hw.
  unfold expand_stage. rewrite pop_append. cbn [bind]. rewrite Hb, Hup.
  cbn [bind].
  destruct (UpConv_stage ci o skip out n cs d h w Es Hd Eo) as (fused & -> & Ef).
  cbn [bind]. rewrite Hblk. cbn [bind]. rewrite Hc in Ef.
  destruct (ResBlock2D_stage training ci o p blk fused n (2 * h) (2 * w)
              Hinit Ef Hn ltac:(lia) ltac:(lia)) as (out' & -> & Eo').
  cbn [bind]. eauto.
Qed.

(** The first and the last convolution of the network keep depth, height
    and width. *)
Lemma first_conv_stage (ci co : Z) (x : Tensor) (n d h w : Z) :
  shape x = [n; ci; d; h; w] ->
  1 <= d -> 1 <= h -> 1 <= w ->
  exists y,
    Conv3d_forward (mkConv3d ci co (3, 3, 3) (1, 1, 1) (1, 1, 1) true) x = Ok y
    /\ shape y = [n; co; d; h; w].
Proof.
  intros Ex Hd Hh Hw. eexists. split.
  - apply Conv3d_forward_Ok. exists n, d, h, w, d, h, w. simpl_cfg.
    rewrite !conv_out_size_same by assumption. auto 10.
  - reflexivity.
Qed.

Lemma final_conv_stage (ci co : Z) (x : Tensor) (n h w : Z) :
  shape x = [n; ci; h; w] ->
  1 <= h -> 1 <= w ->
  exists y,
    Conv2d_forward (mkConv2d ci co (1, 1) (1, 1) (0, 0) true) x = Ok y
    /\ shape y = [n; co; h; w].
Proof.
  intros Ex Hh Hw. eexists. split.
  - apply Conv2d_forward_Ok. exists n, h, w, h, w. simpl_cfg.
    rewrite !conv_out_size_1_0_3_1, !conv_out_size_same by assumption. auto 10.
  - reflexivity.
Qed.

(* ================================================================== *)
(** * The output shape of the presets *)
(* ================================================================== *)

(** Symbolic execution of [forward], one stage at a time.  [V] is the proof
    that the dropout probability [q] is accepted. *)
Ltac init_ok V :=
  first [apply ResBlock3D_init_Ok | apply ResBlock2D_init_Ok];
  split; [exact V | reflexivity].

Ltac eval_range :=
  match goal with
  | |- context [range ?n] =>
      let r := eval vm_compute in (range n) in change (range n) with r
  end.

Ltac project self f :=
  let v := eval cbv [self f] in (f self) in change (f self) with v.

Ltac bn_inner := intros _; apply product_gt_1; lia.

Ltac stage_first :=
  match goal with
  | Ex : shape ?x = [?n; ?i; ?d; ?h; ?w]
    |- context [Conv3d_forward (mkConv3d ?i ?co _ _ _ _) ?x] =>
      let y := fresh "t" in let E := fresh "E" in let S' := fresh "S" in
      destruct (first_conv_stage i co x n d h w Ex) as (y & E & S');
      [ lia | lia | lia | rewrite E; cbn [bind]; clear E ]
  end.

Ltac stage_s1 V q :=
  match goal with
  | S : shape ?t = [?n; ?c; ?d; ?h; ?w] |- context [ResBlock3D_forward ?tr ?b ?t] =>
      let y := fresh "t" in let E := fresh "E" in let S' := fresh "S" in
      destruct (ResBlock3D_stage_stride1 tr c q b t n d h w) as (y & E & S');
      [ init_ok V | exact S | lia | lia | lia | lia | bn_inner
      | rewrite E; cbn [bind]; clear E ]
  end.

Ltac stage_s2 V q bn :=
  match goal with
  | S : shape ?t = [?n; ?c; ?d; 2 * ?h; 2 * ?w] |- context [ResBlock3D_forward ?tr ?b ?t] =>
      let y := fresh "t" in let E := fresh "E" in let S' := fresh "S" in
      destruct (ResBlock3D_stage_stride2 tr c (c3_out_channels (rb3_conv1 b)) q b t n d h w)
        as (y & E & S');
      [ init_ok V | exact S | lia | lia | lia | lia | bn
      | rewrite E; cbn [bind c3_out_channels rb3_conv1] in *; clear E ]
  end.

Ltac stage_up0 V q :=
  match goal with
  | |- context [expand_stage ?tr ?self 0 (?out, append ?rest ?skip)] =>
      let y := fresh "t" in let E := fresh "E" in let S' := fresh "S" in
      edestruct (expand_stage_first tr self out skip rest) with (p := q)
        as (y & E & S');
      [ eassumption | eassumption | reflexivity | reflexivity | init_ok V
      | reflexivity | lia | lia | lia | lia | lia
      | rewrite E; cbn [bind]; clear E ]
  end.

Ltac stage_up V q :=
  match goal with
  | |- context [expand_stage ?tr ?self ?b (?out, append ?rest ?skip)] =>
      let y := fresh "t" in let E := fresh "E" in let S' := fresh "S" in
      edestruct (expand_stage_next tr self b out skip rest) with (p := q)
        as (y & E & S');
      [ eassumption | eassumption | reflexivity | reflexivity | reflexivity
      | init_ok V | reflexivity | lia | lia | lia | lia
      | rewrite E; cbn [bind]; clear E ]
  end.

Ltac stage_final :=
  match goal with
  | S : shape ?t = [?n; ?c; ?h; ?w]
    |- context [Conv2d_forward (mkConv2d ?ci ?co _ _ _ _) ?t] =>
      let y := fresh "t" in let E := fresh "E" in let S' := fresh "S" in
      destruct (final_conv_stage ci co t n h w S) as (y & E & S');
      [ lia | lia | rewrite E; cbn [bind]; clear E ]
  end.

(** Builds the network of a preset and unfolds [forward] on it. *)
Ltac build_preset V q :=
  unfold ResUNet18, ResUNet23, ResUNet28, ResUNet_init, ResBlock3D_init,
    ResBlock2D_init, Dropout3d_init, Dropout2d_init;
  cbn [default];
  let V' := fresh "V" in
  pose proof V as V'; revert V'; generalize (valid_p q);
  let b := fresh "b" in
  intros b ->;
  eexists; split; [lazy; reflexivity|];
  match goal with
  | |- context [forward _ ?s _] =>
      let self := fresh "self" in
      set (self := s);
      unfold forward, forward_locals, contract, expand;
      project self conv1; project self BlocksDown; project self bottleneck;
      project self fl; project self up_blocks
  end;
  eval_range; cbn [for_each].

Lemma small_output_shape (i o : Z) (q : float) (training : bool) (x : Tensor)
    (n d h w : Z) :
  valid_p q = true ->
  shape x = [n; i; d; h; w] ->
  1 <= n -> 1 <= h -> 1 <= w -> 15 <= d ->
  h mod 8 = 0 -> w mod 8 = 0 ->
  (training = true -> 1 < n * (((d + 1) / 8 - 1) * (h / 8 * (w / 8)))) ->
  exists self,
    ResUNet18 i o (Some q) = Ok self
    /\ exists y, forward training self x = Ok y /\ shape y = [n; o; h; w].
Proof.
  intros V Ex Hn Hh Hw Hd Hh8 Hw8 Hbn.
  assert (exists h', h = 2 * (2 * (2 * h')) /\ 1 <= h' /\ h / 8 = h')
    as (h' & -> & Hh' & Eh) by (exists (h / 8); lia).
  assert (exists w', w = 2 * (2 * (2 * w')) /\ 1 <= w' /\ w / 8 = w')
    as (w' & -> & Hw' & Ew) by (exists (w / 8); lia).
  rewrite Eh, Ew in Hbn. clear Eh Ew Hh8 Hw8.
  assert (Hdn : (((d - 1) / 2 - 1) / 2 - 1) / 2 = (d + 1) / 8 - 1) by lia.
  build_preset V q.
  stage_first. stage_s1 V q.
  stage_s2 V q bn_inner. stage_s2 V q bn_inner.
  stage_s2 V q ltac:(rewrite Hdn; exact Hbn).
  stage_up0 V q. stage_up V q. stage_up V q.
  stage_final.
  eexists. split; [reflexivity | assumption].
Qed.

Lemma medium_output_shape (i o : Z) (q : float) (training : bool) (x : Tensor)
    (n d h w : Z) :
  valid_p q = true ->
  shape x = [n; i; d; h; w] ->
  1 <= n -> 1 <= h -> 1 <= w -> 31 <= d ->
  h mod 16 = 0 -> w mod 16 = 0 ->
  (training = true -> 1 < n * (((d + 1) / 16 - 1) * (h / 16 * (w / 16)))) ->
  exists self,
    ResUNet23 i o (Some q) = Ok self
    /\ exists y, forward training self x = Ok y /\ shape y = [n; o; h; w].
Proof.
  intros V Ex Hn Hh Hw Hd Hh8 Hw8 Hbn.
  assert (exists h', h = 2 * (2 * (2 * (2 * h'))) /\ 1 <= h' /\ h / 16 = h')
    as (h' & -> & Hh' & Eh) by (exists (h / 16); lia).
  assert (exists w', w = 2 * (2 * (2 * (2 * w'))) /\ 1 <= w' /\ w / 16 = w')
    as (w' & -> & Hw' & Ew) by (exists (w / 16); lia).
  rewrite Eh, Ew in Hbn. clear Eh Ew Hh8 Hw8.
  assert (Hdn : ((((d - 1) / 2 - 1) / 2 - 1) / 2 - 1) / 2 = (d + 1) / 16 - 1) by lia.
  build_preset V q.
  stage_first. stage_s1 V q.
  stage_s2 V q bn_inner. stage_s2 V q bn_inner. stage_s2 V q bn_inner.
  stage_s2 V q ltac:(rewrite Hdn; exact Hbn).
  stage_up0 V q. stage_up V q. stage_up V q. stage_up V q.
  stage_final.
  eexists. split; [reflexivity | assumption].
Qed.

Lemma large_output_shape (i o : Z) (q : float) (training : bool) (x : Tensor)
    (n d h w : Z) :
  valid_p q = true ->
  shape x = [n; i; d; h; w] ->
  1 <= n -> 1 <= h -> 1 <= w -> 63 <= d ->
  h mod 32 = 0 -> w mod 32 = 0 ->
  (training = true -> 1 < n * (((d + 1) / 32 - 1) * (h / 32 * (w / 32)))) ->
  exists self,
    ResUNet28 i o (Some q) = Ok self
    /\ exists y, forward training self x = Ok y /\ shape y = [n; o; h; w].
Proof.
  intros V Ex Hn Hh Hw Hd Hh8 Hw8 Hbn.
  assert (exists h', h = 2 * (2 * (2 * (2 * (2 * h')))) /\ 1 <= h' /\ h / 32 = h')
    as (h' & -> & Hh' & Eh) by (exists (h / 32); lia).
  assert (exists w', w = 2 * (2 * (2 * (2 * (2 * w')))) /\ 1 <= w' /\ w / 32 = w')
    as (w' & -> & Hw' & Ew) by (exists (w / 32); lia).
  rewrite Eh, Ew in Hbn. clear Eh Ew Hh8 Hw8.
  assert (Hdn : (((((d - 1) / 2 - 1) / 2 - 1) / 2 - 1) / 2 - 1) / 2 = (d + 1) / 32 - 1)
    by lia.
  build_preset V q.
  stage_first. stage_s1 V q.
  stage_s2 V q bn_inner. stage_s2 V q bn_inner. stage_s2 V q bn_inner.
  stage_s2 V q bn_inner.
  stage_s2 V q ltac:(rewrite Hdn; exact Hbn).
  stage_up0 V q. stage_up V q. stage_up V q. stage_up V q. stage_up V q.
  stage_final.
  eexists. split; [reflexivity | assumption].
Qed.

(* ================================================================== *)
(** * What an input must satisfy for the presets to return *)
(* ================================================================== *)

Lemma bn_check3_inv (training : bool) (n a b c : Z) :
  1 <= n -> 1 <= a -> 1 <= b -> 1 <= c ->
  training && (n * (a * (b * c)) =? 1) = false ->
  training = true -> 1 < n * (a * (b * c)).
Proof.
  intros Hn Ha Hb Hc H ->. cbn in H. apply Z.eqb_neq in H.
  assert (1 <= n * (a * (b * c))) by nia. lia.
Qed.

Lemma ResBlock3D_stage_inv (training : bool) (i o s : Z) (p : float)
    (blk : ResBlock3D) (x y : Tensor) (n c d h w : Z) :
  ResBlock3D_init i o s p None = Ok blk ->
  shape x = [n; c; d; h; w] ->
  ResBlock3D_forward training blk x = Ok y ->
  c = i
  /\ exists d1 h1 w1,
       conv_out_size d 3 s (depth_padding s) = Ok d1
       /\ conv_out_size h 3 s 1 = Ok h1
       /\ conv_out_size w 3 s 1 = Ok w1
       /\ training && (n * (d1 * (h1 * w1)) =? 1) = false
       /\ shape y = [n; o; d1; h1; w1].
Proof.
  intros Hinit Ex Hy.
  apply (ResBlock3D_forward_Ok training _ _ _ _ _ x y Hinit) in Hy
    as (n' & d0 & h0 & w0 & d1 & h1 & w1 & Ex' & _ & Hd & Hh & Hw & T & ->).
  rewrite Ex in Ex'. injection Ex' as <- -> <- <- <-.
  split; [reflexivity|]. exists d1, h1, w1. auto 10.
Qed.

Lemma ResBlock2D_stage_inv (training : bool) (i o s : Z) (p : float)
    (blk : ResBlock2D) (x y : Tensor) (n c h w : Z) :
  ResBlock2D_init i o s p None = Ok blk ->
  shape x = [n; c; h; w] ->
  ResBlock2D_forward training blk x = Ok y ->
  c = i
  /\ exists h1 w1,
       conv_out_size h 3 s 1 = Ok h1
       /\ conv_out_size w 3 s 1 = Ok w1
       /\ shape y = [n; o; h1; w1].
Proof.
  intros Hinit Ex Hy.
  apply (ResBlock2D_forward_Ok training _ _ _ _ _ x y Hinit) in Hy
    as (n' & h0 & w0 & h1 & w1 & Ex' & _ & Hh & Hw & T & ->).
  rewrite Ex in Ex'. injection Ex' as <- -> <- <-.
  split; [reflexivity|]. exists h1, w1. auto 10.
Qed.

Lemma UpConv_stage_inv (i o : Z) (skip x y : Tensor) (n cs d hs ws : Z) :
  shape skip = [n; cs; d; hs; ws] ->
  UpConv_forward (UpConv_init i o) skip x = Ok y ->
  exists h w, hs = 2 * h /\ ws = 2 * w /\ shape x = [n; i; h; w]
              /\ shape y = [n; cs + o; hs; ws].
Proof.
  intros Es Hy. apply UpConv_forward_Ok in Hy as (n' & cs' & d' & h & w & Es' & _ & Ex & ->).
  cbn [UpConv_init transconv _pair] in *. simpl_cfg.
  unfold conv_transpose_out_size in *.
  rewrite Es in Es'. injection Es' as <- <- <- -> ->.
  exists h, w. repeat split; try lia. assumption.
Qed.

Lemma select2_stage_inv (out x : Tensor) (n c d h w i : Z) :
  shape out = [n; c; d; h; w] ->
  select2 out i = Ok x ->
  - d <= i < d /\ shape x = [n; c; h; w].
Proof.
  intros Eo Hx. apply select2_Ok in Hx as (n' & c' & d' & r & Eo' & Hi & ->).
  rewrite Eo in Eo'. injection Eo' as <- <- <- <-. auto.
Qed.

Lemma expand_stage_first_inv (training : bool) (self : ResUNet) (out skip : Tensor)
    (rest : list Tensor) (st' : Tensor * list Tensor) (blk : ResBlock2D) (p : float)
    (ci o ci2 o2 n c dN h w ns cs d hs ws : Z) :
  shape out = [n; c; dN; h; w] ->
  shape skip = [ns; cs; d; hs; ws] ->
  getitem (TransUpBlocks self) 0 = Ok (UpConv_init ci o) ->
  getitem (BlocksUp self) 0 = Ok blk ->
  ResBlock2D_init ci2 o2 1 p None = Ok blk ->
  expand_stage training self 0 (out, append rest skip) = Ok st' ->
  exists out',
    st' = (out', rest)
    /\ ns = n /\ c = ci /\ hs = 2 * h /\ ws = 2 * w /\ 1 <= dN /\ cs + o = ci2
    /\ shape out' = [n; o2; hs; ws].
Proof.
  intros Eo Es Hup Hblk Hinit H. unfold expand_stage in H.
  rewrite pop_append in H. cbn [bind Z.eqb] in H.
  unfold size at 1 in H. rewrite Eo in H. cbn [nth_error bind] in H.
  rewrite Hup, Hblk in H. cbn [bind] in H.
  apply bind_Ok in H as (fused & Hf & H).
  apply bind_Ok in Hf as (x & Hx & Hf).
  apply bind_Ok in H as (out' & Ho & H). injection H as <-.
  destruct (select2_stage_inv _ _ _ _ _ _ _ _ Eo Hx) as (Hi & Ex).
  destruct (UpConv_stage_inv _ _ _ _ _ _ _ _ _ _ Es Hf) as (h' & w' & -> & -> & Ex' & Ef).
  rewrite Ex in Ex'. injection Ex' as -> -> -> ->.
  destruct (ResBlock2D_stage_inv _ _ _ _ _ _ _ _ _ _ _ _ Hinit Ef Ho)
    as (Hc & h1 & w1 & Hh & Hw & Eo').
  apply conv_out_size_same_inv in Hh, Hw. subst h1 w1.
  exists out'. repeat split; auto. lia.
Qed.

Lemma expand_stage_next_inv (training : bool) (self : ResUNet) (b_inx : Z)
    (out skip : Tensor) (rest : list Tensor) (st' : Tensor * list Tensor)
    (blk : ResBlock2D) (p : float)
    (ci o ci2 o2 n c h w ns cs d hs ws : Z) :
  shape out = [n; c; h; w] ->
  shape skip = [ns; cs; d; hs; ws] ->
  (b_inx =? 0) = false ->
  getitem (TransUpBlocks self) b_inx = Ok (UpConv_init ci o) ->
  getitem (BlocksUp self) b_inx = Ok blk ->
  ResBlock2D_init ci2 o2 1 p None = Ok blk ->
  expand_stage training self b_inx (out, append rest skip) = Ok st' ->
  exists out',
    st' = (out', rest)
    /\ ns = n /\ c = ci /\ hs = 2 * h /\ ws = 2 * w /\ cs + o = ci2
    /\ shape out' = [n; o2; hs; ws].
Proof.
  intros Eo Es Hb Hup Hblk Hinit H. unfold expand_stage in H.
  rewrite pop_append in H. cbn [bind] in H.
  rewrite Hb, Hup, Hblk in H. cbn [bind] in H.
  apply bind_Ok in H as (fused & Hf & H).
  apply bind_Ok in H as (out' & Ho & H). injection H as <-.
  destruct (UpConv_stage_inv _ _ _ _ _ _ _ _ _ _ Es Hf) as (h' & w' & -> & -> & Ex' & Ef).
  rewrite Eo in Ex'. injection Ex' as -> -> -> ->.
  destruct (ResBlock2D_stage_inv _ _ _ _ _ _ _ _ _ _ _ _ Hinit Ef Ho)
    as (Hc & h1 & w1 & Hh & Hw & Eo').
  apply conv_out_size_same_inv in Hh, Hw. subst h1 w1.
  exists out'. repeat split; auto.
Qed.

Ltac project_in self f H :=
  let v := eval cbv [self f] in (f self) in change (f self) with v in H.

Ltac split_bind H E a := apply bind_Ok in H; destruct H as (a & E & H).

(* one block of the contracting loop, in hypothesis [H] *)
Ltac inv_down V H :=
  match type of H with
  | bind (bind (ResBlock3D_forward ?tr ?b ?t) _) _ = _ =>
      let Eb := fresh "Eb" in let s := fresh "s" in
      let F := fresh "F" in let y := fresh "y" in
      split_bind H Eb s; split_bind Eb F y; injection Eb as <-;
      cbn beta iota in H;
      match goal with
      | S : shape t = [?n; ?c; ?d; ?h; ?w] |- _ =>
          let i := eval cbn in (bn3_num_features (rb3_bn1 b)) in
          let o := eval cbn in (c3_out_channels (rb3_conv1 b)) in
          let st := eval cbn in (fst (fst (c3_stride (rb3_conv1 b)))) in
          let Hi := fresh "Hi" in
          assert (Hi : ResBlock3D_init i o st _ None = Ok b) by init_ok V;
          let Hc := fresh "Hc" in let d1 := fresh "d" in let h1 := fresh "h" in
          let w1 := fresh "w" in let Hd := fresh "Hd" in let Hh := fresh "Hh" in
          let Hw := fresh "Hw" in let T := fresh "T" in let S' := fresh "S" in
          destruct (ResBlock3D_stage_inv tr i o st _ b t y n c d h w Hi S F)
            as (Hc & d1 & h1 & w1 & Hd & Hh & Hw & T & S');
          clear F Hi;
          apply conv_out_size_Ok in Hd, Hh, Hw
      end
  end.

Ltac inv_bottleneck V H :=
  match type of H with
  | bind (ResBlock3D_forward ?tr ?b ?t) _ = _ =>
      let F := fresh "F" in let y := fresh "y" in
      split_bind H F y;
      match goal with
      | S : shape t = [?n; ?c; ?d; ?h; ?w] |- _ =>
          let i := eval cbn in (bn3_num_features (rb3_bn1 b)) in
          let o := eval cbn in (c3_out_channels (rb3_conv1 b)) in
          let st := eval cbn in (fst (fst (c3_stride (rb3_conv1 b)))) in
          let Hi := fresh "Hi" in
          assert (Hi : ResBlock3D_init i o st _ None = Ok b) by init_ok V;
          let Hc := fresh "Hc" in let d1 := fresh "d" in let h1 := fresh "h" in
          let w1 := fresh "w" in let Hd := fresh "Hd" in let Hh := fresh "Hh" in
          let Hw := fresh "Hw" in let T := fresh "T" in let S' := fresh "S" in
          destruct (ResBlock3D_stage_inv tr i o st _ b t y n c d h w Hi S F)
            as (Hc & d1 & h1 & w1 & Hd & Hh & Hw & T & S');
          clear F Hi;
          apply conv_out_size_Ok in Hd, Hh, Hw
      end
  end.

Lemma first_conv_inv (ci co : Z) (x y : Tensor) (n c d h w : Z) :
  shape x = [n; c; d; h; w] ->
  Conv3d_forward (mkConv3d ci co (3, 3, 3) (1, 1, 1) (1, 1, 1) true) x = Ok y ->
  c = ci /\ 1 <= d /\ 1 <= h /\ 1 <= w /\ shape y = [n; co; d; h; w].
Proof.
  intros Ex E. apply Conv3d_forward_Ok in E
    as (n' & d' & h' & w' & d1 & h1 & w1 & Ex' & Hd & Hh & Hw & ->).
  simpl_cfg. rewrite Ex in Ex'. injection Ex' as <- -> <- <- <-.
  pose proof (conv_out_size_same_inv _ _ Hd). pose proof (conv_out_size_same_inv _ _ Hh).
  pose proof (conv_out_size_same_inv _ _ Hw). subst d1 h1 w1.
  apply conv_out_size_Ok in Hd, Hh, Hw. repeat split; lia.
Qed.

Lemma final_conv_inv (ci co : Z) (x y : Tensor) (n c h w : Z) :
  shape x = [n; c; h; w] ->
  Conv2d_forward (mkConv2d ci co (1, 1) (1, 1) (0, 0) true) x = Ok y ->
  shape y = [n; co; h; w].
Proof.
  intros Ex E. apply Conv2d_forward_Ok in E
    as (n' & h' & w' & h1 & w1 & Ex' & Hh & Hw & ->).
  simpl_cfg. rewrite Ex in Ex'. injection Ex' as <- _ <- <-.
  rewrite conv_out_size_1_0_3_1 in Hh, Hw.
  apply conv_out_size_same_inv in Hh, Hw. now subst.
Qed.

Ltac inv_up0 V H :=
  match type of H with
  | bind (expand_stage ?tr ?self 0 (?out, append ?rest ?skip)) _ = _ =>
      let Eu := fresh "Eu" in let s := fresh "s" in
      split_bind H Eu s;
      match goal with
      | So : shape out = [?n; ?c; ?dN; ?h; ?w], Ss : shape skip = [?ns; ?cs; ?d; ?hs; ?ws] |- _ =>
          let up := eval vm_compute in (getitem (TransUpBlocks self) 0) in
          let bl := eval vm_compute in (getitem (BlocksUp self) 0) in
          match up with
          | Ok {| transconv := {| ct_in_channels := ?ci; ct_out_channels := ?o |} |} =>
            match bl with
            | Ok ?b =>
              let ci2 := eval cbn in (bn2_num_features (rb2_bn1 b)) in
              let o2 := eval cbn in (c2_out_channels (rb2_conv1 b)) in
              let Hi := fresh "Hi" in
              assert (Hi : ResBlock2D_init ci2 o2 1 _ None = Ok b) by init_ok V;
              let out' := fresh "y" in let S' := fresh "S" in
              destruct (expand_stage_first_inv tr self out skip rest s b _
                          ci o ci2 o2 n c dN h w ns cs d hs ws So Ss eq_refl eq_refl Hi Eu)
                as (out' & -> & ? & ? & ? & ? & ? & ? & S');
              clear Eu Hi
            end
          end
      end
  end.

Ltac inv_up V H :=
  match type of H with
  | bind (expand_stage ?tr ?self ?bi (?out, append ?rest ?skip)) _ = _ =>
      let Eu := fresh "Eu" in let s := fresh "s" in
      split_bind H Eu s;
      match goal with
      | So : shape out = [?n; ?c; ?h; ?w], Ss : shape skip = [?ns; ?cs; ?d; ?hs; ?ws] |- _ =>
          let up := eval vm_compute in (getitem (TransUpBlocks self) bi) in
          let bl := eval vm_compute in (getitem (BlocksUp self) bi) in
          match up with
          | Ok {| transconv := {| ct_in_channels := ?ci; ct_out_channels := ?o |} |} =>
            match bl with
            | Ok ?b =>
              let ci2 := eval cbn in (bn2_num_features (rb2_bn1 b)) in
              let o2 := eval cbn in (c2_out_channels (rb2_conv1 b)) in
              let Hi := fresh "Hi" in
              assert (Hi : ResBlock2D_init ci2 o2 1 _ None = Ok b) by init_ok V;
              let out' := fresh "y" in let S' := fresh "S" in
              destruct (expand_stage_next_inv tr self bi out skip rest s b _
                          ci o ci2 o2 n c h w ns cs d hs ws So Ss eq_refl eq_refl eq_refl Hi Eu)
                as (out' & -> & ? & ? & ? & ? & ? & S');
              clear Eu Hi
            end
          end
      end
  end.

Lemma small_output_shape_inv (i o : Z) (q : float) (training : bool)
    (self : ResUNet) (x y : Tensor) (n c d h w : Z) :
  valid_p q = true ->
  shape x = [n; c; d; h; w] ->
  1 <= n ->
  ResUNet18 i o (Some q) = Ok self ->
  forward training self x = Ok y ->
  c = i /\ 15 <= d /\ 1 <= h /\ 1 <= w /\ h mod 8 = 0 /\ w mod 8 = 0
  /\ (training = true -> 1 < n * (((d + 1) / 8 - 1) * (h / 8 * (w / 8))))
  /\ shape y = [n; o; h; w].
Proof.
  intros V Ex Hn Hself H.
  unfold ResUNet18, ResUNet_init, ResBlock3D_init, ResBlock2D_init, Dropout3d_init,
    Dropout2d_init in Hself. cbn [default] in Hself.
  rewrite V in Hself. vm_compute in Hself. injection Hself as <-.
  match type of H with forward _ ?s _ = _ => set (self := s) in H end.
  unfold forward, forward_locals, contract, expand in H.
  project_in self conv1 H. project_in self BlocksDown H.
  project_in self bottleneck H. project_in self fl H. project_in self up_blocks H.
  match type of H with
  | context [range ?n] =>
      let r := eval vm_compute in (range n) in change (range n) with r in H
  end.
  cbn [for_each] in H.
  split_bind H H1 st. destruct st as [output sk]. injection H as ->.
  split_bind H1 E0 t0.
  destruct (first_conv_inv _ _ _ _ _ _ _ _ _ Ex E0) as (Hc & Hd0 & Hh0 & Hw0 & S0).
  clear E0.
  split_bind H1 Ec st. destruct st as [tc skc].
  inv_down V Ec. inv_down V Ec. inv_down V Ec.
  injection Ec as <- <-.
  inv_bottleneck V H1.
  split_bind H1 Ee st. destruct st as [te ske].
  inv_up0 V Ee. inv_up V Ee. inv_up V Ee.
  injection Ee as <- <-.
  split_bind H1 E7 out. injection H1 as <- _.
  match goal with
  | S : shape ?t = _, E : Conv2d_forward _ ?t = Ok _ |- _ =>
      pose proof (final_conv_inv _ _ _ _ _ _ _ _ S E) as Sy
  end.
  change (depth_padding 1) with 1 in *. change (depth_padding 2) with 0 in *.
  assert (Hbn : training = true -> 1 < n * (d3 * (h3 * w3)))
    by (apply bn_check3_inv; (assumption || lia)).
  assert (d3 = (d + 1) / 8 - 1) by lia.
  assert (h3 = h / 8) by lia.
  assert (w3 = w / 8) by lia.
  assert (h0 = h) by lia. assert (w0 = w) by lia.
  subst d3 h3 w3 h0 w0.
  repeat split; try lia; try assumption.
  rewrite Sy. repeat f_equal; lia.
Qed.

Lemma medium_output_shape_inv (i o : Z) (q : float) (training : bool)
    (self : ResUNet) (x y : Tensor) (n c d h w : Z) :
  valid_p q = true ->
  shape x = [n; c; d; h; w] ->
  1 <= n ->
  ResUNet23 i o (Some q) = Ok self ->
  forward training self x = Ok y ->
  c = i /\ 31 <= d /\ 1 <= h /\ 1 <= w /\ h mod 16 = 0 /\ w mod 16 = 0
  /\ (training = true -> 1 < n * (((d + 1) / 16 - 1) * (h / 16 * (w / 16))))
  /\ shape y = [n; o; h; w].
Proof.
  intros V Ex Hn Hself H.
  unfold ResUNet23, ResUNet_init, ResBlock3D_init, ResBlock2D_init, Dropout3d_init,
    Dropout2d_init in Hself. cbn [default] in Hself.
  rewrite V in Hself. vm_compute in Hself. injection Hself as <-.
  match type of H with forward _ ?s _ = _ => set (self := s) in H end.
  unfold forward, forward_locals, contract, expand in H.
  project_in self conv1 H. project_in self BlocksDown H.
  project_in self bottleneck H. project_in self fl H. project_in self up_blocks H.
  match type of H with
  | context [range ?n] =>
      let r := eval vm_compute in (range n) in change (range n) with r in H
  end.
  cbn [for_each] in H.
  split_bind H H1 st. destruct st as [output sk]. injection H as ->.
  split_bind H1 E0 t0.
  destruct (first_conv_inv _ _ _ _ _ _ _ _ _ Ex E0) as (Hc & Hd0 & Hh0 & Hw0 & S0).
  clear E0.
  split_bind H1 Ec st. destruct st as [tc skc].
  inv_down V Ec. inv_down V Ec. inv_down V Ec. inv_down V Ec.
  injection Ec as <- <-.
  inv_bottleneck V H1.
  split_bind H1 Ee st. destruct st as [te ske].
  inv_up0 V Ee. inv_up V Ee. inv_up V Ee. inv_up V Ee.
  injection Ee as <- <-.
  split_bind H1 E7 out. injection H1 as <- _.
  match goal with
  | S : shape ?t = _, E : Conv2d_forward _ ?t = Ok _ |- _ =>
      pose proof (final_conv_inv _ _ _ _ _ _ _ _ S E) as Sy
  end.
  change (depth_padding 1) with 1 in *. change (depth_padding 2) with 0 in *.
  assert (Hbn : training = true -> 1 < n * (d4 * (h4 * w4)))
    by (apply bn_check3_inv; (assumption || lia)).
  assert (d4 = (d + 1) / 16 - 1) by lia.
  assert (h4 = h / 16) by lia.
  assert (w4 = w / 16) by lia.
  assert (h0 = h) by lia. assert (w0 = w) by lia.
  subst d4 h4 w4 h0 w0.
  repeat split; try lia; try assumption.
  rewrite Sy. repeat f_equal; lia.
Qed.

Lemma large_output_shape_inv (i o : Z) (q : float) (training : bool)
    (self : ResUNet) (x y : Tensor) (n c d h w : Z) :
  valid_p q = true ->
  shape x = [n; c; d; h; w] ->
  1 <= n ->
  ResUNet28 i o (Some q) = Ok self ->
  forward training self x = Ok y ->
  c = i /\ 63 <= d /\ 1 <= h /\ 1 <= w /\ h mod 32 = 0 /\ w mod 32 = 0
  /\ (training = true -> 1 < n * (((d + 1) / 32 - 1) * (h / 32 * (w / 32))))
  /\ shape y = [n; o; h; w].
Proof.
  intros V Ex Hn Hself H.
  unfold ResUNet28, ResUNet_init, ResBlock3D_init, ResBlock2D_init, Dropout3d_init,
    Dropout2d_init in Hself. cbn [default] in Hself.
  rewrite V in Hself. vm_compute in Hself. injection Hself as <-.
  match type of H with forward _ ?s _ = _ => set (self := s) in H end.
  unfold forward, forward_locals, contract, expand in H.
  project_in self conv1 H. project_in self BlocksDown H.
  project_in self bottleneck H. project_in self fl H. project_in self up_blocks H.
  match type of H with
  | context [range ?n] =>
      let r := eval vm_compute in (range n) in change (range n) with r in H
  end.
  cbn [for_each] in H.
  split_bind H H1 st. destruct st as [output sk]. injection H as ->.
  split_bind H1 E0 t0.
  destruct (first_conv_inv _ _ _ _ _ _ _ _ _ Ex E0) as (Hc & Hd0 & Hh0 & Hw0 & S0).
  clear E0.
  split_bind H1 Ec st. destruct st as [tc skc].
  inv_down V Ec. inv_down V Ec. inv_down V Ec. inv_down V Ec. inv_down V Ec.
  injection Ec as <- <-.
  inv_bottleneck V H1.
  split_bind H1 Ee st. destruct st as [te ske].
  inv_up0 V Ee. inv_up V Ee. inv_up V Ee. inv_up V Ee. inv_up V Ee.
  injection Ee as <- <-.
  split_bind H1 E7 out. injection H1 as <- _.
  match goal with
  | S : shape ?t = _, E : Conv2d_forward _ ?t = Ok _ |- _ =>
      pose proof (final_conv_inv _ _ _ _ _ _ _ _ S E) as Sy
  end.
  change (depth_padding 1) with 1 in *. change (depth_padding 2) with 0 in *.
  assert (Hbn : training = true -> 1 < n * (d5 * (h5 * w5)))
    by (apply bn_check3_inv; (assumption || lia)).
  assert (d5 = (d + 1) / 32 - 1) by lia.
  assert (h5 = h / 32) by lia.
  assert (w5 = w / 32) by lia.
  assert (h0 = h) by lia. assert (w0 = w) by lia.
  subst d5 h5 w5 h0 w0.
  repeat split; try lia; try assumption.
  rewrite Sy. repeat f_equal; lia.
Qed.

Lemma preset_network_Ok (pr : preset) (i o : Z) (q : float) :
  valid_p q = true -> exists self, preset_network pr i o (Some q) = Ok self.
Proof.
  intros V.
  destruct pr; unfold preset_network, ResUNet18, ResUNet23, ResUNet28, ResUNet_init,
    ResBlock3D_init, ResBlock2D_init, Dropout3d_init, Dropout2d_init;
    cbn [default]; rewrite V; eexists; lazy; reflexivity.
Qed.

(** C1, as the code has it.  Let [N] be the number of contracting stages of
    a preset, built with positive channel counts and a probability [p] that
    the dropout layers accept, as the construction interface requires.  On
    an input volume (n, in_channels, d, h, w) of positive sizes, [forward]
    returns a tensor of shape (n, out_channels, h, w) exactly when the depth
    is at least [2^(N+1) - 1] (odd or even), height and width are multiples
    of [2^N] and, in training mode, the input leaves more than one value per
    channel after the bottleneck convolution, which batch normalisation
    insists on: [n * ((d + 1) // 2^N - 1) * (h // 2^N) * (w // 2^N) > 1].
    Whenever [forward] returns, the result has this shape. *)
Theorem forward_output_shape (pr : preset) (in_channels out_channels : Z)
    (p : option float) (training : bool) (x : Tensor) (n d h w : Z) :
  0 < in_channels -> 0 < out_channels ->
  valid_p (default p 0%float) = true ->
  shape x = [n; in_channels; d; h; w] ->
  1 <= n -> 1 <= h -> 1 <= w ->
  exists self,
    preset_network pr in_channels out_channels p = Ok self
    /\ ((2 ^ (stages pr + 1) - 1 <= d
         /\ h mod 2 ^ stages pr = 0
         /\ w mod 2 ^ stages pr = 0
         /\ (training = true ->
             1 < n * (((d + 1) / 2 ^ stages pr - 1)
                      * (h / 2 ^ stages pr * (w / 2 ^ stages pr)))))
        <-> exists y, forward training self x = Ok y
                      /\ shape y = [n; out_channels; h; w])
    /\ (forall y, forward training self x = Ok y ->
                  shape y = [n; out_channels; h; w]).
Proof.
  intros _ _ V Ex Hn Hh Hw.
  assert (Hp : preset_network pr in_channels out_channels p
               = preset_network pr in_channels out_channels (Some (default p 0%float)))
    by (destruct pr, p; reflexivity).
  rewrite Hp. clear Hp.
  destruct (preset_network_Ok pr in_channels out_channels _ V) as (self & Hself).
  exists self. split; [exact Hself|].
  destruct pr; cbn [stages preset_network] in *;
    [ change (2 ^ (3 + 1)) with 16; change (2 ^ 3) with 8
    | change (2 ^ (4 + 1)) with 32; change (2 ^ 4) with 16
    | change (2 ^ (5 + 1)) with 64; change (2 ^ 5) with 32 ].
  - split; [split|].
    + intros (Hd & Hh' & Hw' & Hbn).
      destruct (small_output_shape in_channels out_channels _ training x n d h w
                  V Ex Hn Hh Hw ltac:(lia) Hh' Hw' Hbn) as (self' & Hself' & Hy).
      rewrite Hself in Hself'. injection Hself' as <-. exact Hy.
    + intros (y & Hy & _).
      destruct (small_output_shape_inv _ _ _ _ _ _ _ _ _ _ _ _ V Ex Hn Hself Hy)
        as (_ & Hd & _ & _ & Hh' & Hw' & Hbn & _).
      repeat split; (assumption || lia).
    + intros y Hy.
      apply (small_output_shape_inv _ _ _ _ _ _ _ _ _ _ _ _ V Ex Hn Hself Hy).
  - split; [split|].
    + intros (Hd & Hh' & Hw' & Hbn).
      destruct (medium_output_shape in_channels out_channels _ training x n d h w
                  V Ex Hn Hh Hw ltac:(lia) Hh' Hw' Hbn) as (self' & Hself' & Hy).
      rewrite Hself in Hself'. injection Hself' as <-. exact Hy.
    + intros (y & Hy & _).
      destruct (medium_output_shape_inv _ _ _ _ _ _ _ _ _ _ _ _ V Ex Hn Hself Hy)
        as (_ & Hd & _ & _ & Hh' & Hw' & Hbn & _).
      repeat split; (assumption || lia).
    + intros y Hy.
      apply (medium_output_shape_inv _ _ _ _ _ _ _ _ _ _ _ _ V Ex Hn Hself Hy).
  - split; [split|].
    + intros (Hd & Hh' & Hw' & Hbn).
      destruct (large_output_shape in_channels out_channels _ training x n d h w
                  V Ex Hn Hh Hw ltac:(lia) Hh' Hw' Hbn) as (self' & Hself' & Hy).
      rewrite Hself in Hself'. injection Hself' as <-. exact Hy.
    + intros (y & Hy & _).
      destruct (large_output_shape_inv _ _ _ _ _ _ _ _ _ _ _ _ V Ex Hn Hself Hy)
        as (_ & Hd & _ & _ & Hh' & Hw' & Hbn & _).
      repeat split; (assumption || lia).
    + intros y Hy.
      apply (large_output_shape_inv _ _ _ _ _ _ _ _ _ _ _ _ V Ex Hn Hself Hy).
Qed.

Lemma forward_output_shape_witness :
  exists self,
    preset_network small 1 2 None = Ok self
    /\ exists y, forward true self main_x = Ok y /\ shape y = [6; 2; 96; 96].
Proof.
  destruct (forward_output_shape small 1 2 None true main_x 6 15 96 96)
    as (self & Hself & Hiff & _); try reflexivity; try lia.
  exists self. split; [exact Hself|].
  apply Hiff. repeat split; try reflexivity; lia.
Defined.

(** Counterexample to C1 as stated, on the small preset (N = 3): for the odd depth
    15 and a height and width of 4, a multiple of 2^(N-1), the fusion raises
    on mismatched sizes; for the odd depth 13 and a height and width of 96,
    a stride-2 convolution raises on a depth smaller than its kernel. *)
Lemma forward_fails_on_claimed_inputs :
  exists self,
    preset_network small 1 2 None = Ok self
    /\ (15 mod 2 = 1 /\ 4 mod 2 ^ (stages small - 1) = 0
        /\ forward true self {| shape := [6; 1; 15; 4; 4]; term := EInput 0 |}
           = Err SizeMismatch
        /\ forward false self {| shape := [6; 1; 15; 4; 4]; term := EInput 0 |}
           = Err SizeMismatch)
    /\ (13 mod 2 = 1 /\ 96 mod 2 ^ (stages small - 1) = 0
        /\ forward true self {| shape := [6; 1; 13; 96; 96]; term := EInput 0 |}
           = Err KernelTooLarge
        /\ forward false self {| shape := [6; 1; 13; 96; 96]; term := EInput 0 |}
           = Err KernelTooLarge).
Proof.
  eexists. split; [reflexivity|].
  repeat split; vm_compute; reflexivity.
Qed.

(* ================================================================== *)
(** * The medium preset on a volume of 15 slices *)
(* ================================================================== *)

(** Counterexample to C2 as stated: [ResUNet23(1, 5)] on a volume of shape
    (2, 1, 15, 64, 64) raises, in training and in evaluation mode. *)
Lemma medium_preset_depth_15_raises :
  exists self,
    ResUNet23 1 5 None = Ok self
    /\ forward true self volume_15 = Err KernelTooLarge
    /\ forward false self volume_15 = Err KernelTooLarge.
Proof.
  eexists. split; [reflexivity|].
  split; vm_compute; reflexivity.
Qed.

(** C2, as the code has it.  For [ResUNet23(1, 5)], the four contracting
    stages take a volume of shape (2, 1, 15, 64, 64) to depth 1, and the
    bottleneck block, whose first convolution has a kernel of depth 3 and no
    depth padding, raises: the forward pass does not complete.  On a volume
    of shape (2, 1, 31, 64, 64) the forward pass completes and returns a
    tensor of shape (2, 5, 64, 64). *)
Theorem medium_preset_scenario :
  exists self,
    ResUNet23 1 5 None = Ok self
    /\ c3_kernel_size (rb3_conv1 (bottleneck self)) = (3, 3, 3)
    /\ c3_padding (rb3_conv1 (bottleneck self)) = (0, 1, 1)
    /\ forall training,
         shape_of (out <- contracting_path training self volume_15 ;; Ok (fst out))
         = Ok [2; 256; 1; 8; 8]
         /\ (out <- contracting_path training self volume_15 ;;
             ResBlock3D_forward training (bottleneck self) (fst out))
            = Err KernelTooLarge
         /\ forward training self volume_15 = Err KernelTooLarge
         /\ shape_of (forward training self volume_31) = Ok [2; 5; 64; 64].
Proof.
  eexists. split; [reflexivity|].
  split; [reflexivity|]. split; [reflexivity|].
  intros []; repeat split; vm_compute; reflexivity.
Qed.

(* ================================================================== *)
(** * The constructor, for any configuration *)
(* ================================================================== *)

Lemma ResUNet_init_loops (ic oc : option Z) (db ub : option (list Z))
    (bn : option Z) (p : option float) :
  ResUNet_init ic oc db ub bn p
  = (let in_channels := default ic 1 in
     let out_channels := default oc 5 in
     let down_blocks := default db [32; 64; 128; 256] in
     let up_blocks := default ub [256; 128; 64; 32] in
     let bottleneck := default bn 512 in
     let p := default p 0.5%float in
     c <- getitem down_blocks 0 ;;
     BlocksDown <- for_each (down_body down_blocks p) (enumerate down_blocks) [] ;;
     c' <- getitem down_blocks (-1) ;;
     bottleneck' <- ResBlock3D_init c' bottleneck 2 p None ;;
     ups <- for_each (up_body up_blocks bottleneck p) (enumerate up_blocks) ([], []) ;;
     c'' <- getitem up_blocks (-1) ;;
     Ok {| down_blocks := down_blocks;
           up_blocks := up_blocks;
           conv1 := mkConv3d in_channels c (3, 3, 3) (1, 1, 1) (1, 1, 1) true;
           BlocksDown := BlocksDown;
           bottleneck := bottleneck';
           BlocksUp := fst ups;
           TransUpBlocks := snd ups;
           fl := mkConv2d c'' out_channels (1, 1) (1, 1) (0, 0) true;
           relu := mkReLU true |}).
Proof.
  unfold ResUNet_init, down_body, up_body. cbv zeta.
  destruct (getitem (default db [32; 64; 128; 256]) 0); [|reflexivity]. cbn [bind].
  destruct (for_each _ _ []); [|reflexivity]. cbn [bind].
  destruct (getitem _ (-1)); [|reflexivity]. cbn [bind].
  destruct (ResBlock3D_init _ _ 2 _ None); [|reflexivity]. cbn [bind].
  destruct (for_each _ _ ([], [])) as [[bu tu]|]; reflexivity.
Qed.

Lemma getitem_nil {A : Type} (i : Z) : getitem (@nil A) i = Err IndexOutOfRange.
Proof.
  unfold getitem. rewrite nth_error_nil.
  repeat match goal with |- context [if ?c then _ else _] => destruct c end;
    reflexivity.
Qed.

Lemma getitem_middle {A : Type} (pre suf : list A) (x : A) :
  getitem (pre ++ x :: suf) (len pre) = Ok x.
Proof.
  assert (H : (len pre <? 0) = false) by (apply Z.ltb_ge; unfold len; lia).
  unfold getitem. cbv zeta. rewrite !H. unfold len.
  rewrite Nat2Z.id, nth_error_app2, Nat.sub_diag by lia. reflexivity.
Qed.

Lemma getitem_last {A : Type} (pre : list A) (x : A) : getitem (pre ++ [x]) (-1) = Ok x.
Proof.
  assert (H : -1 + len (pre ++ [x]) = len pre)
    by (unfold len; rewrite length_app; cbn [length]; lia).
  assert (H' : (len pre <? 0) = false) by (apply Z.ltb_ge; unfold len; lia).
  unfold getitem. cbv zeta. change (-1 <? 0) with true. cbv iota.
  rewrite H, H'. unfold len.
  rewrite Nat2Z.id, nth_error_app2, Nat.sub_diag by lia. reflexivity.
Qed.

Lemma len_snoc {A : Type} (l : list A) (a : A) : len (l ++ [a]) = len l + 1.
Proof. unfold len. rewrite length_app. cbn. lia. Qed.

(** The first loop, from the second block on: one stride-2 block per entry,
    from the channel count of the entry before. *)
Lemma down_loop (db : list Z) (p : float) (suf : list Z) :
  forall (pre : list Z) (prev : Z) (acc : list ResBlock3D),
    db = pre ++ prev :: suf ->
    for_each (down_body db p) (enumerate_from (len pre + 1) suf) acc
    = (bs <- map_result (fun io => ResBlock3D_init (fst io) (snd io) 2 p None)
                        (chain prev suf) ;;
       Ok (acc ++ bs)).
Proof.
  induction suf as [|x r IH]; intros pre prev acc E.
  - cbn. now rewrite app_nil_r.
  - cbn [enumerate_from for_each chain map_result]. unfold down_body at 1.
    assert (E' : db = (pre ++ [prev]) ++ x :: r) by (rewrite <- app_assoc; exact E).
    rewrite <- (len_snoc pre prev).
    rewrite E' at 1. rewrite getitem_middle. cbn [bind].
    replace (len (pre ++ [prev]) =? 0) with false
      by (symmetry; apply Z.eqb_neq; rewrite len_snoc; unfold len; lia).
    replace (len (pre ++ [prev]) - 1) with (len pre) by (rewrite len_snoc; lia).
    rewrite E at 1. rewrite getitem_middle. cbn [bind fst snd].
    destruct (ResBlock3D_init prev x 2 p None) as [b|e]; [|reflexivity].
    cbn [bind]. rewrite (IH (pre ++ [prev]) x (append acc b) E').
    destruct (map_result _ (chain x r)) as [bs|e]; [|reflexivity].
    cbn [bind]. unfold append. now rewrite <- app_assoc.
Qed.

(** The second loop, from the second stage on. *)
Lemma up_loop (ub : list Z) (bn : Z) (p : float) (suf : list Z) :
  forall (pre : list Z) (prev : Z) (accB : list ResBlock2D) (accT : list UpConv),
    ub = pre ++ prev :: suf ->
    for_each (up_body ub bn p) (enumerate_from (len pre + 1) suf) (accB, accT)
    = (bs <- map_result (fun io => ResBlock2D_init (fst io) (snd io) 1 p None)
                        (chain prev suf) ;;
       Ok (accB ++ bs,
           accT ++ map (fun io => UpConv_init (fst io) (snd io)) (chain prev suf))).
Proof.
  induction suf as [|x r IH]; intros pre prev accB accT E.
  - cbn. now rewrite !app_nil_r.
  - cbn [enumerate_from for_each chain map_result map]. unfold up_body at 1.
    assert (E' : ub = (pre ++ [prev]) ++ x :: r) by (rewrite <- app_assoc; exact E).
    rewrite <- (len_snoc pre prev).
    replace (len (pre ++ [prev]) =? 0) with false
      by (symmetry; apply Z.eqb_neq; rewrite len_snoc; unfold len; lia).
    replace (len (pre ++ [prev]) - 1) with (len pre) by (rewrite len_snoc; lia).
    rewrite E at 1. rewrite getitem_middle. cbn [bind].
    rewrite E' at 1. rewrite getitem_middle. cbn [bind fst snd].
    destruct (ResBlock2D_init prev x 1 p None) as [b|e]; [|reflexivity].
    cbn [bind]. rewrite (IH (pre ++ [prev]) x _ _ E').
    destruct (map_result _ (chain x r)) as [bs|e]; [|reflexivity].
    cbn [bind]. unfold append. now rewrite <- !app_assoc.
Qed.

Lemma getitem_minus1 (l : list Z) : l <> [] -> getitem l (-1) = Ok (last l 0).
Proof.
  intros N. rewrite (app_removelast_last 0 N) at 1. apply getitem_last.
Qed.

(** The constructor without its loops. *)
Lemma ResUNet_init_closed (ic oc : option Z) (db ub : option (list Z))
    (bn : option Z) (p : option float) :
  ResUNet_init ic oc db ub bn p
  = (let in_channels := default ic 1 in
     let out_channels := default oc 5 in
     let down_blocks := default db [32; 64; 128; 256] in
     let up_blocks := default ub [256; 128; 64; 32] in
     let bottleneck := default bn 512 in
     let p := default p 0.5%float in
     match down_blocks with
     | [] => Err IndexOutOfRange
     | d0 :: _ =>
         BlocksDown <-
           map_result (fun s => ResBlock3D_init (fst (fst s)) (snd (fst s)) (snd s) p None)
                      (down_specs down_blocks) ;;
         bottleneck' <- ResBlock3D_init (last down_blocks 0) bottleneck 2 p None ;;
         BlocksUp <-
           map_result (fun io => ResBlock2D_init (fst io) (snd io) 1 p None)
                      (chain bottleneck up_blocks) ;;
         match up_blocks with
         | [] => Err IndexOutOfRange
         | _ :: _ =>
             Ok {| down_blocks := down_blocks;
                   up_blocks := up_blocks;
                   conv1 := mkConv3d in_channels d0 (3, 3, 3) (1, 1, 1) (1, 1, 1) true;
                   BlocksDown := BlocksDown;
                   bottleneck := bottleneck';
                   BlocksUp := BlocksUp;
                   TransUpBlocks := map (fun io => UpConv_init (fst io) (snd io))
                                        (chain bottleneck up_blocks);
                   fl := mkConv2d (last up_blocks 0) out_channels (1, 1) (1, 1) (0, 0) true;
                   relu := mkReLU true |}
         end
     end).
Proof.
  rewrite ResUNet_init_loops. cbv zeta.
  set (d := default db _). set (u := default ub _). set (b := default bn _).
  set (q := default p _). set (i := default ic _). set (o := default oc _).
  destruct d as [|d0 r] eqn:Ed; [now rewrite getitem_nil|].
  change (getitem (d0 :: r) 0) with (@Ok Z d0). cbn [bind].
  (* first loop *)
  unfold enumerate. cbn [enumerate_from for_each down_specs map_result fst snd].
  unfold down_body at 1. change (getitem (d0 :: r) 0) with (@Ok Z d0).
  cbn [bind Z.eqb].
  destruct (ResBlock3D_init d0 d0 1 q None) as [b0|e]; [|reflexivity]. cbn [bind].
  change (0 + 1) with (len (@nil Z) + 1).
  rewrite (down_loop (d0 :: r) q r [] d0 _ eq_refl).
  assert (Hm : forall l,
             map_result (fun s => ResBlock3D_init (fst (fst s)) (snd (fst s)) (snd s) q None)
                        (map (fun io => (fst io, snd io, 2)) l)
             = map_result (fun io => ResBlock3D_init (fst io) (snd io) 2 q None) l).
  { induction l as [|a l IHl]; [reflexivity|]. cbn [map map_result fst snd].
    now rewrite IHl. }
  rewrite Hm.
  destruct (map_result _ (chain d0 r)) as [bs|e]; [|reflexivity]. cbn [bind].
  rewrite getitem_minus1 by discriminate. cbn [bind].
  destruct (ResBlock3D_init (last (d0 :: r) 0) b 2 q None) as [bt|e]; [|reflexivity].
  cbn [bind].
  (* second loop *)
  destruct u as [|u0 ur] eqn:Eu.
  { cbn [enumerate_from for_each chain map_result bind]. now rewrite getitem_nil. }
  cbn [enumerate_from for_each chain map_result map]. unfold up_body at 1.
  cbn [Z.eqb bind]. change (getitem (u0 :: ur) 0) with (@Ok Z u0). cbn [bind fst snd].
  destruct (ResBlock2D_init b u0 1 q None) as [c0|e]; [|reflexivity]. cbn [bind].
  change (0 + 1) with (len (@nil Z) + 1).
  rewrite (up_loop (u0 :: ur) b q ur [] u0 _ _ eq_refl).
  destruct (map_result _ (chain u0 ur)) as [cs|e]; [|reflexivity]. cbn [bind].
  rewrite getitem_minus1 by discriminate. cbn [bind fst snd]. reflexivity.
Qed.

Lemma map_result_Ok {A B : Type} (f : A -> result B) (l : list A) (bs : list B) :
  map_result f l = Ok bs <-> Forall2 (fun a b => f a = Ok b) l bs.
Proof.
  revert bs. induction l as [|a l IH]; intros bs; cbn [map_result].
  - split.
    + intros H; injection H as <-. constructor.
    + intros H; inversion H. reflexivity.
  - split.
    + intros H. apply bind_Ok in H as (b & Hb & H).
      apply bind_Ok in H as (bs' & Hbs & H). injection H as <-.
      constructor; [exact Hb | now apply IH].
    + intros H. inversion H as [|a' b l' bs' Hb Hbs]; subst.
      rewrite Hb. cbn [bind]. apply IH in Hbs. now rewrite Hbs.
Qed.

Lemma map_result_total {A B : Type} (f : A -> result B) (l : list A) :
  (forall a, exists b, f a = Ok b) -> exists bs, map_result f l = Ok bs.
Proof.
  intros Hf. induction l as [|a l (bs & IH)]; [now exists []|].
  destruct (Hf a) as (b & Hb). exists (b :: bs). cbn [map_result].
  now rewrite Hb, IH.
Qed.

Lemma ResBlock3D_init_valid (i o s : Z) (p : float) (ds : option Sequential) :
  valid_p p = true -> exists b, ResBlock3D_init i o s p ds = Ok b.
Proof. intros V. eexists. apply ResBlock3D_init_Ok. split; [exact V | reflexivity]. Qed.

Lemma ResBlock2D_init_valid (i o s : Z) (p : float) (ds : option Sequential) :
  valid_p p = true -> exists b, ResBlock2D_init i o s p ds = Ok b.
Proof. intros V. eexists. apply ResBlock2D_init_Ok. split; [exact V | reflexivity]. Qed.

Lemma ResBlock3D_init_invalid (i o s : Z) (p : float) (ds : option Sequential) :
  valid_p p = false -> ResBlock3D_init i o s p ds = Err DropoutProbability.
Proof. intros V. unfold ResBlock3D_init, Dropout3d_init. now rewrite V. Qed.

(** X1.  What the constructor does with its arguments, channel counts being
    positive (the layers of PyTorch refuse negative sizes, which are not
    modelled): it raises an index error for an empty [down_blocks], the
    dropout layer's error for a [p] outside [[0, 1]], an index error for an
    empty [up_blocks] (only after all the blocks were built), and otherwise
    returns a network. *)
Theorem ResUNet_init_result (ic oc : option Z) (db ub : option (list Z))
    (bn : option Z) (p : option float) :
  let down_blocks := default db [32; 64; 128; 256] in
  let up_blocks := default ub [256; 128; 64; 32] in
  let p' := default p 0.5%float in
  1 <= default ic 1 -> 1 <= default oc 5 -> 1 <= default bn 512 ->
  Forall (fun c => 1 <= c) down_blocks ->
  Forall (fun c => 1 <= c) up_blocks ->
  (down_blocks = [] -> ResUNet_init ic oc db ub bn p = Err IndexOutOfRange)
  /\ (down_blocks <> [] -> valid_p p' = false ->
      ResUNet_init ic oc db ub bn p = Err DropoutProbability)
  /\ (down_blocks <> [] -> valid_p p' = true -> up_blocks = [] ->
      ResUNet_init ic oc db ub bn p = Err IndexOutOfRange)
  /\ (down_blocks <> [] -> valid_p p' = true -> up_blocks <> [] ->
      exists self, ResUNet_init ic oc db ub bn p = Ok self).
Proof.
  intros d u q _ _ _ _ _. revert d u q.
  intros d u q. rewrite ResUNet_init_closed. cbv zeta. fold d u q.
  split; [|split; [|split]].
  - intros ->. reflexivity.
  - intros Hd V. destruct d as [|d0 r]; [contradiction|].
    cbn [down_specs map_result fst snd].
    now rewrite (ResBlock3D_init_invalid _ _ _ _ _ V).
  - intros Hd V Hu. destruct d as [|d0 r]; [contradiction|].
    destruct (map_result_total
                (fun s => ResBlock3D_init (fst (fst s)) (snd (fst s)) (snd s) q None)
                (down_specs (d0 :: r))) as (bs & ->);
      [intros a; now apply ResBlock3D_init_valid|].
    cbn [bind].
    destruct (ResBlock3D_init_valid (last (d0 :: r) 0) (default bn 512) 2 q None V)
      as (bt & ->).
    cbn [bind]. rewrite Hu. reflexivity.
  - intros Hd V Hu. destruct d as [|d0 r]; [contradiction|].
    destruct (map_result_total
                (fun s => ResBlock3D_init (fst (fst s)) (snd (fst s)) (snd s) q None)
                (down_specs (d0 :: r))) as (bs & ->);
      [intros a; now apply ResBlock3D_init_valid|].
    cbn [bind].
    destruct (ResBlock3D_init_valid (last (d0 :: r) 0) (default bn 512) 2 q None V)
      as (bt & ->).
    cbn [bind].
    destruct (map_result_total
                (fun io => ResBlock2D_init (fst io) (snd io) 1 q None)
                (chain (default bn 512) u)) as (cs & ->);
      [intros a; now apply ResBlock2D_init_valid|].
    cbn [bind]. destruct u as [|u0 ur]; [contradiction|]. eauto.
Qed.

Lemma ResUNet_init_result_witness :
  (exists self, ResUNet_init None None None None None None = Ok self)
  /\ ResUNet_init None None None None None (Some 2%float) = Err DropoutProbability.
Proof.
  assert (P : Forall (fun c => 1 <= c) [32; 64; 128; 256]) by (repeat constructor; lia).
  assert (Q : Forall (fun c => 1 <= c) [256; 128; 64; 32]) by (repeat constructor; lia).
  split.
  - refine (proj2 (proj2 (proj2 (ResUNet_init_result None None None None None None
                                    _ _ _ P Q))) _ _ _);
      cbn; try lia; try discriminate; try reflexivity.
  - refine (proj1 (proj2 (ResUNet_init_result None None None None None (Some 2%float)
                            _ _ _ P Q)) _ _);
      cbn; try lia; try discriminate; try reflexivity.
Defined.

(** What the constructor has built when it returns. *)
Lemma ResUNet_init_Ok (ic oc : option Z) (db ub : option (list Z))
    (bn : option Z) (p : option float) (self : ResUNet) :
  ResUNet_init ic oc db ub bn p = Ok self ->
  let in_channels := default ic 1 in
  let out_channels := default oc 5 in
  let down_blocks' := default db [32; 64; 128; 256] in
  let up_blocks' := default ub [256; 128; 64; 32] in
  let bottleneck' := default bn 512 in
  let p' := default p 0.5%float in
  down_blocks self = down_blocks'
  /\ up_blocks self = up_blocks'
  /\ conv1 self = mkConv3d in_channels (hd 0 down_blocks') (3, 3, 3) (1, 1, 1) (1, 1, 1) true
  /\ Forall2 (fun s b => ResBlock3D_init (fst (fst s)) (snd (fst s)) (snd s) p' None = Ok b)
             (down_specs down_blocks') (BlocksDown self)
  /\ ResBlock3D_init (last down_blocks' 0) bottleneck' 2 p' None = Ok (bottleneck self)
  /\ Forall2 (fun io b => ResBlock2D_init (fst io) (snd io) 1 p' None = Ok b)
             (chain bottleneck' up_blocks') (BlocksUp self)
  /\ TransUpBlocks self
     = map (fun io => UpConv_init (fst io) (snd io)) (chain bottleneck' up_blocks')
  /\ fl self = mkConv2d (last up_blocks' 0) out_channels (1, 1) (1, 1) (0, 0) true.
Proof.
  rewrite ResUNet_init_closed. cbv zeta.
  set (d := default db _). set (u := default ub _). set (b := default bn _).
  set (q := default p _). set (i := default ic _). set (o := default oc _).
  intros H. destruct d as [|d0 r] eqn:Ed; [discriminate|].
  apply bind_Ok in H as (bs & Hbs & H).
  apply bind_Ok in H as (bt & Hbt & H).
  apply bind_Ok in H as (cs & Hcs & H).
  destruct u as [|u0 ur] eqn:Eu; [discriminate|].
  injection H as <-. cbn [down_blocks up_blocks conv1 BlocksDown bottleneck BlocksUp
                          TransUpBlocks fl hd].
  apply map_result_Ok in Hbs, Hcs. auto 10.
Qed.

Lemma chain_nth (l : list Z) :
  forall (prev : Z) (k : nat) (io : Z * Z),
    nth_error (chain prev l) k = Some io ->
    io = (match k with O => prev | S j => nth j l 0 end, nth k l 0).
Proof.
  induction l as [|x r IH]; intros prev k io H.
  - destruct k; discriminate.
  - destruct k as [|k]; cbn in H.
    + now injection H as <-.
    + apply IH in H. subst io. now destruct k.
Qed.

Lemma length_chain (l : list Z) (prev : Z) : length (chain prev l) = length l.
Proof. revert prev. induction l as [|x r IH]; intros prev; cbn; auto. Qed.

Lemma length_down_specs (l : list Z) : length (down_specs l) = length l.
Proof. destruct l as [|d0 r]; cbn; [reflexivity|]. now rewrite length_map, length_chain. Qed.

Lemma down_specs_nth (l : list Z) (k : nat) (s : Z * Z * Z) :
  nth_error (down_specs l) k = Some s ->
  s = match k with
      | O => (nth 0 l 0, nth 0 l 0, 1)
      | S j => (nth j l 0, nth (S j) l 0, 2)
      end.
Proof.
  destruct l as [|d0 r]; [destruct k; discriminate|].
  destruct k as [|k]; cbn [down_specs nth_error].
  - now intros H; injection H as <-.
  - rewrite nth_error_map. destruct (nth_error (chain d0 r) k) as [io|] eqn:E;
      [|discriminate].
    intros H; injection H as <-. apply chain_nth in E. subst io. now destruct k.
Qed.

Lemma Forall2_nth_error_r {A B : Type} (R : A -> B -> Prop) (l1 : list A) (l2 : list B) :
  Forall2 R l1 l2 ->
  forall k b, nth_error l2 k = Some b -> exists a, nth_error l1 k = Some a /\ R a b.
Proof.
  induction 1 as [|a b l1 l2 Hab _ IH]; intros k c Hk.
  - destruct k; discriminate.
  - destruct k as [|k]; cbn in *.
    + injection Hk as <-. eauto.
    + eauto.
Qed.

Lemma Forall2_length_eq {A B : Type} (R : A -> B -> Prop) (l1 : list A) (l2 : list B) :
  Forall2 R l1 l2 -> length l1 = length l2.
Proof. induction 1; cbn; auto. Qed.

(** X2.  The stages the constructor builds: one contracting block per entry of
    [down_blocks], the first of stride 1 from the first entry to itself, each
    later one of stride 2 from the entry before; the bottleneck of stride 2
    from the last entry; and per entry of [up_blocks] a 2D block of stride 1
    and an up-convolution with the same channels, the first from
    [bottleneck], each later one from the entry before. *)
Theorem ResUNet_init_stages (ic oc : option Z) (db ub : option (list Z))
    (bn : option Z) (p : option float) (self : ResUNet) :
  ResUNet_init ic oc db ub bn p = Ok self ->
  let down_blocks' := default db [32; 64; 128; 256] in
  let up_blocks' := default ub [256; 128; 64; 32] in
  let bottleneck' := default bn 512 in
  let p' := default p 0.5%float in
  length (BlocksDown self) = length down_blocks'
  /\ length (BlocksUp self) = length up_blocks'
  /\ length (TransUpBlocks self) = length up_blocks'
  /\ (forall k b,
        nth_error (BlocksDown self) k = Some b ->
        match k with
        | O => ResBlock3D_init (nth 0 down_blocks' 0) (nth 0 down_blocks' 0) 1 p' None
        | S j => ResBlock3D_init (nth j down_blocks' 0) (nth (S j) down_blocks' 0) 2 p' None
        end = Ok b)
  /\ ResBlock3D_init (last down_blocks' 0) bottleneck' 2 p' None = Ok (bottleneck self)
  /\ (forall k b,
        nth_error (BlocksUp self) k = Some b ->
        let input_channel := match k with O => bottleneck' | S j => nth j up_blocks' 0 end in
        ResBlock2D_init input_channel (nth k up_blocks' 0) 1 p' None = Ok b
        /\ nth_error (TransUpBlocks self) k
           = Some (UpConv_init input_channel (nth k up_blocks' 0))).
Proof.
  intros H. apply ResUNet_init_Ok in H. cbv zeta in *.
  destruct H as (_ & _ & _ & Hd & Hb & Hu & Ht & _).
  split; [|split; [|split; [|split; [|split]]]].
  - rewrite <- (Forall2_length_eq _ _ _ Hd). apply length_down_specs.
  - rewrite <- (Forall2_length_eq _ _ _ Hu). apply length_chain.
  - now rewrite Ht, length_map, length_chain.
  - intros k b Hk.
    destruct (Forall2_nth_error_r _ _ _ Hd k b Hk) as (s & Hs & Hsb).
    apply down_specs_nth in Hs. subst s. destruct k; exact Hsb.
  - exact Hb.
  - intros k b Hk.
    destruct (Forall2_nth_error_r _ _ _ Hu k b Hk) as (io & Hio & Hiob).
    pose proof (chain_nth _ _ _ _ Hio) as E.
    split.
    + subst io. exact Hiob.
    + rewrite Ht, nth_error_map, Hio. cbn [option_map]. now subst io.
Qed.

(** The constructor returns only for lists that are not empty. *)
Lemma ResUNet_init_nonempty (ic oc : option Z) (db ub : option (list Z))
    (bn : option Z) (p : option float) (self : ResUNet) :
  ResUNet_init ic oc db ub bn p = Ok self ->
  default db [32; 64; 128; 256] <> [] /\ default ub [256; 128; 64; 32] <> [].
Proof.
  rewrite ResUNet_init_closed. cbv zeta. intros H.
  destruct (default db [32; 64; 128; 256]) as [|d0 r]; [discriminate|].
  apply bind_Ok in H as (bs & _ & H).
  apply bind_Ok in H as (bt & _ & H).
  apply bind_Ok in H as (cs & _ & H).
  destruct (default ub [256; 128; 64; 32]) as [|u0 ur]; [discriminate|].
  split; discriminate.
Qed.

Lemma ResUNet_init_stages_witness :
  exists self b0 b1 u0,
    ResUNet_init None None None None None None = Ok self
    /\ length (BlocksDown self) = 4%nat
    /\ nth_error (BlocksDown self) 0 = Some b0
    /\ ResBlock3D_init 32 32 1 0.5%float None = Ok b0
    /\ nth_error (BlocksDown self) 1 = Some b1
    /\ ResBlock3D_init 32 64 2 0.5%float None = Ok b1
    /\ ResBlock3D_init 256 512 2 0.5%float None = Ok (bottleneck self)
    /\ nth_error (BlocksUp self) 0 = Some u0
    /\ ResBlock2D_init 512 256 1 0.5%float None = Ok u0
    /\ nth_error (TransUpBlocks self) 0 = Some (UpConv_init 512 256).
Proof.
  destruct (ResUNet_init None None None None None None) as [self|e] eqn:Hself;
    [|vm_compute in Hself; discriminate Hself].
  destruct (ResUNet_init_stages _ _ _ _ _ _ self Hself)
    as (Hd & _ & _ & Hdown & Hb & Hup).
  cbn [default length] in Hd, Hdown, Hb, Hup.
  destruct (nth_error (BlocksDown self) 0) as [b0|] eqn:E0;
    [|apply nth_error_None in E0; lia].
  destruct (nth_error (BlocksDown self) 1) as [b1|] eqn:E1;
    [|apply nth_error_None in E1; lia].
  destruct (nth_error (BlocksUp self) 0) as [u0|] eqn:E2;
    [|vm_compute in Hself; injection Hself as <-; discriminate E2].
  exists self, b0, b1, u0.
  split; [reflexivity|]. split; [exact Hd|]. split; [exact E0|].
  split; [exact (Hdown 0%nat b0 E0)|]. split; [exact E1|].
  split; [exact (Hdown 1%nat b1 E1)|]. split; [exact Hb|].
  split; [exact E2|]. exact (Hup 0%nat u0 E2).
Defined.

(* ================================================================== *)
(** * Residual blocks: sizes and errors *)
(* ================================================================== *)

Lemma conv_out_size_3_2_1 (a : Z) : 1 <= a -> conv_out_size a 3 2 1 = Ok ((a + 1) / 2).
Proof. intros Ha. apply conv_out_size_Ok. repeat split; lia. Qed.

(** A block of stride 2 on a volume of depth at least 3. *)
Lemma ResBlock3D_stride2_Ok (training : bool) (i o : Z) (p : float)
    (blk : ResBlock3D) (x : Tensor) (n d h w : Z) :
  ResBlock3D_init i o 2 p None = Ok blk ->
  shape x = [n; i; d; h; w] ->
  1 <= n -> 3 <= d -> 1 <= h -> 1 <= w ->
  (training = true -> 1 < n * (d * (h * w))) ->
  (training = true -> 1 < n * ((d - 1) / 2 * ((h + 1) / 2 * ((w + 1) / 2)))) ->
  exists y, ResBlock3D_forward training blk x = Ok y
            /\ shape y = [n; o; (d - 1) / 2; (h + 1) / 2; (w + 1) / 2].
Proof.
  intros Hinit Ex Hn Hd Hh Hw Hbn1 Hbn2. eexists. split.
  - apply (ResBlock3D_forward_Ok training _ _ _ _ _ x _ Hinit).
    exists n, d, h, w, ((d - 1) / 2), ((h + 1) / 2), ((w + 1) / 2).
    change (depth_padding 2) with 0. rewrite !conv_out_size_3_2_1 by assumption.
    split; [exact Ex|]. split; [apply bn_check3; assumption || lia|].
    split; [apply conv_out_size_Ok; repeat split; lia|].
    split; [reflexivity|]. split; [reflexivity|].
    split; [apply bn_check3; try assumption; lia | reflexivity].
  - reflexivity.
Qed.

(** A block of stride 2 has no room for its kernel in a volume of depth 1
    or 2: the depth axis is not padded. *)
Lemma ResBlock3D_stride2_thin (training : bool) (i o : Z) (p : float)
    (blk : ResBlock3D) (x : Tensor) (n d h w : Z) :
  ResBlock3D_init i o 2 p None = Ok blk ->
  shape x = [n; i; d; h; w] ->
  1 <= n -> 1 <= d -> 1 <= h -> 1 <= w ->
  (training = true -> 1 < n * (d * (h * w))) ->
  d < 3 ->
  ResBlock3D_forward training blk x = Err KernelTooLarge.
Proof.
  intros Hinit Ex Hn Hd Hh Hw Hbn Hd3.
  assert (B1 : BatchNorm3d_forward training (mkBatchNorm3d i) x
               = Ok {| shape := shape x;
                       term := EApp (LBatchNorm3d (mkBatchNorm3d i)) (term x) |}).
  { apply BatchNorm3d_forward_Ok. exists n, d, h, w.
    split; [exact Ex|]. split; [|reflexivity]. apply bn_check3; assumption. }
  apply ResBlock3D_init_Ok in Hinit as (_ & ->).
  unfold ResBlock3D_forward, ResBlock3D_main.
  cbn [rb3_bn1 rb3_relu rb3_conv1]. rewrite B1. cbn [bind ReLU_forward].
  unfold Conv3d_forward. cbn [shape]. rewrite Ex. simpl_cfg. rewrite Z.eqb_refl.
  change (depth_padding 2) with 0. unfold conv_out_size at 1.
  replace (d + 2 * 0 <? 3) with true by (symmetry; apply Z.ltb_lt; lia).
  reflexivity.
Qed.

(** X3.  A 3D block of stride 2 on a volume of depth [d] that passes the
    first batch normalisation: for [d < 3] the first convolution raises the
    kernel-size error, since the depth axis is not padded; for [d >= 3] the
    block returns depth [(d - 1) / 2] and height and width rounded up to
    half, unless in training mode the second batch normalisation sees a
    single value per channel and raises. *)
Theorem ResBlock3D_stride2_shape (training : bool) (i o : Z) (p : float)
    (blk : ResBlock3D) (x : Tensor) (n d h w : Z) :
  ResBlock3D_init i o 2 p None = Ok blk ->
  shape x = [n; i; d; h; w] ->
  1 <= n -> 1 <= d -> 1 <= h -> 1 <= w ->
  (training = true -> 1 < n * (d * (h * w))) ->
  (d < 3 -> ResBlock3D_forward training blk x = Err KernelTooLarge)
  /\ (3 <= d ->
      training = true -> n * ((d - 1) / 2 * ((h + 1) / 2 * ((w + 1) / 2))) = 1 ->
      ResBlock3D_forward training blk x = Err ExpectedMoreValues)
  /\ (3 <= d ->
      (training = true -> 1 < n * ((d - 1) / 2 * ((h + 1) / 2 * ((w + 1) / 2)))) ->
      exists y, ResBlock3D_forward training blk x = Ok y
                /\ shape y = [n; o; (d - 1) / 2; (h + 1) / 2; (w + 1) / 2]).
Proof.
  intros Hinit Ex Hn Hd Hh Hw Hbn. split; [|split].
  - intros Hd3.
    exact (ResBlock3D_stride2_thin training i o p blk x n d h w
             Hinit Ex Hn Hd Hh Hw Hbn Hd3).
  - intros Hd3 -> Hone.
    assert (B1 : BatchNorm3d_forward true (mkBatchNorm3d i) x
                 = Ok {| shape := shape x;
                         term := EApp (LBatchNorm3d (mkBatchNorm3d i)) (term x) |}).
    { apply BatchNorm3d_forward_Ok. exists n, d, h, w.
      split; [exact Ex|]. split; [|reflexivity]. apply bn_check3; assumption. }
    apply ResBlock3D_init_Ok in Hinit as (_ & ->).
    unfold ResBlock3D_forward, ResBlock3D_main.
    cbn [rb3_bn1 rb3_relu rb3_conv1 rb3_bn2]. rewrite B1. cbn [bind ReLU_forward].
    erewrite (proj2 (Conv3d_forward_Ok _ _ _)); cycle 1.
    { exists n, d, h, w, ((d - 1) / 2), ((h + 1) / 2), ((w + 1) / 2). simpl_cfg.
      change (depth_padding 2) with 0. rewrite !conv_out_size_3_2_1 by assumption.
      split; [exact Ex|]. split; [apply conv_out_size_Ok; repeat split; lia|].
      repeat split. }
    cbn [bind]. unfold BatchNorm3d_forward. cbn [shape]. rewrite Hone. reflexivity.
  - intros Hd3 Hbn2.
    exact (ResBlock3D_stride2_Ok training i o p blk x n d h w
             Hinit Ex Hn Hd3 Hh Hw Hbn Hbn2).
Qed.

Lemma ResBlock3D_stride2_shape_witness :
  exists blk,
    ResBlock3D_init 32 64 2 0%float None = Ok blk
    /\ ResBlock3D_forward true blk thin_volume = Err KernelTooLarge
    /\ exists y, ResBlock3D_forward true blk odd_volume = Ok y
                 /\ shape y = [2; 64; 3; 3; 4].
Proof.
  eexists. split; [reflexivity|]. split.
  - apply (ResBlock3D_stride2_shape true 32 64 0%float _ thin_volume 2 2 5 7);
      try reflexivity; lia.
  - apply (ResBlock3D_stride2_shape true 32 64 0%float _ odd_volume 2 7 5 7);
      try reflexivity; lia.
Defined.

Lemma strided_size (a s : Z) : 1 <= a -> 1 <= s -> 1 <= (a - 1) / s + 1.
Proof.
  intros Ha Hs. assert (0 <= (a - 1) / s) by (apply Z.div_pos; lia). lia.
Qed.

Lemma conv_out_size_3_1 (a s : Z) :
  1 <= a -> 1 <= s -> conv_out_size a 3 s 1 = Ok ((a - 1) / s + 1).
Proof.
  intros Ha Hs. apply conv_out_size_Ok.
  split; [lia|]. split; [lia|]. f_equal. f_equal. lia.
Qed.

(** X4.  A 2D block of any stride [s >= 1]: the 1x1 convolution of the
    shortcut and the 3x3 convolutions of the residual branch give the same
    size, so the addition never fails; the block returns
    [(h - 1) / s + 1] by [(w - 1) / s + 1], unless in training mode a batch
    normalisation sees a single value per channel and raises. *)
Theorem ResBlock2D_forward_shape (training : bool) (i o s : Z) (p : float)
    (blk : ResBlock2D) (x : Tensor) (n h w : Z) :
  ResBlock2D_init i o s p None = Ok blk ->
  1 <= s ->
  shape x = [n; i; h; w] ->
  1 <= n -> 1 <= h -> 1 <= w ->
  shape_of (ResBlock2D_forward training blk x)
  = if training && (n * (((h - 1) / s + 1) * ((w - 1) / s + 1)) =? 1)
    then Err ExpectedMoreValues
    else Ok [n; o; (h - 1) / s + 1; (w - 1) / s + 1].
Proof.
  intros Hinit Hs Ex Hn Hh Hw.
  pose proof (strided_size h s Hh Hs) as Hh1.
  pose proof (strided_size w s Hw Hs) as Hw1.
  set (h1 := (h - 1) / s + 1) in *. set (w1 := (w - 1) / s + 1) in *.
  destruct (training && (n * (h1 * w1) =? 1)) eqn:T.
  - apply andb_true_iff in T as [-> T]. apply Z.eqb_eq in T.
    apply ResBlock2D_init_Ok in Hinit as (_ & ->).
    unfold shape_of, ResBlock2D_forward, ResBlock2D_main.
    cbn [rb2_bn1 rb2_relu rb2_conv1 rb2_bn2 rb2_dp].
    unfold BatchNorm2d_forward at 1. rewrite Ex.
    destruct (n * (h * w) =? 1) eqn:T1; [reflexivity|].
    cbn [andb bn2_num_features]. rewrite Z.eqb_refl.
    cbn [bind ReLU_forward Dropout2d_forward].
    erewrite (proj2 (Conv2d_forward_Ok _ _ _)); cycle 1.
    { exists n, h, w, h1, w1. simpl_cfg.
      rewrite !conv_out_size_3_1 by assumption.
      split; [reflexivity|]. repeat split. }
    cbn [bind Dropout2d_forward shape]. unfold BatchNorm2d_forward at 1. cbn [shape].
    rewrite T. reflexivity.
  - assert (Hy : ResBlock2D_forward training blk x
                 = Ok {| shape := [n; o; h1; w1];
                         term := EAdd (apply_layers (ResBlock2D_layers blk) (term x))
                                      (shortcut_term (rb2_downsample blk) (term x)) |}).
    { apply (ResBlock2D_forward_Ok training _ _ _ _ _ x _ Hinit).
      exists n, h, w, h1, w1. rewrite !conv_out_size_3_1 by assumption.
      split; [exact Ex|]. split; [|auto].
      destruct training; [|reflexivity]. cbn [andb] in *.
      apply Z.eqb_neq in T. apply Z.eqb_neq. intros E.
      assert (n = 1 /\ h = 1 /\ w = 1) as (-> & -> & ->) by nia.
      apply T. subst h1 w1. rewrite Z.sub_diag, Z.div_0_l by lia. reflexivity. }
    rewrite Hy. reflexivity.
Qed.

Lemma ResBlock2D_forward_shape_witness :
  exists blk,
    ResBlock2D_init 32 64 2 0%float None = Ok blk
    /\ shape_of (ResBlock2D_forward true blk x2_example) = Ok [2; 64; 4; 4].
Proof.
  eexists. split; [reflexivity|].
  apply (ResBlock2D_forward_shape true 32 64 2 0%float _ x2_example 2 8 8);
    try reflexivity; lia.
Defined.

(* ================================================================== *)
(** * Skip fusion: errors *)
(* ================================================================== *)

Lemma shape_eqb_neq (s1 s2 : list Z) : s1 <> s2 -> shape_eqb s1 s2 = false.
Proof.
  intros N. destruct (shape_eqb s1 s2) eqn:E; [|reflexivity].
  apply shape_eqb_eq in E. contradiction.
Qed.

(** X5.  How the skip fusion fails on a skip volume and a slice of positive
    sizes (but for the depth of the volume): an index error when the volume
    has no slice, a channel error when the slice does not have the channels
    of the transposed convolution, and a size error from the concatenation
    when the batch sizes differ or the skip is not twice as high and wide as
    the slice. *)
Theorem UpConv_forward_errors (in_channels out_channels : Z) (skip x : Tensor)
    (n cs d hs ws m c h w : Z) :
  shape skip = [n; cs; d; hs; ws] ->
  shape x = [m; c; h; w] ->
  1 <= in_channels -> 1 <= out_channels ->
  1 <= n -> 1 <= cs -> 1 <= hs -> 1 <= ws ->
  1 <= m -> 1 <= c -> 1 <= h -> 1 <= w ->
  (d <= 0 ->
   UpConv_forward (UpConv_init in_channels out_channels) skip x = Err IndexOutOfRange)
  /\ (1 <= d -> c <> in_channels ->
      UpConv_forward (UpConv_init in_channels out_channels) skip x = Err ChannelMismatch)
  /\ (1 <= d -> c = in_channels -> n <> m \/ hs <> 2 * h \/ ws <> 2 * w ->
      UpConv_forward (UpConv_init in_channels out_channels) skip x = Err SizeMismatch).
Proof.
  intros Es Ex _ _ _ _ _ _ _ _ _ _.
  assert (D : forall a, conv_transpose_out_size a 2 2 0 = 2 * a)
    by (intros a; unfold conv_transpose_out_size; lia).
  unfold UpConv_forward, size, select2. rewrite Es. cbn [nth_error bind].
  split; [|split].
  - intros Hd.
    replace ((- d <=? d / 2) && (d / 2 <? d)) with false; [reflexivity|].
    symmetry. apply andb_false_iff. right. apply Z.ltb_ge. lia.
  - intros Hd Hc.
    replace ((- d <=? d / 2) && (d / 2 <? d)) with true
      by (symmetry; apply andb_true_iff; split; [apply Z.leb_le | apply Z.ltb_lt]; lia).
    cbn [bind]. unfold ConvTranspose2d_forward. rewrite Ex.
    cbn [UpConv_init transconv ct_in_channels].
    apply Z.eqb_neq in Hc. now rewrite Hc.
  - intros Hd -> Hne.
    replace ((- d <=? d / 2) && (d / 2 <? d)) with true
      by (symmetry; apply andb_true_iff; split; [apply Z.leb_le | apply Z.ltb_lt]; lia).
    cbn [bind]. unfold ConvTranspose2d_forward. rewrite Ex.
    cbn [UpConv_init transconv]. simpl_cfg. rewrite Z.eqb_refl.
    unfold _pair. cbn [bind]. unfold cat1. cbn [shape]. rewrite !D.
    replace ((n =? m) && shape_eqb [hs; ws] [2 * h; 2 * w]) with false; [reflexivity|].
    symmetry. apply andb_false_iff.
    destruct (Z.eq_dec n m) as [->|Hn]; [right | left; now apply Z.eqb_neq].
    apply shape_eqb_neq. intros E. destruct Hne as [?|[?|?]]; congruence.
Qed.

Lemma UpConv_forward_errors_witness :
  UpConv_forward (UpConv_init 256 128) skip_example x2_example = Err ChannelMismatch
  /\ UpConv_forward (UpConv_init 32 16) skip_example x2_example = Err SizeMismatch.
Proof.
  split.
  - refine (proj1 (proj2 (UpConv_forward_errors 256 128 skip_example x2_example
                            6 128 3 24 24 2 32 8 8 eq_refl eq_refl
                            _ _ _ _ _ _ _ _ _ _)) _ _); lia.
  - refine (proj2 (proj2 (UpConv_forward_errors 32 16 skip_example x2_example
                            6 128 3 24 24 2 32 8 8 eq_refl eq_refl
                            _ _ _ _ _ _ _ _ _ _)) _ _ _);
      first [lia | reflexivity | left; lia].
Defined.

(* ================================================================== *)
(** * Training and evaluation mode *)
(* ================================================================== *)

Lemma layer_forward_eval (l : layer) (x y : Tensor) :
  layer_forward true l x = Ok y -> layer_forward false l x = Ok y.
Proof.
  destruct l; cbn [layer_forward]; auto.
  - intros H. apply BatchNorm3d_forward_Ok in H as (n & d & h & w & E & _ & ->).
    apply BatchNorm3d_forward_Ok. exists n, d, h, w. auto.
  - intros H. apply BatchNorm2d_forward_Ok in H as (n & h & w & E & _ & ->).
    apply BatchNorm2d_forward_Ok. exists n, h, w. auto.
Qed.

Lemma for_each_mono {A S : Type} (f g : A -> S -> result S) (l : list A) :
  (forall a s s', f a s = Ok s' -> g a s = Ok s') ->
  forall s s', for_each f l s = Ok s' -> for_each g l s = Ok s'.
Proof.
  intros Hfg. induction l as [|a l IH]; intros s s' H; [exact H|].
  cbn [for_each] in *. apply bind_Ok in H as (s1 & H1 & H2).
  rewrite (Hfg _ _ _ H1). cbn [bind]. auto.
Qed.

(** Moves a successful training-mode run, one bind at a time, to
    evaluation mode. *)
Ltac eval_step H :=
  let a := fresh "a" in let E := fresh "E" in
  apply bind_Ok in H; destruct H as (a & E & H);
  first [ apply (layer_forward_eval (LBatchNorm3d _)) in E
        | apply (layer_forward_eval (LBatchNorm2d _)) in E
        | idtac ];
  cbn [layer_forward] in E; rewrite E; cbn [bind]; clear E.

Lemma ResBlock3D_forward_eval (self : ResBlock3D) (x y : Tensor) :
  ResBlock3D_forward true self x = Ok y -> ResBlock3D_forward false self x = Ok y.
Proof.
  unfold ResBlock3D_forward, ResBlock3D_main, ResBlock3D_shortcut, Sequential_forward.
  intros H. apply bind_Ok in H as (m & Hm & H).
  assert (Hm' : ResBlock3D_main false self x = Ok m).
  { unfold ResBlock3D_main. do 6 eval_step Hm. exact Hm. }
  unfold ResBlock3D_main in Hm'. rewrite Hm'. cbn [bind].
  apply bind_Ok in H as (r & Hr & H).
  destruct (rb3_downsample self) as [ds|].
  - rewrite (for_each_mono _ _ ds layer_forward_eval _ _ Hr). exact H.
  - rewrite Hr. exact H.
Qed.

Lemma ResBlock2D_forward_eval (self : ResBlock2D) (x y : Tensor) :
  ResBlock2D_forward true self x = Ok y -> ResBlock2D_forward false self x = Ok y.
Proof.
  unfold ResBlock2D_forward, ResBlock2D_main, ResBlock2D_shortcut, Sequential_forward.
  intros H. apply bind_Ok in H as (m & Hm & H).
  assert (Hm' : ResBlock2D_main false self x = Ok m).
  { unfold ResBlock2D_main. do 7 eval_step Hm. exact Hm. }
  unfold ResBlock2D_main in Hm'. rewrite Hm'. cbn [bind].
  apply bind_Ok in H as (r & Hr & H).
  destruct (rb2_downsample self) as [ds|].
  - rewrite (for_each_mono _ _ ds layer_forward_eval _ _ Hr). exact H.
  - rewrite Hr. exact H.
Qed.

Lemma expand_stage_eval (self : ResUNet) (b_inx : Z) (st st' : Tensor * list Tensor) :
  expand_stage true self b_inx st = Ok st' -> expand_stage false self b_inx st = Ok st'.
Proof.
  unfold expand_stage. destruct st as [out skips]. intros H.
  apply bind_Ok in H as ([skip rest] & -> & H). cbn [bind].
  apply bind_Ok in H as (fused & -> & H). cbn [bind].
  apply bind_Ok in H as (block & -> & H). cbn [bind].
  apply bind_Ok in H as (o & Ho & H).
  now rewrite (ResBlock2D_forward_eval _ _ _ Ho).
Qed.

Lemma contract_eval (self : ResUNet) (st st' : Tensor * list Tensor) :
  contract true self st = Ok st' -> contract false self st = Ok st'.
Proof.
  unfold contract. apply for_each_mono.
  intros b [a s] s1 Hb. apply bind_Ok in Hb as (z & Hz & Hb).
  now rewrite (ResBlock3D_forward_eval _ _ _ Hz).
Qed.

Lemma expand_eval (self : ResUNet) (st st' : Tensor * list Tensor) :
  expand true self st = Ok st' -> expand false self st = Ok st'.
Proof. unfold expand. apply for_each_mono, expand_stage_eval. Qed.

(** X6.  Whatever [forward] returns in training mode it returns in evaluation
    mode: only batch normalisation looks at the mode, and only to refuse. *)
Theorem eval_accepts_what_training_accepts (self : ResUNet) (x y : Tensor) :
  forward true self x = Ok y -> forward false self x = Ok y.
Proof.
  unfold forward, forward_locals. intros H.
  apply bind_Ok in H as ([o sk] & H & Hy).
  apply bind_Ok in H as (t0 & -> & H). cbn [bind].
  apply bind_Ok in H as ([t1 sk1] & Hc & H).
  rewrite (contract_eval _ _ _ Hc). cbn [bind].
  apply bind_Ok in H as (t2 & Hb & H).
  rewrite (ResBlock3D_forward_eval _ _ _ Hb). cbn [bind].
  apply bind_Ok in H as ([t3 sk3] & He & H).
  rewrite (expand_eval _ _ _ He). cbn [bind].
  rewrite H. exact Hy.
Qed.

Lemma eval_accepts_what_training_accepts_witness :
  exists self y,
    ResUNet18 1 2 (Some 0%float) = Ok self
    /\ forward true self main_x = Ok y
    /\ forward false self main_x = Ok y.
Proof.
  destruct (ResUNet18 1 2 (Some 0%float)) as [self|e] eqn:Hself;
    [|vm_compute in Hself; discriminate Hself].
  destruct (forward true self main_x) as [y|e] eqn:E.
  - exists self, y. split; [reflexivity|]. split; [exact E|].
    exact (eval_accepts_what_training_accepts self main_x y E).
  - vm_compute in Hself. injection Hself as <-.
    vm_compute in E. discriminate E.
Defined.

(* ================================================================== *)
(** * Networks of any configuration *)
(* ================================================================== *)

Lemma getitem_of_nat {A : Type} (l : list A) (k : nat) (a : A) :
  getitem l (Z.of_nat k) = Ok a <-> nth_error l k = Some a.
Proof.
  unfold getitem. cbv zeta.
  assert (H : (Z.of_nat k <? 0) = false) by (apply Z.ltb_ge; lia).
  rewrite !H, Nat2Z.id.
  destruct (nth_error l k); split; intros E; try discriminate; congruence.
Qed.

Lemma ResBlock3D_forward_io (training : bool) (i o s : Z) (p : float)
    (blk : ResBlock3D) (x y : Tensor) :
  ResBlock3D_init i o s p None = Ok blk ->
  ResBlock3D_forward training blk x = Ok y ->
  length (shape x) = 5%nat /\ channels x = i
  /\ length (shape y) = 5%nat /\ channels y = o
  /\ batch_size y = batch_size x.
Proof.
  intros Hi H.
  apply (ResBlock3D_forward_Ok training _ _ _ _ _ x y Hi) in H
    as (n & d & h & w & d1 & h1 & w1 & Ex & _ & _ & _ & _ & _ & ->).
  unfold channels, batch_size. rewrite Ex. cbn. auto.
Qed.

Lemma ResBlock2D_forward_io (training : bool) (i o s : Z) (p : float)
    (blk : ResBlock2D) (x y : Tensor) :
  ResBlock2D_init i o s p None = Ok blk ->
  ResBlock2D_forward training blk x = Ok y ->
  length (shape x) = 4%nat /\ channels x = i
  /\ length (shape y) = 4%nat /\ channels y = o
  /\ batch_size y = batch_size x.
Proof.
  intros Hi H.
  apply (ResBlock2D_forward_Ok training _ _ _ _ _ x y Hi) in H
    as (n & h & w & h1 & w1 & Ex & _ & _ & _ & _ & ->).
  unfold channels, batch_size. rewrite Ex. cbn. auto.
Qed.

(** The contracting loop keeps the batch size; the tensor it appends for a
    block has the block's output channels. *)
Lemma contract_shapes (training : bool) (self : ResUNet) (p : float)
    (specs : list (Z * Z * Z)) :
  Forall2 (fun s b => ResBlock3D_init (fst (fst s)) (snd (fst s)) (snd s) p None = Ok b)
          specs (BlocksDown self) ->
  forall out sk out' sk',
    contract training self (out, sk) = Ok (out', sk') ->
    batch_size out' = batch_size out
    /\ exists outs,
         sk' = sk ++ outs
         /\ Forall2 (fun s t => channels t = snd (fst s)) specs outs.
Proof.
  unfold contract. generalize (BlocksDown self) as blocks. intros blocks HF.
  induction HF as [|s b specs blocks Hsb _ IH]; intros out sk out' sk' H.
  - injection H as <- <-. split; [reflexivity|]. exists []. now rewrite app_nil_r.
  - cbn [for_each] in H. apply bind_Ok in H as ([out1 sk1] & H1 & H).
    apply bind_Ok in H1 as (y & Hy & H1). injection H1 as <- <-.
    destruct (ResBlock3D_forward_io _ _ _ _ _ _ _ _ Hsb Hy) as (_ & _ & _ & Hc & Hn).
    apply IH in H as (Hn' & outs & -> & Houts).
    split; [congruence|]. exists (y :: outs). unfold append.
    rewrite <- app_assoc. split; [reflexivity|]. constructor; assumption.
Qed.

(** One expanding stage: it pops the last skip tensor, whose channels together
    with the stage's output channels are the stage's input channels. *)
Lemma expand_stage_shapes (training : bool) (self : ResUNet) (bn : Z) (ub : list Z)
    (p : float) (k : nat) (out out' : Tensor) (sk sk' : list Tensor) :
  TransUpBlocks self = map (fun io => UpConv_init (fst io) (snd io)) (chain bn ub) ->
  Forall2 (fun io b => ResBlock2D_init (fst io) (snd io) 1 p None = Ok b)
          (chain bn ub) (BlocksUp self) ->
  expand_stage training self (Z.of_nat k) (out, sk) = Ok (out', sk') ->
  exists skip io,
    sk = sk' ++ [skip]
    /\ nth_error (chain bn ub) k = Some io
    /\ channels skip + snd io = fst io
    /\ batch_size out' = batch_size out
    /\ length (shape out') = 4%nat
    /\ channels out' = snd io.
Proof.
  intros Ht Hu H. unfold expand_stage in H.
  apply bind_Ok in H as ((skip & rest) & Hpop & H).
  apply bind_Ok in H as (fused & Hf & H).
  apply bind_Ok in H as (block & Hb & H).
  apply bind_Ok in H as (o' & Ho & H).
  injection H as <- <-.
  apply pop_Ok in Hpop. unfold append in Hpop.
  assert (Hup : exists up x, getitem (TransUpBlocks self) (Z.of_nat k) = Ok up
                             /\ batch_size x = batch_size out
                             /\ UpConv_forward up skip x = Ok fused).
  { destruct (Z.of_nat k =? 0).
    - apply bind_Ok in Hf as (ns & _ & Hf).
      apply bind_Ok in Hf as (up & Hup & Hf).
      apply bind_Ok in Hf as (x & Hx & Hf).
      exists up, x. split; [assumption|]. split; [|assumption].
      apply select2_Ok in Hx as (n & c & d & r & Eo & _ & ->).
      unfold batch_size. now rewrite Eo.
    - apply bind_Ok in Hf as (up & Hup & Hf).
      exists up, out. auto. }
  destruct Hup as (up & x & Hup & Hbx & Hfused).
  apply getitem_of_nat in Hup, Hb.
  rewrite Ht, nth_error_map in Hup.
  destruct (nth_error (chain bn ub) k) as [io|] eqn:Eio; [|discriminate].
  cbn [option_map] in Hup. injection Hup as <-.
  destruct (Forall2_nth_error_r _ _ _ Hu k block Hb) as (io' & Eio' & Hblock).
  rewrite Eio in Eio'. injection Eio' as <-.
  apply UpConv_forward_Ok in Hfused as (n & cs & d & h & w & Es & _ & Ex & ->).
  cbn [UpConv_init transconv ct_in_channels ct_out_channels] in *.
  destruct (ResBlock2D_forward_io _ _ _ _ _ _ _ _ Hblock Ho)
    as (_ & Hc & Hr & Hc' & Hn).
  exists skip, io. repeat split; try assumption.
  - unfold channels in *. rewrite Es. cbn in Hc |- *. exact Hc.
  - rewrite Hn, <- Hbx. unfold batch_size. rewrite Ex. reflexivity.
Qed.

(** The expanding loop from stage [k] on, for [m] stages. *)
Lemma expand_loop_shapes (training : bool) (self : ResUNet) (bn : Z) (ub : list Z)
    (p : float) :
  TransUpBlocks self = map (fun io => UpConv_init (fst io) (snd io)) (chain bn ub) ->
  Forall2 (fun io b => ResBlock2D_init (fst io) (snd io) 1 p None = Ok b)
          (chain bn ub) (BlocksUp self) ->
  forall (m k : nat) (out out' : Tensor) (sk sk' : list Tensor),
    for_each (expand_stage training self) (map Z.of_nat (seq k m)) (out, sk)
    = Ok (out', sk') ->
    length sk = (length sk' + m)%nat
    /\ batch_size out' = batch_size out
    /\ (m = 0%nat -> out' = out)
    /\ (m <> 0%nat ->
        length (shape out') = 4%nat /\ channels out' = nth (k + m - 1) ub 0)
    /\ forall j, (j < m)%nat ->
         exists t io,
           nth_error sk (length sk - 1 - j) = Some t
           /\ nth_error (chain bn ub) (k + j) = Some io
           /\ channels t + snd io = fst io.
Proof.
  intros Ht Hu. induction m as [|m IH]; intros k out out' sk sk' H.
  - injection H as <- <-. repeat split; try lia.
  - cbn [seq map for_each] in H.
    apply bind_Ok in H as ([out1 sk1] & H1 & H).
    apply (expand_stage_shapes _ _ _ _ _ _ _ _ _ _ Ht Hu) in H1
      as (skip & io & -> & Hio & Hc & Hn & Hr & Hco).
    apply IH in H as (Hlen & Hn' & Hzero & Hlast & Hall).
    split; [rewrite length_app; cbn [length]; lia|].
    split; [congruence|]. split; [discriminate|]. split.
    + intros _. destruct m as [|m'].
      * rewrite (Hzero eq_refl). split; [assumption|].
        rewrite Hco. apply chain_nth in Hio. subst io. cbn [snd].
        f_equal. lia.
      * destruct Hlast as [Hr' Hc']; [discriminate|]. split; [assumption|].
        rewrite Hc'. f_equal. lia.
    + intros j Hj. rewrite length_app. cbn [length]. destruct j as [|j].
      * exists skip, io. rewrite nth_error_app2 by lia.
        replace (length sk1 + 1 - 1 - 0 - length sk1)%nat with 0%nat by lia.
        rewrite Nat.add_0_r. cbn [nth_error]. auto.
      * destruct (Hall j ltac:(lia)) as (t & io' & Et & Eio' & Hc').
        exists t, io'. rewrite nth_error_app1 by lia.
        replace (length sk1 + 1 - 1 - S j)%nat with (length sk1 - 1 - j)%nat by lia.
        replace (k + S j)%nat with (S k + j)%nat by lia. auto.
Qed.

Lemma range_seq (n : nat) : range (Z.of_nat n) = map Z.of_nat (seq 0 n).
Proof. unfold range. now rewrite Nat2Z.id. Qed.

(** What [forward_locals] does on a network built by the constructor. *)
Lemma forward_locals_shapes (training : bool) (ic oc : option Z)
    (db ub : option (list Z)) (bn : option Z) (p : option float)
    (self : ResUNet) (x output : Tensor) (sk : list Tensor) :
  ResUNet_init ic oc db ub bn p = Ok self ->
  forward_locals training self x = Ok (output, sk) ->
  let down_blocks' := default db [32; 64; 128; 256] in
  let up_blocks' := default ub [256; 128; 64; 32] in
  let bottleneck' := default bn 512 in
  (length sk + length up_blocks' = length down_blocks')%nat
  /\ (exists n d h w, shape x = [n; default ic 1; d; h; w])
  /\ (exists h' w', shape output = [batch_size x; default oc 5; h'; w'])
  /\ forall k, (k < length up_blocks')%nat ->
       nth (length down_blocks' - 1 - k) down_blocks' 0 + nth k up_blocks' 0
       = match k with O => bottleneck' | S j => nth j up_blocks' 0 end.
Proof.
  intros Hinit H. apply ResUNet_init_Ok in Hinit. cbv zeta in *.
  destruct Hinit as (_ & Eub & Ec1 & Hd & Hb & Hu & Ht & Efl).
  unfold forward_locals in H.
  apply bind_Ok in H as (out0 & H0 & H).
  apply bind_Ok in H as ([out1 sk1] & H1 & H).
  apply bind_Ok in H as (out2 & H2 & H).
  apply bind_Ok in H as ([out3 sk3] & H3 & H).
  apply bind_Ok in H as (out4 & H4 & H).
  injection H as <- <-.
  apply Conv3d_forward_Ok in H0 as (n & d & h & w & d' & h' & w' & Ex & _ & _ & _ & E0).
  rewrite Ec1 in Ex, E0. cbn [c3_in_channels c3_out_channels] in Ex, E0.
  apply (contract_shapes _ _ _ _ Hd) in H1 as (Hn1 & outs & E1 & Houts).
  cbn [app] in E1. subst sk1.
  destruct (ResBlock3D_forward_io _ _ _ _ _ _ _ _ Hb H2) as (_ & _ & _ & _ & Hn2).
  unfold expand in H3. rewrite Eub in H3. unfold len in H3. rewrite range_seq in H3.
  apply (expand_loop_shapes _ _ _ _ _ Ht Hu) in H3 as (Hlen & Hn3 & _ & Hlast & Hall).
  apply Conv2d_forward_Ok in H4 as (n4 & h4 & w4 & h4' & w4' & E3 & _ & _ & ->).
  rewrite Efl in *. cbn [c2_in_channels c2_out_channels shape] in *.
  pose proof (Forall2_length_eq _ _ _ Houts) as Hlo.
  rewrite length_down_specs in Hlo.
  split; [lia|]. split; [eauto|]. split.
  - exists h4', w4'. f_equal.
    transitivity (batch_size out3); [unfold batch_size; now rewrite E3|].
    rewrite Hn3, Hn2, Hn1, E0. unfold batch_size. now rewrite Ex.
  - intros k Hk. destruct (Hall k Hk) as (t & io & Et & Eio & Hc).
    cbn [Nat.add] in Eio. apply chain_nth in Eio. subst io. cbn [fst snd] in Hc.
    rewrite <- Hc. f_equal.
    assert (Hs : exists s, nth_error (down_specs (default db [32; 64; 128; 256]))
                                     (length outs - 1 - k) = Some s
                           /\ channels t = snd (fst s)).
    { clear - Houts Et. revert Et. generalize (length outs - 1 - k)%nat as j.
      induction Houts as [|s t' specs outs' Hst _ IH]; intros j Et.
      - destruct j; discriminate.
      - destruct j as [|j]; cbn in *.
        + injection Et as <-. eauto.
        + eauto. }
    destruct Hs as (s & Es & ->).
    rewrite Hlo.
    pose proof (down_specs_nth _ _ _ Es) as E. subst s.
    destruct (length outs - 1 - k)%nat; reflexivity.
Qed.

(** X7.  For a network of any configuration: when [forward] returns,
    [skip_connections] holds [len(down_blocks) - len(up_blocks)] tensors; so
    a network with more expanding than contracting stages never returns. *)
Theorem skip_connections_left (training : bool) (ic oc : option Z)
    (db ub : option (list Z)) (bn : option Z) (p : option float)
    (self : ResUNet) (x output : Tensor) (skip_connections : list Tensor) :
  ResUNet_init ic oc db ub bn p = Ok self ->
  forward_locals training self x = Ok (output, skip_connections) ->
  len skip_connections = len (down_blocks self) - len (up_blocks self)
  /\ len (up_blocks self) <= len (down_blocks self).
Proof.
  intros Hinit H.
  destruct (forward_locals_shapes _ _ _ _ _ _ _ _ _ _ _ Hinit H) as (Hlen & _).
  apply ResUNet_init_Ok in Hinit as (-> & -> & _). unfold len. lia.
Qed.

Lemma skip_connections_left_witness :
  exists self output skip_connections,
    ResUNet_init (Some 1) (Some 2) (Some [8; 16; 32]) (Some [32; 16]) (Some 64)
                 (Some 0%float) = Ok self
    /\ forward_locals true self volume_15 = Ok (output, skip_connections)
    /\ len skip_connections = 1.
Proof.
  destruct (ResUNet_init (Some 1) (Some 2) (Some [8; 16; 32]) (Some [32; 16]) (Some 64)
                         (Some 0%float)) as [self|e] eqn:Hself;
    [|vm_compute in Hself; discriminate Hself].
  destruct (forward_locals true self volume_15) as [[o s]|e] eqn:E.
  - exists self, o, s. split; [reflexivity|]. split; [exact E|].
    destruct (skip_connections_left true _ _ _ _ _ _ self volume_15 o s Hself E) as [-> _].
    vm_compute in Hself. injection Hself as <-. reflexivity.
  - vm_compute in Hself. injection Hself as <-.
    vm_compute in E. discriminate E.
Defined.

(** X8.  For a network of any configuration, [forward] returns only on a
    5D input with [in_channels] channels, and what it returns is 4D, with
    the batch size of the input and [out_channels] channels. *)
Theorem forward_interface (training : bool) (ic oc : option Z)
    (db ub : option (list Z)) (bn : option Z) (p : option float)
    (self : ResUNet) (x y : Tensor) :
  ResUNet_init ic oc db ub bn p = Ok self ->
  forward training self x = Ok y ->
  exists n d h w h' w',
    shape x = [n; default ic 1; d; h; w]
    /\ shape y = [n; default oc 5; h'; w'].
Proof.
  intros Hinit H. unfold forward in H.
  apply bind_Ok in H as ([output sk] & H & Hy). injection Hy as <-.
  destruct (forward_locals_shapes _ _ _ _ _ _ _ _ _ _ _ Hinit H)
    as (_ & (n & d & h & w & Ex) & (h' & w' & Ey) & _).
  exists n, d, h, w, h', w'. split; [exact Ex|].
  rewrite Ey. unfold batch_size. now rewrite Ex.
Qed.

Lemma forward_interface_witness :
  exists self y n d h w h' w',
    ResUNet_init None None None None None None = Ok self
    /\ forward true self volume_31 = Ok y
    /\ shape volume_31 = [n; 1; d; h; w]
    /\ shape y = [n; 5; h'; w'].
Proof.
  destruct (ResUNet_init None None None None None None) as [self|e] eqn:Hself;
    [|vm_compute in Hself; discriminate Hself].
  destruct (forward true self volume_31) as [y|e] eqn:E.
  - destruct (forward_interface true _ _ _ _ _ _ self volume_31 y Hself E)
      as (n & d & h & w & h' & w' & Ex & Ey).
    exists self, y, n, d, h, w, h', w'. auto.
  - vm_compute in Hself. injection Hself as <-.
    vm_compute in E. discriminate E.
Defined.

(** X9.  For a network of any configuration, [forward] returns only if the
    channel counts fit: at every expanding stage [k], the channels of the
    skip tensor of the contracting stage [len(down_blocks) - 1 - k] and the
    stage's own output channels add up to its input channels, that is to
    [bottleneck] for the first stage and to [up_blocks[k - 1]] later. *)
Theorem forward_needs_matching_channels (training : bool) (ic oc : option Z)
    (db ub : option (list Z)) (bn : option Z) (p : option float)
    (self : ResUNet) (x y : Tensor) :
  ResUNet_init ic oc db ub bn p = Ok self ->
  forward training self x = Ok y ->
  let down_blocks' := default db [32; 64; 128; 256] in
  let up_blocks' := default ub [256; 128; 64; 32] in
  let bottleneck' := default bn 512 in
  forall k, (k < length up_blocks')%nat ->
    nth (length down_blocks' - 1 - k) down_blocks' 0 + nth k up_blocks' 0
    = match k with O => bottleneck' | S j => nth j up_blocks' 0 end.
Proof.
  intros Hinit H. unfold forward in H.
  apply bind_Ok in H as ([output sk] & H & _).
  exact (proj2 (proj2 (proj2 (forward_locals_shapes _ _ _ _ _ _ _ _ _ _ _ Hinit H)))).
Qed.

Lemma forward_needs_matching_channels_witness :
  exists self y,
    ResUNet_init (Some 1) (Some 2) (Some [8; 16; 32]) (Some [32; 16]) (Some 64)
                 (Some 0%float) = Ok self
    /\ forward true self volume_15 = Ok y
    /\ forall k, (k < 2)%nat ->
         nth (3 - 1 - k) [8; 16; 32] 0 + nth k [32; 16] 0
         = match k with O => 64 | S j => nth j [32; 16] 0 end.
Proof.
  destruct (ResUNet_init (Some 1) (Some 2) (Some [8; 16; 32]) (Some [32; 16]) (Some 64)
                         (Some 0%float)) as [self|e] eqn:Hself;
    [|vm_compute in Hself; discriminate Hself].
  destruct (forward true self volume_15) as [y|e] eqn:E.
  - exists self, y. split; [reflexivity|]. split; [exact E|].
    exact (forward_needs_matching_channels true _ _ _ _ _ _ self volume_15 y Hself E).
  - vm_compute in Hself. injection Hself as <-.
    vm_compute in E. discriminate E.
Defined.

(* ================================================================== *)
(** * Volumes through the contracting path *)
(* ================================================================== *)

Lemma contract_unfold (training : bool) (self : ResUNet) (st : Tensor * list Tensor) :
  contract training self st = for_each (contract_body training) (BlocksDown self) st.
Proof. reflexivity. Qed.

Lemma pow2_pos (k : nat) : 0 < 2 ^ Z.of_nat k.
Proof. apply Z.pow_pos_nonneg; lia. Qed.

Lemma pow2_S (k : nat) : 2 ^ Z.of_nat (S k) = 2 * 2 ^ Z.of_nat k.
Proof. rewrite Nat2Z.inj_succ, Z.pow_succ_r by lia. reflexivity. Qed.

Lemma halved_depth_0 (d : Z) : halved_depth d 0 = d.
Proof. unfold halved_depth. cbn. rewrite Z.div_1_r. lia. Qed.

Lemma halved_size_0 (h : Z) : halved_size h 0 = h.
Proof. unfold halved_size. cbn. rewrite Z.div_1_r. lia. Qed.

Lemma halved_depth_front (d : Z) (k : nat) :
  halved_depth ((d - 1) / 2) k = halved_depth d (S k).
Proof.
  unfold halved_depth. rewrite pow2_S. pose proof (pow2_pos k) as P.
  replace ((d - 1) / 2 + 1) with ((d + 1) / 2) by lia.
  rewrite Z.div_div by lia. reflexivity.
Qed.

Lemma halved_size_front (h : Z) (k : nat) :
  halved_size ((h + 1) / 2) k = halved_size h (S k).
Proof.
  unfold halved_size. rewrite pow2_S. pose proof (pow2_pos k) as P.
  replace ((h + 1) / 2 + 2 ^ Z.of_nat k - 1) with ((h + 2 * 2 ^ Z.of_nat k - 1) / 2) by lia.
  rewrite Z.div_div by lia. reflexivity.
Qed.

Lemma halved_depth_back (d : Z) (k : nat) :
  (halved_depth d k - 1) / 2 = halved_depth d (S k).
Proof.
  unfold halved_depth. rewrite pow2_S. pose proof (pow2_pos k) as P.
  rewrite (Z.mul_comm 2), <- Z.div_div by lia.
  generalize ((d + 1) / 2 ^ Z.of_nat k). intros q. lia.
Qed.

Lemma halved_size_back (h : Z) (k : nat) :
  (halved_size h k + 1) / 2 = halved_size h (S k).
Proof.
  unfold halved_size. rewrite pow2_S. pose proof (pow2_pos k) as P.
  rewrite (Z.mul_comm 2), <- Z.div_div by lia.
  replace (h + 2 ^ Z.of_nat k * 2 - 1)
    with (h + 2 ^ Z.of_nat k - 1 + 1 * 2 ^ Z.of_nat k) by lia.
  rewrite Z.div_add by lia. reflexivity.
Qed.

Lemma halved_size_pos (h : Z) (k : nat) : 1 <= h -> 1 <= halved_size h k.
Proof.
  intros H. unfold halved_size. pose proof (pow2_pos k) as P.
  apply Z.div_le_lower_bound; lia.
Qed.

Lemma halved_depth_ge (d : Z) (k : nat) (c : Z) :
  (c + 1) * 2 ^ Z.of_nat k - 1 <= d -> c <= halved_depth d k.
Proof.
  intros H. unfold halved_depth. pose proof (pow2_pos k) as P.
  assert (c + 1 <= (d + 1) / 2 ^ Z.of_nat k); [|lia].
  apply Z.div_le_lower_bound; lia.
Qed.

Lemma halved_depth_lt (d : Z) (k : nat) (c : Z) :
  d < (c + 1) * 2 ^ Z.of_nat k - 1 -> halved_depth d k < c.
Proof.
  intros H. unfold halved_depth. pose proof (pow2_pos k) as P.
  assert ((d + 1) / 2 ^ Z.of_nat k < c + 1); [|lia].
  apply Z.div_lt_upper_bound; lia.
Qed.

Lemma halved_size_multiple (h0 : Z) (N k : nat) :
  (k <= N)%nat ->
  halved_size (2 ^ Z.of_nat N * h0) k = 2 ^ Z.of_nat (N - k) * h0.
Proof.
  intros H. unfold halved_size. pose proof (pow2_pos k) as P.
  replace (Z.of_nat N) with (Z.of_nat (N - k) + Z.of_nat k) by lia.
  rewrite Z.pow_add_r by lia.
  replace (2 ^ Z.of_nat (N - k) * 2 ^ Z.of_nat k * h0 + 2 ^ Z.of_nat k - 1)
    with (2 ^ Z.of_nat k - 1 + 2 ^ Z.of_nat (N - k) * h0 * 2 ^ Z.of_nat k) by lia.
  rewrite Z.div_add by lia. rewrite Z.div_small by lia. lia.
Qed.

Lemma product_batch (n a b c : Z) :
  2 <= n -> 1 <= a -> 1 <= b -> 1 <= c -> 1 < n * (a * (b * c)).
Proof. intros. nia. Qed.

(** Batch normalisation in training mode accepts a batch of two or more. *)
Ltac bn_batch :=
  match goal with
  | Ht : ?t = true -> 2 <= _ |- ?t = true -> _ =>
      let T := fresh "T" in
      intros T; specialize (Ht T); apply product_batch; lia
  end.

Lemma last_cons_default (c c0 : Z) (l : list Z) : last (c :: l) c0 = last l c.
Proof.
  assert (D : forall (l : list Z) (a b : Z), l <> [] -> last l a = last l b).
  { induction l0 as [|x r IHr]; intros a b N; [contradiction|].
    destruct r as [|y r]; [reflexivity|].
    change (last (y :: r) a = last (y :: r) b). apply IHr. discriminate. }
  destruct l as [|a l]; [reflexivity|].
  change (last (a :: l) c0 = last (a :: l) c). apply D. discriminate.
Qed.

(** A run of blocks of stride 2, each taking the channels the one before
    gives, on a volume that is deep enough. *)
Lemma stride2_chain_Ok (training : bool) (p : float) (n : Z) (l : list Z) :
  1 <= n -> (training = true -> 2 <= n) ->
  forall (c0 : Z) (blocks : list ResBlock3D) (x : Tensor) (d h w : Z)
         (sk : list Tensor),
    Forall2 (fun io b => ResBlock3D_init (fst io) (snd io) 2 p None = Ok b)
            (chain c0 l) blocks ->
    shape x = [n; c0; d; h; w] ->
    1 <= h -> 1 <= w ->
    2 * 2 ^ Z.of_nat (length l) - 1 <= d ->
    exists out outs,
      for_each (contract_body training) blocks (x, sk) = Ok (out, sk ++ outs)
      /\ shape out = [n; last l c0; halved_depth d (length l);
                      halved_size h (length l); halved_size w (length l)]
      /\ length outs = length l
      /\ forall k t,
           nth_error outs k = Some t ->
           shape t = [n; nth k l 0; halved_depth d (S k);
                      halved_size h (S k); halved_size w (S k)].
Proof.
  intros Hn Ht. induction l as [|c l IH]; intros c0 blocks x d h w sk HF Ex Hh Hw Hd.
  - inversion HF; subst. exists x, []. cbn [for_each length last].
    rewrite app_nil_r, halved_depth_0, !halved_size_0.
    split; [reflexivity|]. split; [exact Ex|]. split; [reflexivity|].
    intros k t H. destruct k; discriminate.
  - cbn [chain] in HF. inversion HF as [|io b ios bs Hb HF']; subst. clear HF.
    cbn [fst snd] in Hb. cbn [length] in Hd. rewrite pow2_S in Hd.
    pose proof (pow2_pos (length l)) as P.
    assert (Hd1 : 1 <= d) by lia.
    assert (B1 : training = true -> 1 < n * (d * (h * w)))
      by (intros T; specialize (Ht T); apply product_batch; lia).
    assert (B2 : training = true
                 -> 1 < n * ((d - 1) / 2 * ((h + 1) / 2 * ((w + 1) / 2))))
      by (intros T; specialize (Ht T); apply product_batch; lia).
    destruct (ResBlock3D_stride2_Ok training c0 c p b x n d h w Hb Ex)
      as (y & Hy & Ey); try assumption; try lia.
    destruct (IH c bs y ((d - 1) / 2) ((h + 1) / 2) ((w + 1) / 2) (append sk y) HF' Ey)
      as (out & outs & Hrun & Eout & Hlen & Hall); try lia.
    exists out, (y :: outs). cbn [for_each]. unfold contract_body at 1.
    rewrite Hy. cbn [bind]. rewrite Hrun. unfold append. rewrite <- app_assoc.
    split; [reflexivity|]. split.
    + rewrite Eout, halved_depth_front, !halved_size_front. cbn [length].
      now rewrite last_cons_default.
    + split; [cbn [length]; lia|].
      intros k t Hk. destruct k as [|k]; cbn [nth_error nth] in *.
      * injection Hk as <-. rewrite Ey.
        rewrite <- halved_depth_front, <- !halved_size_front.
        now rewrite halved_depth_0, !halved_size_0.
      * rewrite (Hall k t Hk), halved_depth_front, !halved_size_front. reflexivity.
Qed.

(** The same run on a volume that is not deep enough. *)
Lemma stride2_chain_Err (training : bool) (p : float) (n : Z) (l : list Z) :
  1 <= n -> (training = true -> 2 <= n) ->
  forall (c0 : Z) (blocks : list ResBlock3D) (x : Tensor) (d h w : Z)
         (sk : list Tensor),
    Forall2 (fun io b => ResBlock3D_init (fst io) (snd io) 2 p None = Ok b)
            (chain c0 l) blocks ->
    shape x = [n; c0; d; h; w] ->
    1 <= h -> 1 <= w ->
    1 <= d < 2 * 2 ^ Z.of_nat (length l) - 1 ->
    for_each (contract_body training) blocks (x, sk) = Err KernelTooLarge.
Proof.
  intros Hn Ht. induction l as [|c l IH]; intros c0 blocks x d h w sk HF Ex Hh Hw Hd.
  - cbn in Hd. lia.
  - cbn [chain] in HF. inversion HF as [|io b ios bs Hb HF']; subst. clear HF.
    cbn [fst snd] in Hb. cbn [length] in Hd. rewrite pow2_S in Hd.
    pose proof (pow2_pos (length l)) as P.
    cbn [for_each]. unfold contract_body at 1.
    destruct (Z_lt_le_dec d 3) as [Hd3|Hd3].
    + assert (B1 : training = true -> 1 < n * (d * (h * w)))
        by (intros T; specialize (Ht T); apply product_batch; lia).
      rewrite (ResBlock3D_stride2_thin training c0 c p b x n d h w Hb Ex)
        by (assumption || lia).
      reflexivity.
    + assert (B1 : training = true -> 1 < n * (d * (h * w)))
        by (intros T; specialize (Ht T); apply product_batch; lia).
      assert (B2 : training = true
                   -> 1 < n * ((d - 1) / 2 * ((h + 1) / 2 * ((w + 1) / 2))))
        by (intros T; specialize (Ht T); apply product_batch; lia).
      destruct (ResBlock3D_stride2_Ok training c0 c p b x n d h w Hb Ex)
        as (y & Hy & Ey); try assumption; try lia.
      rewrite Hy. cbn [bind]. apply (IH c bs y ((d - 1) / 2) ((h + 1) / 2) ((w + 1) / 2));
        try assumption; lia.
Qed.

Lemma Forall2_map_left {A B C : Type} (R : B -> C -> Prop) (f : A -> B)
    (l : list A) (l' : list C) :
  Forall2 R (map f l) l' -> Forall2 (fun a c => R (f a) c) l l'.
Proof.
  revert l'. induction l as [|a l IH]; intros l' H; inversion H; subst;
    constructor; auto.
Qed.

(** The contracting loop of a network that the constructor built, on a
    volume that is deep enough for its blocks of stride 2. *)
Lemma contract_built_Ok (training : bool) (p : float) (n d0 : Z) (r : list Z)
    (self : ResUNet) (x0 : Tensor) (d h w : Z) :
  1 <= n -> (training = true -> 2 <= n) ->
  Forall2 (fun s b => ResBlock3D_init (fst (fst s)) (snd (fst s)) (snd s) p None = Ok b)
          (down_specs (d0 :: r)) (BlocksDown self) ->
  shape x0 = [n; d0; d; h; w] ->
  1 <= h -> 1 <= w ->
  2 * 2 ^ Z.of_nat (length r) - 1 <= d ->
  exists out sk,
    contract training self (x0, []) = Ok (out, sk)
    /\ shape out = [n; last (d0 :: r) 0; halved_depth d (length r);
                    halved_size h (length r); halved_size w (length r)]
    /\ length sk = S (length r)
    /\ forall k t,
         nth_error sk k = Some t ->
         shape t = [n; nth k (d0 :: r) 0; halved_depth d k;
                    halved_size h k; halved_size w k].
Proof.
  intros Hn Ht HF Ex Hh Hw Hd. rewrite contract_unfold.
  pose proof (pow2_pos (length r)) as P.
  cbn [down_specs] in HF. inversion HF as [|s b0 ss bs Hb0 HF']; subst. clear HF.
  cbn [fst snd] in Hb0. apply Forall2_map_left in HF'. cbn [fst snd] in HF'.
  destruct (ResBlock3D_stage_stride1 training d0 p b0 x0 n d h w Hb0 Ex)
    as (y0 & Hy0 & Ey0); try lia; try bn_batch.
  destruct (stride2_chain_Ok training p n r Hn Ht d0 bs y0 d h w (append [] y0)
              HF' Ey0 Hh Hw Hd) as (out & outs & Hrun & Eout & Hlen & Hall).
  exists out, (y0 :: outs). cbn [for_each]. unfold contract_body at 1.
  rewrite Hy0. cbn [bind]. rewrite Hrun.
  split; [reflexivity|]. split; [now rewrite last_cons_default|].
  split; [cbn [length]; lia|].
  intros k t Hk. destruct k as [|k]; cbn [nth_error nth] in *.
  - injection Hk as <-. now rewrite halved_depth_0, !halved_size_0.
  - exact (Hall k t Hk).
Qed.

(** The same loop on a volume that is not deep enough. *)
Lemma contract_built_Err (training : bool) (p : float) (n d0 : Z) (r : list Z)
    (self : ResUNet) (x0 : Tensor) (d h w : Z) :
  1 <= n -> (training = true -> 2 <= n) ->
  Forall2 (fun s b => ResBlock3D_init (fst (fst s)) (snd (fst s)) (snd s) p None = Ok b)
          (down_specs (d0 :: r)) (BlocksDown self) ->
  shape x0 = [n; d0; d; h; w] ->
  1 <= h -> 1 <= w ->
  1 <= d < 2 * 2 ^ Z.of_nat (length r) - 1 ->
  contract training self (x0, []) = Err KernelTooLarge.
Proof.
  intros Hn Ht HF Ex Hh Hw Hd. rewrite contract_unfold.
  cbn [down_specs] in HF. inversion HF as [|s b0 ss bs Hb0 HF']; subst. clear HF.
  cbn [fst snd] in Hb0. apply Forall2_map_left in HF'. cbn [fst snd] in HF'.
  destruct (ResBlock3D_stage_stride1 training d0 p b0 x0 n d h w Hb0 Ex)
    as (y0 & Hy0 & Ey0); try lia; try bn_batch.
  cbn [for_each]. unfold contract_body at 1. rewrite Hy0. cbn [bind].
  exact (stride2_chain_Err training p n r Hn Ht d0 bs y0 d h w _ HF' Ey0 Hh Hw Hd).
Qed.

(** The first convolution, the contracting loop and the bottleneck of a
    network that the constructor built. *)
Lemma contracting_built_Ok (training : bool) (ic oc : option Z)
    (db ub : option (list Z)) (bn : option Z) (p : option float)
    (self : ResUNet) (x : Tensor) (n d h w : Z) :
  ResUNet_init ic oc db ub bn p = Ok self ->
  shape x = [n; default ic 1; d; h; w] ->
  1 <= n -> (training = true -> 2 <= n) -> 1 <= h -> 1 <= w ->
  let down_blocks' := default db [32; 64; 128; 256] in
  let N := length down_blocks' in
  2 ^ (Z.of_nat N + 1) - 1 <= d ->
  exists x0 out sk b,
    Conv3d_forward (conv1 self) x = Ok x0
    /\ contract training self (x0, []) = Ok (out, sk)
    /\ length sk = N
    /\ (forall k t,
          nth_error sk k = Some t ->
          shape t = [n; nth k down_blocks' 0; halved_depth d k;
                     halved_size h k; halved_size w k])
    /\ ResBlock3D_forward training (bottleneck self) out = Ok b
    /\ shape b = [n; default bn 512; halved_depth d N; halved_size h N; halved_size w N].
Proof.
  intros Hinit Ex Hn Ht Hh Hw. cbv zeta. intros Hd.
  pose proof (proj1 (ResUNet_init_nonempty _ _ _ _ _ _ _ Hinit)) as Hne.
  apply ResUNet_init_Ok in Hinit. cbv zeta in Hinit.
  destruct Hinit as (_ & _ & Ec1 & HF & Hb & _).
  destruct (default db [32; 64; 128; 256]) as [|d0 r] eqn:Edb; [contradiction|].
  cbn [length hd] in *. pose proof (pow2_pos (length r)) as P.
  replace (2 ^ (Z.of_nat (S (length r)) + 1)) with (4 * 2 ^ Z.of_nat (length r)) in Hd
    by (rewrite Z.pow_add_r, pow2_S by lia; lia).
  destruct (first_conv_stage (default ic 1) d0 x n d h w Ex) as (x0 & Hx0 & Ex0);
    try lia.
  rewrite <- Ec1 in Hx0.
  destruct (contract_built_Ok training _ n d0 r self x0 d h w Hn Ht HF Ex0 Hh Hw)
    as (out & sk & Hrun & Eout & Hlen & Hall); [lia|].
  assert (Hd3 : 3 <= halved_depth d (length r)) by (apply halved_depth_ge; lia).
  pose proof (halved_size_pos h (length r) Hh) as Hh'.
  pose proof (halved_size_pos w (length r) Hw) as Hw'.
  destruct (ResBlock3D_stride2_Ok training _ _ _ _ out n _ _ _ Hb Eout)
    as (b & Hbo & Eb); try assumption; try lia; try bn_batch.
  exists x0, out, sk, b. repeat (split; [assumption|]).
  now rewrite Eb, halved_depth_back, !halved_size_back.
Qed.

(** X10.  The feature pyramid of a network of any configuration, on a batch
    of at least two volumes (one is enough in evaluation mode) of depth at
    least [2^(N+1) - 1], [N = len(down_blocks)]: the contracting loop
    returns, the skip tensor of stage [k] has [down_blocks[k]] channels,
    depth [(d + 1) / 2^k - 1] and height and width divided by [2^k], rounded
    up; and the bottleneck returns [bottleneck] channels at stage [N]. *)
Theorem feature_pyramid (training : bool) (ic oc : option Z)
    (db ub : option (list Z)) (bn : option Z) (p : option float)
    (self : ResUNet) (x : Tensor) (n d h w : Z) :
  ResUNet_init ic oc db ub bn p = Ok self ->
  shape x = [n; default ic 1; d; h; w] ->
  1 <= n -> (training = true -> 2 <= n) -> 1 <= h -> 1 <= w ->
  let down_blocks' := default db [32; 64; 128; 256] in
  let N := length down_blocks' in
  2 ^ (Z.of_nat N + 1) - 1 <= d ->
  exists out skip_connections b,
    contracting_path training self x = Ok (out, skip_connections)
    /\ length skip_connections = N
    /\ (forall k t,
          nth_error skip_connections k = Some t ->
          shape t = [n; nth k down_blocks' 0; halved_depth d k;
                     halved_size h k; halved_size w k])
    /\ ResBlock3D_forward training (bottleneck self) out = Ok b
    /\ shape b = [n; default bn 512; halved_depth d N; halved_size h N; halved_size w N].
Proof.
  intros Hinit Ex Hn Ht Hh Hw dbs N Hd.
  destruct (contracting_built_Ok training ic oc db ub bn p self x n d h w
              Hinit Ex Hn Ht Hh Hw Hd)
    as (x0 & out & sk & b & Hx0 & Hrun & Hlen & Hall & Hb & Eb).
  exists out, sk, b. unfold contracting_path. rewrite Hx0. cbn [bind].
  auto.
Qed.

Lemma feature_pyramid_witness :
  exists self out skip_connections b,
    ResUNet_init None None None None None None = Ok self
    /\ contracting_path true self volume_31 = Ok (out, skip_connections)
    /\ length skip_connections = 4%nat
    /\ ResBlock3D_forward true (bottleneck self) out = Ok b
    /\ shape b = [2; 512; 1; 4; 4].
Proof.
  destruct (ResUNet_init None None None None None None) as [self|e] eqn:Hself;
    [|vm_compute in Hself; discriminate Hself].
  destruct (feature_pyramid true _ _ _ _ _ _ self volume_31 2 31 64 64 Hself)
    as (out & sk & b & Hc & Hl & _ & Hb & Eb).
  - reflexivity.
  - lia.
  - intros _. lia.
  - lia.
  - lia.
  - cbn. lia.
  - exists self, out, sk, b. split; [reflexivity|]. split; [exact Hc|].
    split; [exact Hl|]. split; [exact Hb | exact Eb].
Defined.

(** X11.  On a volume of depth less than [2^(N+1) - 1],
    [N = len(down_blocks)], a network of any configuration raises the
    kernel-size error, whatever the height and the width: a contracting
    block or the bottleneck meets a depth of 1 or 2. *)
Theorem shallow_volume_rejected (training : bool) (ic oc : option Z)
    (db ub : option (list Z)) (bn : option Z) (p : option float)
    (self : ResUNet) (x : Tensor) (n d h w : Z) :
  ResUNet_init ic oc db ub bn p = Ok self ->
  shape x = [n; default ic 1; d; h; w] ->
  1 <= n -> (training = true -> 2 <= n) -> 1 <= h -> 1 <= w ->
  1 <= d < 2 ^ (len (default db [32; 64; 128; 256]) + 1) - 1 ->
  forward training self x = Err KernelTooLarge.
Proof.
  intros Hinit Ex Hn Ht Hh Hw Hd.
  pose proof (proj1 (ResUNet_init_nonempty _ _ _ _ _ _ _ Hinit)) as Hne.
  apply ResUNet_init_Ok in Hinit. cbv zeta in Hinit.
  destruct Hinit as (_ & _ & Ec1 & HF & Hb & _).
  unfold len in Hd.
  destruct (default db [32; 64; 128; 256]) as [|d0 r] eqn:Edb; [contradiction|].
  cbn [length hd] in *. pose proof (pow2_pos (length r)) as P.
  replace (2 ^ (Z.of_nat (S (length r)) + 1)) with (4 * 2 ^ Z.of_nat (length r)) in Hd
    by (rewrite Z.pow_add_r, pow2_S by lia; lia).
  destruct (first_conv_stage (default ic 1) d0 x n d h w Ex) as (x0 & Hx0 & Ex0);
    try lia.
  rewrite <- Ec1 in Hx0.
  unfold forward, forward_locals. rewrite Hx0. cbn [bind].
  destruct (Z_lt_le_dec d (2 * 2 ^ Z.of_nat (length r) - 1)) as [Hlt|Hge].
  - rewrite (contract_built_Err training _ n d0 r self x0 d h w Hn Ht HF Ex0 Hh Hw)
      by lia.
    reflexivity.
  - destruct (contract_built_Ok training _ n d0 r self x0 d h w Hn Ht HF Ex0 Hh Hw)
      as (out & sk & Hrun & Eout & Hlen & Hall); [lia|].
    rewrite Hrun. cbn [bind].
    assert (Hd1 : 1 <= halved_depth d (length r)) by (apply halved_depth_ge; lia).
    assert (Hd3 : halved_depth d (length r) < 3) by (apply halved_depth_lt; lia).
    pose proof (halved_size_pos h (length r) Hh) as Hh'.
    pose proof (halved_size_pos w (length r) Hw) as Hw'.
    rewrite (ResBlock3D_stride2_thin training _ _ _ _ out n _ _ _ Hb Eout)
      by (assumption || lia || bn_batch).
    reflexivity.
Qed.

Lemma shallow_volume_rejected_witness :
  exists self,
    ResUNet_init None None None None None None = Ok self
    /\ forward true self volume_15 = Err KernelTooLarge.
Proof.
  destruct (ResUNet_init None None None None None None) as [self|e] eqn:Hself;
    [|vm_compute in Hself; discriminate Hself].
  exists self. split; [reflexivity|].
  apply (shallow_volume_rejected true _ _ _ _ _ _ self volume_15 2 15 64 64 Hself).
  - reflexivity.
  - lia.
  - intros _. lia.
  - lia.
  - lia.
  - cbn. lia.
Defined.

(* ================================================================== *)
(** * The expanding path of a fitting configuration *)
(* ================================================================== *)

Lemma Forall2_nth_error_l {A B : Type} (R : A -> B -> Prop) (l1 : list A) (l2 : list B) :
  Forall2 R l1 l2 ->
  forall k a, nth_error l1 k = Some a -> exists b, nth_error l2 k = Some b /\ R a b.
Proof.
  induction 1 as [|a b l1 l2 Hab _ IH]; intros k c Hk.
  - destruct k; discriminate.
  - destruct k as [|k]; cbn in *.
    + injection Hk as <-. eauto.
    + eauto.
Qed.

Lemma chain_nth_Some (l : list Z) (prev : Z) (k : nat) :
  (k < length l)%nat ->
  nth_error (chain prev l) k
  = Some (match k with O => prev | S j => nth j l 0 end, nth k l 0).
Proof.
  intros H. destruct (nth_error (chain prev l) k) as [io|] eqn:E.
  - now rewrite (chain_nth _ _ _ _ E).
  - apply nth_error_None in E. rewrite length_chain in E. lia.
Qed.

Lemma nth_error_last_split {A : Type} (l : list A) (a : A) :
  nth_error l (length l - 1) = Some a ->
  l = append (firstn (length l - 1) l) a.
Proof.
  intros H. unfold append.
  rewrite <- (firstn_skipn (length l - 1) l) at 1. f_equal.
  assert (Hl : (length l - 1 < length l)%nat)
    by (apply nth_error_Some; rewrite H; discriminate).
  pose proof (length_skipn (length l - 1) l) as Hs.
  rewrite <- (firstn_skipn (length l - 1) l) in H at 1.
  rewrite nth_error_app2 in H by (rewrite length_firstn; lia).
  rewrite length_firstn in H.
  replace (length l - 1 - Nat.min (length l - 1) (length l))%nat with 0%nat in H by lia.
  destruct (skipn (length l - 1) l) as [|b [|c r]]; cbn in Hs, H; try lia.
  now injection H as ->.
Qed.

(** The stages [k], ..., [k + m - 1] of the expanding loop of a network that
    the constructor built, when the skip tensors they pop are twice as large
    as what the stage brings, stage after stage, and the channels add up. *)
Lemma expand_loop_Ok (training : bool) (self : ResUNet) (bn : Z) (ub : list Z)
    (p : float) (n dN : Z) :
  TransUpBlocks self = map (fun io => UpConv_init (fst io) (snd io)) (chain bn ub) ->
  Forall2 (fun io b => ResBlock2D_init (fst io) (snd io) 1 p None = Ok b)
          (chain bn ub) (BlocksUp self) ->
  1 <= n -> 1 <= dN ->
  forall (m k : nat) (out : Tensor) (stack : list Tensor) (hk wk : Z),
    (k + m <= length ub)%nat ->
    shape out = n :: match k with O => bn | S j => nth j ub 0 end
                  :: match k with O => [dN; hk; wk] | S _ => [hk; wk] end ->
    1 <= hk -> 1 <= wk ->
    (forall j, (j < m)%nat ->
       exists t cs dj,
         nth_error stack (length stack - 1 - j) = Some t
         /\ shape t = [n; cs; dj; 2 ^ Z.of_nat (S j) * hk; 2 ^ Z.of_nat (S j) * wk]
         /\ 1 <= dj
         /\ cs + nth (k + j) ub 0
            = match (k + j)%nat with O => bn | S i => nth i ub 0 end) ->
    (m <= length stack)%nat ->
    exists out',
      for_each (expand_stage training self) (map Z.of_nat (seq k m)) (out, stack)
      = Ok (out', firstn (length stack - m) stack)
      /\ (m = 0%nat -> out' = out)
      /\ (m <> 0%nat ->
          shape out' = [n; nth (k + m - 1) ub 0;
                        2 ^ Z.of_nat m * hk; 2 ^ Z.of_nat m * wk]).
Proof.
  intros Ht Hu Hn HdN.
  induction m as [|m IH]; intros k out stack hk wk Hkm Eout Hh Hw Hstack Hlen.
  - exists out. cbn [seq map for_each]. rewrite Nat.sub_0_r, firstn_all.
    split; [reflexivity|]. split; [reflexivity | contradiction].
  - destruct (Hstack 0%nat ltac:(lia)) as (t & cs & d0 & Et & Est & Hd0 & Hcs).
    rewrite Nat.sub_0_r in Et. rewrite Nat.add_0_r in Hcs.
    apply nth_error_last_split in Et.
    set (stack' := firstn (length stack - 1) stack) in *.
    assert (Hlen' : length stack' = (length stack - 1)%nat)
      by (unfold stack'; rewrite length_firstn; lia).
    assert (Hio : nth_error (chain bn ub) k
                  = Some (match k with O => bn | S j => nth j ub 0 end, nth k ub 0))
      by (apply chain_nth_Some; lia).
    destruct (Forall2_nth_error_l _ _ _ Hu k _ Hio) as (blk & Hblk & Hinit).
    cbn [fst snd] in Hinit.
    assert (Hup : getitem (TransUpBlocks self) (Z.of_nat k)
                  = Ok (UpConv_init (match k with O => bn | S j => nth j ub 0 end)
                                    (nth k ub 0))).
    { apply getitem_of_nat. rewrite Ht, nth_error_map, Hio. reflexivity. }
    apply getitem_of_nat in Hblk.
    change (2 ^ Z.of_nat 1) with 2 in Est.
    assert (Hstage : exists out1,
               expand_stage training self (Z.of_nat k) (out, stack) = Ok (out1, stack')
               /\ shape out1 = [n; nth k ub 0; 2 * hk; 2 * wk]).
    { rewrite Et. destruct k as [|k].
      - apply (expand_stage_first training self out t stack' blk p bn (nth 0 ub 0)
                 n cs dN d0 hk wk); assumption.
      - apply (expand_stage_next training self (Z.of_nat (S k)) out t stack' blk p
                 (nth k ub 0) (nth (S k) ub 0) n cs d0 hk wk); try assumption.
        apply Z.eqb_neq. lia. }
    destruct Hstage as (out1 & Hrun1 & Eout1).
    destruct (IH (S k) out1 stack' (2 * hk) (2 * wk)) as (out' & Hrun & Hzero & Hshape);
      try lia; try assumption.
    { intros j Hj. destruct (Hstack (S j) ltac:(lia)) as (t' & cs' & dj & Et' & Est' & Hdj & Hcs').
      exists t', cs', dj. split.
      - replace (length stack' - 1 - j)%nat with (length stack - 1 - S j)%nat by lia.
        unfold stack'. rewrite nth_error_firstn.
        destruct (Nat.ltb_spec (length stack - 1 - S j) (length stack - 1)); [exact Et'|lia].
      - split.
        + replace (2 ^ Z.of_nat (S j) * (2 * hk)) with (2 ^ Z.of_nat (S (S j)) * hk)
            by (rewrite (pow2_S (S j)); ring).
          replace (2 ^ Z.of_nat (S j) * (2 * wk)) with (2 ^ Z.of_nat (S (S j)) * wk)
            by (rewrite (pow2_S (S j)); ring).
          exact Est'.
        + split; [exact Hdj|]. replace (S k + j)%nat with (k + S j)%nat by lia.
          exact Hcs'. }
    exists out'. cbn [seq map for_each]. rewrite Hrun1. cbn [bind]. rewrite Hrun.
    split.
    + f_equal. f_equal. rewrite Hlen'. unfold stack'. rewrite firstn_firstn.
      f_equal. lia.
    + split; [discriminate|]. intros _. destruct m as [|m'].
      * rewrite (Hzero eq_refl), Eout1. rewrite Nat.add_1_r. cbn [Nat.sub].
        rewrite Nat.sub_0_r. change (2 ^ Z.of_nat 1) with 2. reflexivity.
      * rewrite Hshape by discriminate.
        replace (2 ^ Z.of_nat (S m') * (2 * hk)) with (2 ^ Z.of_nat (S (S m')) * hk)
          by (rewrite (pow2_S (S m')); ring).
        replace (2 ^ Z.of_nat (S m') * (2 * wk)) with (2 ^ Z.of_nat (S (S m')) * wk)
          by (rewrite (pow2_S (S m')); ring).
        replace (S k + S m' - 1)%nat with (k + S (S m') - 1)%nat by lia.
        reflexivity.
Qed.

Lemma last_nth (l : list Z) : last l 0 = nth (length l - 1) l 0.
Proof.
  induction l as [|a l IH]; [reflexivity|].
  destruct l as [|b l]; [reflexivity|].
  change (last (a :: b :: l) 0) with (last (b :: l) 0). rewrite IH.
  cbn [length]. replace (S (S (length l)) - 1)%nat with (S (length l)) by lia.
  replace (S (length l) - 1)%nat with (length l) by lia. reflexivity.
Qed.

(** X12.  A configuration that fits runs: with [M = len(up_blocks)] at most
    [N = len(down_blocks)] and channel counts that add up at every expanding
    stage, [forward] returns on every batch of at least two volumes (one is
    enough in evaluation mode) of depth at least [2^(N+1) - 1] whose height
    and width are multiples of [2^N]; the output has [out_channels] channels
    and [2^M / 2^N] of the input's height and width. *)
Theorem forward_custom_configuration (training : bool) (ic oc : option Z)
    (db ub : option (list Z)) (bn : option Z) (p : option float)
    (self : ResUNet) (x : Tensor) (n d h0 w0 : Z) :
  ResUNet_init ic oc db ub bn p = Ok self ->
  let down_blocks' := default db [32; 64; 128; 256] in
  let up_blocks' := default ub [256; 128; 64; 32] in
  let bottleneck' := default bn 512 in
  let N := length down_blocks' in
  let M := length up_blocks' in
  (M <= N)%nat ->
  (forall k, (k < M)%nat ->
     nth (N - 1 - k) down_blocks' 0 + nth k up_blocks' 0
     = match k with O => bottleneck' | S j => nth j up_blocks' 0 end) ->
  shape x = [n; default ic 1; d; 2 ^ Z.of_nat N * h0; 2 ^ Z.of_nat N * w0] ->
  1 <= n -> (training = true -> 2 <= n) -> 1 <= h0 -> 1 <= w0 ->
  2 ^ (Z.of_nat N + 1) - 1 <= d ->
  exists y,
    forward training self x = Ok y
    /\ shape y = [n; default oc 5; 2 ^ Z.of_nat M * h0; 2 ^ Z.of_nat M * w0].
Proof.
  intros Hinit. cbv zeta. intros HMN Hch Ex Hn Ht Hh0 Hw0 Hd.
  set (dbs := default db [32; 64; 128; 256]) in *.
  set (ubs := default ub [256; 128; 64; 32]) in *.
  set (N := length dbs) in *. set (M := length ubs) in *.
  pose proof (pow2_pos N) as PN.
  assert (HM : M <> 0%nat).
  { pose proof (proj2 (ResUNet_init_nonempty _ _ _ _ _ _ _ Hinit)) as Hne.
    fold ubs in Hne. subst M. destruct ubs; [contradiction | discriminate]. }
  destruct (contracting_built_Ok training ic oc db ub bn p self x n d _ _
              Hinit Ex Hn Ht) as (x0 & out & sk & b & Hx0 & Hrun & Hlen & Hall & Hb & Eb);
    try nia.
  { fold dbs. fold N. exact Hd. }
  fold dbs in Hlen, Hall, Eb. fold N in Hlen, Eb.
  rewrite !halved_size_multiple, Nat.sub_diag in Eb by lia.
  change (2 ^ Z.of_nat 0) with 1 in Eb. rewrite !Z.mul_1_l in Eb.
  assert (HdN : 1 <= halved_depth d N).
  { apply halved_depth_ge. rewrite Z.pow_add_r in Hd by lia. lia. }
  apply ResUNet_init_Ok in Hinit. cbv zeta in Hinit. fold dbs ubs in Hinit.
  destruct Hinit as (_ & Eub & _ & _ & _ & Hu & Htr & Efl).
  destruct (expand_loop_Ok training self _ ubs _ n _ Htr Hu Hn HdN M 0%nat b sk h0 w0)
    as (out' & Hexp & _ & Eout'); try assumption; try lia.
  { intros j Hj.
    destruct (nth_error sk (length sk - 1 - j)) as [t|] eqn:Et;
      [|apply nth_error_None in Et; lia].
    exists t, (nth (N - 1 - j) dbs 0), (halved_depth d (N - 1 - j)).
    split; [reflexivity|]. rewrite Hlen in Et. split.
    - rewrite (Hall _ _ Et), !halved_size_multiple by lia.
      replace (N - (N - 1 - j))%nat with (S j) by lia. reflexivity.
    - split; [|exact (Hch j Hj)].
      apply halved_depth_ge. rewrite Z.pow_add_r in Hd by lia.
      assert (2 ^ Z.of_nat (N - 1 - j) <= 2 ^ Z.of_nat N)
        by (apply Z.pow_le_mono_r; lia).
      lia. }
  specialize (Eout' HM). cbn [Nat.add] in Eout'.
  assert (P2 : 0 < 2 ^ Z.of_nat M) by apply pow2_pos.
  destruct (final_conv_stage (last ubs 0) (default oc 5) out' n
              (2 ^ Z.of_nat M * h0) (2 ^ Z.of_nat M * w0))
    as (y & Hy & Ey); try nia.
  { rewrite Eout', last_nth. reflexivity. }
  rewrite <- Efl in Hy.
  exists y. split; [|exact Ey].
  unfold forward, forward_locals. rewrite Hx0. cbn [bind]. rewrite Hrun. cbn [bind].
  rewrite Hb. cbn [bind]. unfold expand. rewrite Eub. unfold len. rewrite range_seq.
  fold M. rewrite Hexp. cbn [bind]. rewrite Hy. reflexivity.
Qed.

Lemma forward_custom_configuration_witness :
  exists self y,
    ResUNet_init (Some 1) (Some 2) (Some [8; 16; 32]) (Some [32; 16]) (Some 64)
                 (Some 0%float) = Ok self
    /\ forward true self volume_15 = Ok y
    /\ shape y = [2; 2; 32; 32].
Proof.
  destruct (ResUNet_init (Some 1) (Some 2) (Some [8; 16; 32]) (Some [32; 16]) (Some 64)
                         (Some 0%float)) as [self|e] eqn:Hself;
    [|vm_compute in Hself; discriminate Hself].
  destruct (forward_custom_configuration true _ _ _ _ _ _ self volume_15 2 15 8 8 Hself)
    as (y & Hy & Ey).
  - cbn. lia.
  - intros [|[|k]] Hk; cbn in Hk |- *; try reflexivity; lia.
  - reflexivity.
  - lia.
  - intros _. lia.
  - lia.
  - lia.
  - cbn. lia.
  - exists self, y. split; [reflexivity|]. split; [exact Hy | exact Ey].
Defined.

(* ================================================================== *)
(** * Sizes that do not fit *)
(* ================================================================== *)

Lemma conv_transpose_out_size_2_2_0 (a : Z) : conv_transpose_out_size a 2 2 0 = 2 * a.
Proof. unfold conv_transpose_out_size. lia. Qed.

(** One expanding stage of a network that the constructor built: the skip
    tensor it pops is twice as high and wide as what the stage is given, and
    the stage returns that size. *)
Lemma expand_stage_sizes (training : bool) (self : ResUNet) (bn : Z) (ub : list Z)
    (p : float) (k : nat) (out out' : Tensor) (sk sk' : list Tensor) :
  TransUpBlocks self = map (fun io => UpConv_init (fst io) (snd io)) (chain bn ub) ->
  Forall2 (fun io b => ResBlock2D_init (fst io) (snd io) 1 p None = Ok b)
          (chain bn ub) (BlocksUp self) ->
  (k = 0%nat -> length (shape out) = 5%nat) ->
  expand_stage training self (Z.of_nat k) (out, sk) = Ok (out', sk') ->
  exists skip h w,
    sk = sk' ++ [skip]
    /\ spatial out = [h; w]
    /\ spatial skip = [2 * h; 2 * w]
    /\ spatial out' = [2 * h; 2 * w]
    /\ length (shape out') = 4%nat.
Proof.
  intros Ht Hu Hrank H. unfold expand_stage in H.
  apply bind_Ok in H as ((skip & rest) & Hpop & H).
  apply bind_Ok in H as (fused & Hf & H).
  apply bind_Ok in H as (block & Hb & H).
  apply bind_Ok in H as (o' & Ho & H).
  injection H as <- <-.
  apply pop_Ok in Hpop. unfold append in Hpop.
  assert (Hup : exists up x, getitem (TransUpBlocks self) (Z.of_nat k) = Ok up
                             /\ spatial x = spatial out
                             /\ UpConv_forward up skip x = Ok fused).
  { destruct (Z.of_nat k =? 0) eqn:Ek.
    - apply bind_Ok in Hf as (ns & _ & Hf).
      apply bind_Ok in Hf as (up & Hup & Hf).
      apply bind_Ok in Hf as (x & Hx & Hf).
      exists up, x. split; [assumption|]. split; [|assumption].
      apply Z.eqb_eq in Ek. specialize (Hrank ltac:(lia)).
      apply select2_Ok in Hx as (n & c & d & r & Eo & _ & ->).
      unfold spatial. cbn [shape]. rewrite Eo in *. cbn [length] in *.
      destruct r as [|h [|w [|? ?]]]; try discriminate. reflexivity.
    - apply bind_Ok in Hf as (up & Hup & Hf).
      exists up, out. auto. }
  destruct Hup as (up & x & Hup & Hsx & Hfused).
  apply getitem_of_nat in Hup, Hb.
  rewrite Ht, nth_error_map in Hup.
  destruct (nth_error (chain bn ub) k) as [io|] eqn:Eio; [|discriminate].
  cbn [option_map] in Hup. injection Hup as <-.
  destruct (Forall2_nth_error_r _ _ _ Hu k block Hb) as (io' & Eio' & Hblock).
  rewrite Eio in Eio'. injection Eio' as <-.
  apply UpConv_forward_Ok in Hfused as (n & cs & d & h & w & Es & _ & Ex & ->).
  cbn [UpConv_init transconv ct_kernel_size ct_stride ct_padding _pair fst snd] in *.
  unfold _pair in *. cbn [fst snd] in *.
  rewrite !conv_transpose_out_size_2_2_0 in *.
  apply (ResBlock2D_forward_Ok training _ _ _ _ _ _ o' Hblock) in Ho
    as (n' & h' & w' & h1 & w1 & Ef & _ & Hh1 & Hw1 & _ & ->).
  cbn [shape] in Ef. injection Ef as <- _ <- <-.
  apply conv_out_size_same_inv in Hh1, Hw1. subst h1 w1.
  exists skip, h, w. split; [exact Hpop|].
  split; [rewrite <- Hsx; unfold spatial; now rewrite Ex|].
  split; [unfold spatial; now rewrite Es|].
  split; reflexivity.
Qed.

(** The stages [k], ..., [k + m - 1] of the expanding loop. *)
Lemma expand_loop_sizes (training : bool) (self : ResUNet) (bn : Z) (ub : list Z)
    (p : float) :
  TransUpBlocks self = map (fun io => UpConv_init (fst io) (snd io)) (chain bn ub) ->
  Forall2 (fun io b => ResBlock2D_init (fst io) (snd io) 1 p None = Ok b)
          (chain bn ub) (BlocksUp self) ->
  forall (m k : nat) (out out' : Tensor) (stack stack' : list Tensor) (h w : Z),
    (k = 0%nat -> length (shape out) = 5%nat) ->
    spatial out = [h; w] ->
    for_each (expand_stage training self) (map Z.of_nat (seq k m)) (out, stack)
    = Ok (out', stack') ->
    length stack = (length stack' + m)%nat
    /\ spatial out' = [2 ^ Z.of_nat m * h; 2 ^ Z.of_nat m * w]
    /\ forall j, (j < m)%nat ->
         exists t,
           nth_error stack (length stack - 1 - j) = Some t
           /\ spatial t = [2 ^ Z.of_nat (S j) * h; 2 ^ Z.of_nat (S j) * w].
Proof.
  intros Ht Hu. induction m as [|m IH]; intros k out out' stack stack' h w Hrank Hs H.
  - injection H as <- <-. change (2 ^ Z.of_nat 0) with 1. rewrite !Z.mul_1_l.
    repeat split; try lia. exact Hs.
  - cbn [seq map for_each] in H.
    apply bind_Ok in H as ([out1 stack1] & H1 & H).
    apply (expand_stage_sizes _ _ _ _ _ _ _ _ _ _ Ht Hu Hrank) in H1
      as (skip & h' & w' & -> & Hs' & Hskip & Hout1 & _).
    rewrite Hs in Hs'. injection Hs' as <- <-.
    apply (IH (S k) out1 out' stack1 stack' (2 * h) (2 * w)) in H
      as (Hlen & Hout' & Hall); [|discriminate|exact Hout1].
    assert (P : forall j a, 2 ^ Z.of_nat j * (2 * a) = 2 ^ Z.of_nat (S j) * a)
      by (intros j a; rewrite (pow2_S j); ring).
    rewrite !P in Hout'.
    split; [rewrite length_app; cbn [length]; lia|]. split; [exact Hout'|].
    intros j Hj. rewrite length_app. cbn [length]. destruct j as [|j].
    + exists skip. rewrite nth_error_app2 by lia.
      replace (length stack1 + 1 - 1 - 0 - length stack1)%nat with 0%nat by lia.
      change (2 ^ Z.of_nat 1) with 2. auto.
    + destruct (Hall j ltac:(lia)) as (t & Et & Est).
      exists t. rewrite nth_error_app1 by lia.
      replace (length stack1 + 1 - 1 - S j)%nat with (length stack1 - 1 - j)%nat by lia.
      rewrite !P in Est. auto.
Qed.

(** X13.  The sizes have to fit: on a volume that is deep enough, a network
    of any configuration returns only if, for the height and for the width,
    the size at the contracting stage [N - M] is [2^M] times the size at the
    bottleneck ([N = len(down_blocks)], [M = len(up_blocks)]); the output
    then has the size of that stage.  For [M = N]: only if the height and
    the width are multiples of [2^N], and the output has the height and
    width of the input. *)
Theorem forward_needs_fitting_sizes (training : bool) (ic oc : option Z)
    (db ub : option (list Z)) (bn : option Z) (p : option float)
    (self : ResUNet) (x y : Tensor) (n d h w : Z) :
  ResUNet_init ic oc db ub bn p = Ok self ->
  shape x = [n; default ic 1; d; h; w] ->
  1 <= n -> (training = true -> 2 <= n) -> 1 <= h -> 1 <= w ->
  let N := length (default db [32; 64; 128; 256]) in
  let M := length (default ub [256; 128; 64; 32]) in
  2 ^ (Z.of_nat N + 1) - 1 <= d ->
  forward training self x = Ok y ->
  (M <= N)%nat
  /\ halved_size h (N - M) = 2 ^ Z.of_nat M * halved_size h N
  /\ halved_size w (N - M) = 2 ^ Z.of_nat M * halved_size w N
  /\ shape y = [n; default oc 5; halved_size h (N - M); halved_size w (N - M)]
  /\ (M = N -> h mod 2 ^ Z.of_nat N = 0 /\ w mod 2 ^ Z.of_nat N = 0
               /\ shape y = [n; default oc 5; h; w]).
Proof.
  intros Hinit Ex Hn Ht Hh Hw. cbv zeta. intros Hd Hy.
  set (N := length (default db [32; 64; 128; 256])) in *.
  set (M := length (default ub [256; 128; 64; 32])) in *.
  destruct (contracting_built_Ok training ic oc db ub bn p self x n d h w
              Hinit Ex Hn Ht Hh Hw Hd)
    as (x0 & out & sk & b & Hx0 & Hrun & Hlen & Hall & Hb & Eb).
  fold N in Hlen, Eb.
  assert (HM : M <> 0%nat).
  { pose proof (proj2 (ResUNet_init_nonempty _ _ _ _ _ _ _ Hinit)) as Hne.
    subst M. destruct (default ub [256; 128; 64; 32]); [contradiction | discriminate]. }
  unfold forward in Hy. apply bind_Ok in Hy as ([output sk3] & Hloc & Hy).
  injection Hy as <-.
  destruct (forward_locals_shapes _ _ _ _ _ _ _ _ _ _ _ Hinit Hloc)
    as (_ & _ & (hy & wy & Ey) & _).
  unfold forward_locals in Hloc. rewrite Hx0 in Hloc. cbn [bind] in Hloc.
  rewrite Hrun in Hloc. cbn [bind] in Hloc. rewrite Hb in Hloc. cbn [bind] in Hloc.
  apply bind_Ok in Hloc as ([out3 sk3'] & Hexp & Hloc).
  apply bind_Ok in Hloc as (y' & Hfl & Hloc). injection Hloc as <- <-.
  apply ResUNet_init_Ok in Hinit. cbv zeta in Hinit.
  destruct Hinit as (_ & Eub & _ & _ & _ & Hu & Htr & Efl).
  unfold expand in Hexp. rewrite Eub in Hexp. unfold len in Hexp.
  rewrite range_seq in Hexp. fold M in Hexp.
  apply (expand_loop_sizes _ _ _ _ _ Htr Hu M 0%nat b out3 sk sk3'
           (halved_size h N) (halved_size w N)) in Hexp
    as (Hlen3 & Eout3 & Hsk);
    [|intros _; now rewrite Eb|unfold spatial; now rewrite Eb].
  assert (HMN : (M <= N)%nat) by lia.
  destruct (Hsk (M - 1)%nat ltac:(lia)) as (t & Et & Est).
  rewrite Hlen in Et. replace (N - 1 - (M - 1))%nat with (N - M)%nat in Et by lia.
  replace (S (M - 1)) with M in Est by lia.
  pose proof (Hall _ _ Et) as Eshape.
  unfold spatial in Est. rewrite Eshape in Est. cbn [length Nat.sub skipn] in Est.
  injection Est as Eh Ew.
  apply Conv2d_forward_Ok in Hfl as (n4 & h4 & w4 & h4' & w4' & E3 & Hh4 & Hw4 & Ey').
  rewrite Efl in Hh4, Hw4. simpl_cfg.
  apply conv_out_size_Ok in Hh4 as (_ & _ & ->), Hw4 as (_ & _ & ->).
  unfold spatial in Eout3. rewrite E3 in Eout3. cbn [length Nat.sub skipn] in Eout3.
  injection Eout3 as -> ->.
  assert (Eyf : shape y'
                = [n; default oc 5; halved_size h (N - M); halved_size w (N - M)]).
  { rewrite Ey. rewrite Ey' in Ey. cbn [shape] in Ey. injection Ey as _ _ <- <-.
    unfold batch_size. rewrite Ex. cbn [nth]. rewrite Eh, Ew.
    f_equal. f_equal. f_equal; [|f_equal]; rewrite Z.div_1_r; lia. }
  split; [exact HMN|]. split; [exact Eh|]. split; [exact Ew|]. split; [exact Eyf|].
  intros E. rewrite E, Nat.sub_diag, !halved_size_0 in *.
  pose proof (pow2_pos N) as P.
  split; [rewrite Eh, Z.mul_comm; apply Z.mod_mul; lia|].
  split; [rewrite Ew, Z.mul_comm; apply Z.mod_mul; lia|]. exact Eyf.
Qed.

Lemma forward_needs_fitting_sizes_witness :
  exists self y,
    ResUNet_init None None None None None None = Ok self
    /\ forward true self volume_31 = Ok y
    /\ 64 mod 2 ^ 4 = 0
    /\ shape y = [2; 5; 64; 64].
Proof.
  destruct (ResUNet_init None None None None None None) as [self|e] eqn:Hself;
    [|vm_compute in Hself; discriminate Hself].
  destruct (forward true self volume_31) as [y|e] eqn:E.
  - destruct (forward_needs_fitting_sizes true _ _ _ _ _ _ self volume_31 y 2 31 64 64
                Hself) as (_ & _ & _ & _ & H).
    + reflexivity.
    + lia.
    + intros _. lia.
    + lia.
    + lia.
    + cbn. lia.
    + exact E.
    + destruct (H eq_refl) as (Hh & _ & Ey).
      exists self, y. split; [reflexivity|]. split; [exact E|].
      split; [exact Hh | exact Ey].
  - vm_compute in Hself. injection Hself as <-.
    vm_compute in E. discriminate E.
Defined.
